(** * ragaai-catalyst: span staging, lagged upload, and prompt compilation

    A shallow embedding of

    - [ragaai_catalyst/tracers/exporters/file_span_exporter.py]
      (class [FileSpanExporter]: [__init__], [export], [_run_async],
      [_upload_traces]), and
    - [ragaai_catalyst/prompt_manager.py]
      (class [PromptObject]: [__init__], [_extract_variables],
      [get_variables], [compile]; class [Prompt]: [list_prompts],
      [get_prompt_by_version], [get_prompt], [list_prompt_versions];
      class [PromptManager]: [__init__], [list_prompts], [get_prompt],
      [list_prompt_versions]),

    followed by the properties of the specification that concern them
    and by further properties of the same code.

    Conventions.  Python text is a [string] whose characters are code
    points below 256.  A file system is a finite map from paths to file
    texts; directories exist and are writable, so [open] does not fail.
    Python exceptions are values of [exn]; a computation that can raise
    returns a [result].  Instance and process state is threaded
    explicitly.  The prompt service has exceptions of its own
    ([Http.error]), told apart by the classes its [except] clauses
    name, and the network as a collaborator that ends every
    [requests.get]. *)

From Stdlib Require Import ZArith List Ascii String Bool Lia.
From stdpp Require Import base option gmap strings pretty.
Import ListNotations.

Local Open Scope string_scope.
Local Open Scope list_scope.

(** ** Text *)

Module Text.

(** The line terminator written by [f.write(... + "\n")]. *)
Definition newline : ascii := ascii_of_nat 10.
Definition nl : string := String newline EmptyString.

(** [c] occurs in [s]. *)
Fixpoint mem (c : ascii) (s : string) : bool :=
  match s with
  | EmptyString => false
  | String x r => if Ascii.eqb x c then true else mem c r
  end.

(** [s.startswith(c)] and [s.endswith(c)] for a one-character [c]. *)
Definition startswith (c : ascii) (s : string) : bool :=
  match s with
  | String x _ => Ascii.eqb x c
  | EmptyString => false
  end.

Fixpoint endswith (c : ascii) (s : string) : bool :=
  match s with
  | EmptyString => false
  | String x EmptyString => Ascii.eqb x c
  | String _ r => endswith c r
  end.

(** The complete lines of a text, without their terminators, and the
    unterminated remainder after the last terminator. *)
Fixpoint split_lines (s : string) : list string * string :=
  match s with
  | EmptyString => ([], EmptyString)
  | String c r =>
      let '(ls, rest) := split_lines r in
      if Ascii.eqb c newline then (EmptyString :: ls, rest)
      else match ls with
           | [] => ([], String c rest)
           | l :: ls' => (String c l :: ls', rest)
           end
  end.

(** [lines s = Some ls]: the text is exactly the lines [ls], each one
    followed by a terminator. *)
Definition lines (s : string) : option (list string) :=
  match split_lines s with
  | (ls, EmptyString) => Some ls
  | _ => None
  end.

End Text.

(** ** Python values and exceptions *)

(** What [json.loads] yields: [None], [bool], [int], [float], [str],
    [list] and [dict].  A [dict] keeps its keys in insertion order and
    holds a key once; a float is named by the literal that [json] writes
    for it. *)
#[warnings="-register-all"]
Inductive json : Type :=
| JNull
| JBool (b : bool)
| JInt (n : Z)
| JFloat (literal : string)
| JStr (s : string)
| JArr (items : list json)
| JObj (fields : list (string * json)).

Inductive exn : Type :=
| IndexError
| KeyError (key : string)
| TypeError
| ValueError (msg : string)
| AttributeError (attr : string)
| FileNotFoundError (path : string)
| JSONDecodeError.

Inductive result (A : Type) : Type :=
| Ok (a : A)
| Raise (e : exn).
Arguments Ok {A} a.
Arguments Raise {A} e.

Module Py.

(** [d.get(k)] on the fields of a [dict]. *)
Fixpoint dict_get (k : string) (d : list (string * json)) : option json :=
  match d with
  | [] => None
  | (k', v) :: r => if String.eqb k' k then Some v else dict_get k r
  end.

(** [d[k] = v] on the fields of a [dict]: a key already present keeps
    its place, a new key goes last. *)
Fixpoint dict_set (k : string) (v : json) (d : list (string * json))
  : list (string * json) :=
  match d with
  | [] => [(k, v)]
  | (k', v') :: r =>
      if String.eqb k' k then (k, v) :: r else (k', v') :: dict_set k v r
  end.

(** [obj[key]] for a [str] key: only a [dict] can be subscripted by
    one. *)
Definition getitem (obj : json) (key : string) : result json :=
  match obj with
  | JObj d =>
      match dict_get key d with
      | Some v => Ok v
      | None => Raise (KeyError key)
      end
  | _ => Raise TypeError
  end.

(** [obj[key] = v] for a [str] key. *)
Definition setitem (obj : json) (key : string) (v : json) : result json :=
  match obj with
  | JObj d => Ok (JObj (dict_set key v d))
  | _ => Raise TypeError
  end.

(** [l[0]] on a Python list. *)
Definition first {A : Type} (l : list A) : result A :=
  match l with
  | x :: _ => Ok x
  | [] => Raise IndexError
  end.

(** [x + suffix] where [suffix] is a [str]: defined for a [str] [x]
    only. *)
Definition add_str (x : json) (suffix : string) : result string :=
  match x with
  | JStr s => Ok (s +:+ suffix)
  | _ => Raise TypeError
  end.

(** [data.append(x)]: only a [list] has the method. *)
Definition append (data : json) (x : json) : result json :=
  match data with
  | JArr l => Ok (JArr (l ++ [x]))
  | _ => Raise (AttributeError "append")
  end.

(** [os.path.join(a, b)] of [posixpath]. *)
Definition path_join (a b : string) : string :=
  if Text.startswith "/" b then b
  else if orb (String.eqb a EmptyString) (Text.endswith "/" a) then a +:+ b
  else a +:+ "/" +:+ b.

(** A loop body applied to every element of a list, stopping at the
    first exception. *)
Fixpoint for_each {A B : Type} (f : A -> result B) (l : list A)
  : result (list B) :=
  match l with
  | [] => Ok []
  | x :: r =>
      match f x with
      | Raise e => Raise e
      | Ok y =>
          match for_each f r with
          | Raise e => Raise e
          | Ok ys => Ok (y :: ys)
          end
      end
  end.

End Py.

Section Induction.

Variable P : json -> Prop.
Hypothesis HNull : P JNull.
Hypothesis HBool : forall b, P (JBool b).
Hypothesis HInt : forall n, P (JInt n).
Hypothesis HFloat : forall x, P (JFloat x).
Hypothesis HStr : forall x, P (JStr x).
Hypothesis HArr : forall items, Forall P items -> P (JArr items).
Hypothesis HObj :
  forall fields, Forall (fun kv => P (snd kv)) fields -> P (JObj fields).

(** Induction on a document with the hypothesis for every item of
    an array and every value of an object. *)
Fixpoint json_nested_ind (v : json) : P v :=
  match v with
  | JNull => HNull
  | JBool b => HBool b
  | JInt n => HInt n
  | JFloat x => HFloat x
  | JStr x => HStr x
  | JArr items =>
      HArr items
        ((fix each (l : list json) : Forall P l :=
            match l with
            | [] => List.Forall_nil P
            | x :: r => List.Forall_cons P x r (json_nested_ind x) (each r)
            end) items)
  | JObj fields =>
      HObj fields
        ((fix each (l : list (string * json))
            : Forall (fun kv => P (snd kv)) l :=
            match l with
            | [] => List.Forall_nil _
            | (k, x) :: r =>
                List.Forall_cons _ (k, x) r (json_nested_ind x) (each r)
            end) fields)
  end.

End Induction.

(** The [json] module of the Python standard library, as far as the
    exporter relies on it: [json.dumps(v)] (which [json.dump(v, f)]
    writes), [json.dump(v, f, ensure_ascii=False, indent=4)], and
    [json.loads] (which [json.load(f)] applies to the text of [f]).
    Reading back the compact form gives the document that was written,
    and the compact form holds no line terminator. *)
Class JsonCodec : Type := {
  json_dumps : json -> string;
  json_dumps_indent : json -> string;
  json_loads : string -> option json;
  json_loads_dumps : forall v, json_loads (json_dumps v) = Some v;
  json_dumps_one_line : forall v, Text.mem Text.newline (json_dumps v) = false
}.

(** ** The span exporter ([file_span_exporter.py]) *)

Module FileSpanExporter.

(** How one call of [raga_client.check_and_upload_files] ends: it
    returns [upload_stat], raises [asyncio.TimeoutError], or raises
    another [Exception] [e], kept by [str(e)]. *)
Inductive client_result : Type :=
| Returns (upload_stat : bool)
| RaisesTimeout
| RaisesOther (str_e : string).

(** The upload client, an external collaborator: the outcome of its
    [n]-th call (counting from 0) on [file_paths].  It is handed
    neither the exporter nor the local files. *)
Definition RagaExporter : Type := nat -> list string -> client_result.

(** The attributes of a [FileSpanExporter] instance.  [filename] is
    first assigned by [export]; [upload_timeout] is read by
    [_upload_traces] and assigned nowhere in the class, so it is
    present only when a caller has set it on the instance.
    [metadata] and [pipeline] are taken to be two separate objects. *)
Record Exporter : Type := {
  project_name : json;
  session_id : string;
  metadata : json;
  pipeline : json;
  sync_file : option string;
  dir_name : string;
  raga_client : option RagaExporter;
  filename : option string;
  upload_timeout : option Z
}.

(** The process around the exporter: the files, [os.environ],
    [os.getcwd()], and two histories kept for the statements below,
    the [json_file_path] of every [_upload_traces] call and the
    [file_paths] of every [check_and_upload_files] call. *)
Record World : Type := {
  fs : gmap string string;
  environ : gmap string string;
  cwd : string;
  upload_attempts : list string;
  client_calls : list (list string)
}.

Record State : Type := { self : Exporter; world : World }.

(** Computations of the exporter: they read and change the instance
    and the process, and return or raise.  What was changed before a
    raise stays changed. *)
Definition M (A : Type) : Type := State -> result A * State.

Definition ret {A : Type} (a : A) : M A := fun st => (Ok a, st).

Definition raise {A : Type} (e : exn) : M A := fun st => (Raise e, st).

Definition bind {A B : Type} (c : M A) (k : A -> M B) : M B :=
  fun st =>
    match c st with
    | (Ok a, st') => k a st'
    | (Raise e, st') => (Raise e, st')
    end.

Definition lift {A : Type} (r : result A) : M A := fun st => (r, st).

Definition get_self : M Exporter := fun st => (Ok (self st), st).

Definition get_world : M World := fun st => (Ok (world st), st).

Definition set_self (f : Exporter -> Exporter) : M unit :=
  fun st => (Ok tt, {| self := f (self st); world := world st |}).

Definition set_world (f : World -> World) : M unit :=
  fun st => (Ok tt, {| self := self st; world := f (world st) |}).

Declare Scope py_scope.
Delimit Scope py_scope with py.
Notation "x <- c ;; k" := (bind c (fun x => k))
  (at level 100, c at next level, right associativity) : py_scope.
Notation "c ;;; k" := (bind c (fun _ => k))
  (at level 100, right associativity) : py_scope.
Local Open Scope py_scope.

(** *** Attribute assignments *)

Definition set_filename (p : string) (e : Exporter) : Exporter :=
  {| project_name := project_name e; session_id := session_id e;
     metadata := metadata e; pipeline := pipeline e;
     sync_file := sync_file e; dir_name := dir_name e;
     raga_client := raga_client e; filename := Some p;
     upload_timeout := upload_timeout e |}.

Definition set_metadata (m : json) (e : Exporter) : Exporter :=
  {| project_name := project_name e; session_id := session_id e;
     metadata := m; pipeline := pipeline e;
     sync_file := sync_file e; dir_name := dir_name e;
     raga_client := raga_client e; filename := filename e;
     upload_timeout := upload_timeout e |}.

Definition set_pipeline (m : json) (e : Exporter) : Exporter :=
  {| project_name := project_name e; session_id := session_id e;
     metadata := metadata e; pipeline := m;
     sync_file := sync_file e; dir_name := dir_name e;
     raga_client := raga_client e; filename := filename e;
     upload_timeout := upload_timeout e |}.

Definition set_sync_file (p : string) (e : Exporter) : Exporter :=
  {| project_name := project_name e; session_id := session_id e;
     metadata := metadata e; pipeline := pipeline e;
     sync_file := Some p; dir_name := dir_name e;
     raga_client := raga_client e; filename := filename e;
     upload_timeout := upload_timeout e |}.

(** *** Files *)

Definition set_fs (f : gmap string string) (w : World) : World :=
  {| fs := f; environ := environ w; cwd := cwd w;
     upload_attempts := upload_attempts w;
     client_calls := client_calls w |}.

(** [with open(path, "a") as f: f.write(text)] *)
Definition append_text (path text : string) : M unit :=
  set_world (fun w =>
    set_fs (<[path := default EmptyString (fs w !! path) +:+ text]> (fs w)) w).

(** [with open(path, "w") as f: f.write(text)] *)
Definition write_text (path text : string) : M unit :=
  set_world (fun w => set_fs (<[path := text]> (fs w)) w).

(** [os.path.exists(path)] *)
Definition path_exists (path : string) : M bool :=
  w <- get_world ;;
  ret (bool_decide (is_Some (fs w !! path))).

(** [with open(path, "r") as f: f.read()] *)
Definition read_text (path : string) : M string :=
  w <- get_world ;;
  match fs w !! path with
  | Some text => ret text
  | None => raise (FileNotFoundError path)
  end.

(** *** Histories *)

Definition add_attempt (path : string) (w : World) : World :=
  {| fs := fs w; environ := environ w; cwd := cwd w;
     upload_attempts := upload_attempts w ++ [path];
     client_calls := client_calls w |}.

Definition add_client_call (file_paths : list string) (w : World) : World :=
  {| fs := fs w; environ := environ w; cwd := cwd w;
     upload_attempts := upload_attempts w;
     client_calls := client_calls w ++ [file_paths] |}.

Definition log_attempt (path : string) : M unit :=
  set_world (add_attempt path).

Definition log_client_call (file_paths : list string) : M unit :=
  set_world (add_client_call file_paths).

(** *** The class *)

Section Methods.

Context {codec : JsonCodec}.

(** [get_unique_key] of [ragaai_catalyst.tracers.utils], which is
    not among the sources at hand: the content identifier of a
    record, a function of the record alone.  What it does on a value
    that is no [dict] is left open: [export] reaches it with such a
    value only in a call that raises before it writes anything,
    whether in the helper or in the assignment that follows. *)
Variable get_unique_key : json -> string.

(** [FileSpanExporter.__init__].  [uuid4] is the value of
    [str(uuid.uuid4())] and [tempdir] that of
    [tempfile.gettempdir()]; an argument left out is [None]. *)
Definition __init__ (project_name : json) (session_id : option string)
    (metadata pipeline : json) (raga_client : option RagaExporter)
    (uuid4 tempdir : string) : Exporter :=
  {| project_name := project_name;
     session_id := match session_id with
                   | Some s => s
                   | None => uuid4
                   end;
     metadata := metadata;
     pipeline := pipeline;
     sync_file := None;
     dir_name := Py.path_join tempdir "raga_temp";
     raga_client := raga_client;
     filename := None;
     upload_timeout := None |}.

Definition token_missing_msg : string :=
  "RAGAAI_CATALYST_TOKEN not found. Cannot upload traces.".

(** [FileSpanExporter._upload_traces]: the status string it
    returns, or the exception it raises. *)
Definition _upload_traces (json_file_path : string) : M string :=
  log_attempt json_file_path ;;;
  w <- get_world ;;
  (* if not os.getenv("RAGAAI_CATALYST_TOKEN"): raise ValueError(...) *)
  match environ w !! "RAGAAI_CATALYST_TOKEN" with
  | None | Some EmptyString => raise (ValueError token_missing_msg)
  | Some _ =>
      e <- get_self ;;
      (* try: upload_stat = await self.raga_client.check_and_upload_files(...) *)
      match raga_client e with
      | None =>
          (* except Exception as e, the AttributeError of [None] *)
          ret ("Upload failed: " +:+
               "'NoneType' object has no attribute 'check_and_upload_files'")
      | Some client =>
          log_client_call [json_file_path] ;;;
          match client (length (client_calls w)) [json_file_path] with
          | Returns upload_stat =>
              ret (if upload_stat then "Files uploaded successfully"
                   else "No files to upload")
          | RaisesTimeout =>
              (* except asyncio.TimeoutError:
                   return f"Upload timed out after {self.upload_timeout} seconds" *)
              match upload_timeout e with
              | Some t =>
                  ret ("Upload timed out after " +:+ pretty t +:+ " seconds")
              | None => raise (AttributeError "upload_timeout")
              end
          | RaisesOther str_e =>
              (* except Exception as e: return f"Upload failed: {str(e)}" *)
              ret ("Upload failed: " +:+ str_e)
          end
      end
  end.

(** [FileSpanExporter._run_async]: the coroutine is run to its end
    on a thread of its own and [future.result()] hands back what it
    returned or raised. *)
Definition _run_async {A : Type} (coroutine : M A) : M A := coroutine.

(** The body of [for t in traces_list: t["prompt_id"] = get_unique_key(t)]. *)
Definition add_prompt_id (t : json) : result json :=
  Py.setitem t "prompt_id" (JStr (get_unique_key t)).

(** [FileSpanExporter.export].  [spans] gives each span by
    [json.loads(span.to_json())]. *)
Definition export (spans : list json) : M unit :=
  let traces_list := spans in
  t0 <- lift (Py.first traces_list) ;;
  context <- lift (Py.getitem t0 "context") ;;
  trace_id <- lift (Py.getitem context "trace_id") ;;
  e <- get_self ;;
  jsonl_name <- lift (Py.add_str trace_id ".jsonl") ;;
  let filename := Py.path_join (dir_name e) jsonl_name in
  set_self (set_filename filename) ;;;
  (* add the ids *)
  e <- get_self ;;
  m <- lift (Py.setitem (metadata e) "id" (JStr (get_unique_key (metadata e)))) ;;
  set_self (set_metadata m) ;;;
  e <- get_self ;;
  p <- lift (Py.setitem (pipeline e) "id" (JStr (get_unique_key (pipeline e)))) ;;
  set_self (set_pipeline p) ;;;
  (* add prompt id to each trace in trace_list *)
  traces_list <- lift (Py.for_each add_prompt_id traces_list) ;;
  e <- get_self ;;
  let export_data :=
    JObj [ ("project_name", project_name e);
           ("trace_id", trace_id);
           ("session_id", JStr (session_id e));
           ("traces", JArr traces_list);
           ("metadata", metadata e);
           ("pipeline", pipeline e) ] in
  json_name <- lift (Py.add_str trace_id ".json") ;;
  let json_file_path := Py.path_join (dir_name e) json_name in
  (* with open(self.filename, "a") ..., the path assigned above *)
  append_text filename (json_dumps export_data +:+ Text.nl) ;;;
  w <- get_world ;;
  let tracer_json_path := Py.path_join (cwd w) "tracer.json" in
  write_text tracer_json_path (json_dumps_indent export_data) ;;;
  found <- path_exists json_file_path ;;
  if found : bool then
    text <- read_text json_file_path ;;
    data <- match json_loads text with
            | Some d => ret d
            | None => raise JSONDecodeError
            end ;;
    data <- lift (Py.append data export_data) ;;
    write_text json_file_path (json_dumps data)
  else
    let json_data := JArr [export_data] in
    write_text json_file_path (json_dumps json_data) ;;;
    e <- get_self ;;
    match sync_file e with
    | Some previous => _run_async (_upload_traces previous) ;;; ret tt
    | None => ret tt
    end ;;;
    set_self (set_sync_file json_file_path).

End Methods.

End FileSpanExporter.

(** ** Prompt templates ([prompt_manager.py]) *)

Module PromptObject.

Definition open_brace : ascii := ascii_of_nat 123.
Definition close_brace : ascii := ascii_of_nat 125.
Definition double_quote : ascii := ascii_of_nat 34.

(** [c.isspace()] for a code point below 256. *)
Definition is_space (c : ascii) : bool :=
  let n := nat_of_ascii c in
  (Nat.leb 9 n && Nat.leb n 13) || (Nat.leb 28 n && Nat.leb n 32)
  || Nat.eqb n 133 || Nat.eqb n 160.

(** [s.lstrip()], [s.rstrip()] and [s.strip()]. *)
Fixpoint lstrip (s : string) : string :=
  match s with
  | String c r => if is_space c then lstrip r else s
  | EmptyString => EmptyString
  end.

Fixpoint rstrip (s : string) : string :=
  match s with
  | EmptyString => EmptyString
  | String c r =>
      match rstrip r with
      | EmptyString => if is_space c then EmptyString else String c EmptyString
      | r' => String c r'
      end
  end.

Definition strip (s : string) : string := rstrip (lstrip s).

(** The rest of a match of [\{\{(.*?)\}\}] once [{{] is read: the
    shortest run of characters other than the line terminator that
    [}}] follows.  The run is group 1. *)
Fixpoint lazy_group (s : string) : option string :=
  match s with
  | EmptyString => None
  | String c r =>
      if Ascii.eqb c close_brace && Text.startswith close_brace r
      then Some EmptyString
      else if Ascii.eqb c Text.newline then None
      else match lazy_group r with
           | Some g => Some (String c g)
           | None => None
           end
  end.

(** A match of the pattern at the start of [s]. *)
Definition match_here (s : string) : option string :=
  match s with
  | String c1 (String c2 r) =>
      if Ascii.eqb c1 open_brace && Ascii.eqb c2 open_brace
      then lazy_group r else None
  | _ => None
  end.

(** [re.findall(pattern, s)]: group 1 of the matches found from left
    to right, a search resuming where the match before it ended.
    [skip] counts the characters of the current match still to pass;
    a match is four characters longer than its group. *)
Fixpoint findall_from (skip : nat) (s : string) : list string :=
  match s with
  | EmptyString => []
  | String _ r =>
      match skip with
      | S k => findall_from k r
      | O =>
          match match_here s with
          | Some g => g :: findall_from (String.length g + 3) r
          | None => findall_from 0 r
          end
      end
  end.

Definition findall (s : string) : list string := findall_from 0 s.

(** [PromptObject.get_variables] *)
Definition get_variables (text : string) : list string :=
  map strip
    (List.filter (fun m => negb (Text.mem double_quote m)) (findall text)).

(** [s.replace(old, new)] for a non-empty [old]; [skip] counts the
    characters of the current occurrence still to pass. *)
Fixpoint replace_from (skip : nat) (old new s : string) : string :=
  match s with
  | EmptyString => EmptyString
  | String c r =>
      match skip with
      | S k => replace_from k old new r
      | O =>
          if String.prefix old s
          then new +:+ replace_from (String.length old - 1) old new r
          else String c (replace_from 0 old new r)
      end
  end.

(** [s.replace(old, new)]; an empty [old] is found before every
    character and at the end. *)
Definition replace (old new s : string) : string :=
  match old with
  | EmptyString =>
      (fix between (s : string) : string :=
         match s with
         | EmptyString => new
         | String c r => new +:+ String c (between r)
         end) s
  | _ => replace_from 0 old new s
  end.

(** [", ".join(names)] *)
Fixpoint join (sep : string) (names : list string) : string :=
  match names with
  | [] => EmptyString
  | [x] => x
  | x :: r => x +:+ sep +:+ join sep r
  end.

Section Compile.

(** The keyword arguments of [compile]: names with values of any
    type [V], in the order they were passed; [str] is Python's
    [str(value)]. *)
Variable V : Type.
Variable str : V -> string.

Definition placeholder (key : string) : string :=
  "{{" +:+ key +:+ "}}".

(** [PromptObject.compile].  The names in the message of a
    [ValueError] come in the iteration order of a Python [set],
    which the language leaves open; [elements] stands for it. *)
Definition compile (text : string) (kwargs : list (string * V))
  : result string :=
  let required_variables : gset string := list_to_set (get_variables text) in
  let provided_variables : gset string := list_to_set (map fst kwargs) in
  let missing_variables := required_variables ∖ provided_variables in
  let extra_variables := provided_variables ∖ required_variables in
  if negb (bool_decide (missing_variables = ∅)) then
    Raise (ValueError ("Missing variable(s): " +:+
                       join ", " (elements missing_variables)))
  else if negb (bool_decide (extra_variables = ∅)) then
    Raise (ValueError ("Extra variable(s) provided: " +:+
                       join ", " (elements extra_variables)))
  else
    Ok (fold_left
          (fun compiled_prompt '(key, value) =>
             replace (placeholder key) (str value) compiled_prompt)
          kwargs text).

Definition required_variables (text : string) : gset string :=
  list_to_set (get_variables text).

Definition provided_variables (kwargs : list (string * V)) : gset string :=
  list_to_set (map fst kwargs).

(** The reading of [compile] as one pass over the prompt text:
    wherever the placeholder of an argument starts, the string of
    that argument's value is put in its place and the search goes
    on after the placeholder; text that was put in is not searched
    again.  [skip] counts the characters of the current placeholder
    still to pass. *)
Fixpoint substitute_from (skip : nat) (kwargs : list (string * V))
    (s : string) : string :=
  match s with
  | EmptyString => EmptyString
  | String c r =>
      match skip with
      | S k => substitute_from k kwargs r
      | O =>
          match List.find (fun kv => String.prefix (placeholder (fst kv)) s)
                  kwargs with
          | Some (key, value) =>
              str value +:+
              substitute_from (String.length (placeholder key) - 1) kwargs r
          | None => String c (substitute_from 0 kwargs r)
          end
      end
  end.

Definition substitute_at_once (text : string) (kwargs : list (string * V))
  : string :=
  substitute_from 0 kwargs text.

(** One such pass per argument, in the order of the arguments, each
    over the result of the pass before. *)
Definition substitute_in_turn (text : string) (kwargs : list (string * V))
  : string :=
  fold_left (fun compiled_prompt kv => substitute_at_once compiled_prompt [kv])
    kwargs text.

End Compile.

Arguments provided_variables {V} kwargs.

End PromptObject.

(** ** Prompt objects ([PromptObject.__init__], [_extract_variables]) *)

Module PromptInit.
Import PromptObject.

(** [s.lstrip(...)] and [s.rstrip(...)] for the characters that [drop]
    accepts. *)
Fixpoint lstrip_by (drop : ascii -> bool) (s : string) : string :=
  match s with
  | String c r => if drop c then lstrip_by drop r else s
  | EmptyString => EmptyString
  end.

Fixpoint rstrip_by (drop : ascii -> bool) (s : string) : string :=
  match s with
  | EmptyString => EmptyString
  | String c r =>
      match rstrip_by drop r with
      | EmptyString => if drop c then EmptyString else String c EmptyString
      | r' => String c r'
      end
  end.

(** [s.strip(chars)] *)
Definition strip_chars (chars s : string) : string :=
  rstrip_by (fun c => Text.mem c chars) (lstrip_by (fun c => Text.mem c chars) s).

(** [s.split(sep)] for a non-empty [sep]: the pieces between the
    occurrences of [sep] found from left to right, an occurrence
    starting where the one before it ended at the earliest.  [skip]
    counts the characters of the current occurrence still to pass. *)
Fixpoint split_from (skip : nat) (sep s : string) : list string :=
  match s with
  | EmptyString => [EmptyString]
  | String c r =>
      match skip with
      | S k => split_from k sep r
      | O =>
          if String.prefix sep s
          then EmptyString :: split_from (String.length sep - 1) sep r
          else match split_from 0 sep r with
               | piece :: pieces => String c piece :: pieces
               | [] => [String c EmptyString]
               end
      end
  end.

Definition split (sep s : string) : list string := split_from 0 sep s.

(** [PromptObject._extract_variables]:
    [[var.strip('{}') for var in self.text.split('{{')[1:]]] *)
Definition _extract_variables (text : string) : list string :=
  map (strip_chars "{}") (List.tl (split "{{" text)).

(** A [PromptObject] instance. *)
Record Object : Type := { text : string; variables : list string }.

(** [PromptObject.__init__] *)
Definition __init__ (text : string) : Object :=
  {| text := text; variables := _extract_variables text |}.

(** The text holds [{{] somewhere. *)
Fixpoint has_open (s : string) : bool :=
  match s with
  | EmptyString => false
  | String c r =>
      (Ascii.eqb c open_brace && Text.startswith open_brace r) || has_open r
  end.

(** [old in s]: [old] occurs in [s]. *)
Fixpoint occurs (old s : string) : bool :=
  match s with
  | EmptyString => String.prefix old EmptyString
  | String _ r => String.prefix old s || occurs old r
  end.

Definition starts_with (p : ascii -> bool) (s : string) : bool :=
  match s with
  | String c _ => p c
  | EmptyString => false
  end.

Fixpoint ends_with (p : ascii -> bool) (s : string) : bool :=
  match s with
  | EmptyString => false
  | String c EmptyString => p c
  | String _ r => ends_with p r
  end.

Definition is_brace (c : ascii) : bool := Text.mem c "{}".

(** Before an opening: the text holds no [{{] and does not end in
    [{]. *)
Definition before_open (pre : string) : bool :=
  negb (has_open pre) && negb (Text.endswith open_brace pre).

End PromptInit.

(** ** The prompt service ([prompt_manager.py]: [Prompt], [PromptManager]) *)

Module Http.

(** The exceptions of this part, as far as the [except] clauses of
    the two classes tell them apart: the built-in ones the code
    raises or provokes, [json.JSONDecodeError],
    [requests.RequestException] itself, and any other class [Other],
    known by whether it derives from [requests.RequestException] and
    whether it derives from [json.JSONDecodeError]
    ([requests.HTTPError] derives from the first only; what
    [response.json()] raises depends on the version of [requests]).
    [msg] is [str(e)]; that of a [TypeError] is never read. *)
Inductive error : Type :=
| ValueError (msg : string)
| TypeError
| KeyError (msg : string)
| IndexError (msg : string)
| JSONDecodeError (msg : string)
| RequestException (msg : string)
| Other (request_exception json_decode_error : bool) (msg : string).

(** [str(e)] if [except requests.RequestException as e] catches [e]. *)
Definition request_exception_str (e : error) : option string :=
  match e with
  | RequestException msg => Some msg
  | Other true _ msg => Some msg
  | _ => None
  end.

(** [str(e)] if [except (KeyError, json.JSONDecodeError) as e]
    catches [e]; with [index_error], if
    [except (KeyError, json.JSONDecodeError, IndexError) as e] does. *)
Definition parse_error_str (index_error : bool) (e : error) : option string :=
  match e with
  | KeyError msg => Some msg
  | JSONDecodeError msg => Some msg
  | Other _ true msg => Some msg
  | IndexError msg => if index_error then Some msg else None
  | _ => None
  end.

Inductive outcome (A : Type) : Type :=
| Returned (a : A)
| Raised (e : error).
Arguments Returned {A} a.
Arguments Raised {A} e.

(** *** Subscripts and loops over a decoded document *)

(** [obj[key]] for one of the [str] keys of this file, whose [repr]
    is the key between single quotes. *)
Definition getitem (obj : json) (key : string) : outcome json :=
  match obj with
  | JObj d =>
      match Py.dict_get key d with
      | Some v => Returned v
      | None => Raised (KeyError ("'" +:+ key +:+ "'"))
      end
  | _ => Raised TypeError
  end.

(** [obj[0]]: the first item of a [list], the first character of a
    [str]; a [dict] decoded from JSON has no key [0]. *)
Definition getitem_0 (obj : json) : outcome json :=
  match obj with
  | JArr (x :: _) => Returned x
  | JArr [] => Raised (IndexError "list index out of range")
  | JStr (String c _) => Returned (JStr (String c EmptyString))
  | JStr EmptyString => Raised (IndexError "string index out of range")
  | JObj _ => Raised (KeyError "0")
  | _ => Raised TypeError
  end.

(** What [for x in obj] goes through: the items of a [list], the
    keys of a [dict], the characters of a [str]. *)
Definition iter (obj : json) : outcome (list json) :=
  match obj with
  | JArr items => Returned items
  | JObj d => Returned (map (fun kv => JStr (fst kv)) d)
  | JStr s =>
      Returned (map (fun c => JStr (String c EmptyString))
                  (list_ascii_of_string s))
  | _ => Raised TypeError
  end.

(** [[x[key] for x in obj]] *)
Fixpoint getitem_each (key : string) (items : list json)
  : outcome (list json) :=
  match items with
  | [] => Returned []
  | x :: r =>
      match getitem x key with
      | Raised e => Raised e
      | Returned v =>
          match getitem_each key r with
          | Raised e => Raised e
          | Returned vs => Returned (v :: vs)
          end
      end
  end.

(** [prompt += text_field['content']] for every [text_field]; only a
    [str] can be added to a [str]. *)
Fixpoint add_contents (prompt : string) (text_fields : list json)
  : outcome string :=
  match text_fields with
  | [] => Returned prompt
  | text_field :: r =>
      match getitem text_field "content" with
      | Raised e => Raised e
      | Returned (JStr content) => add_contents (prompt +:+ content) r
      | Returned _ => Raised TypeError
      end
  end.

(** [x in l] for a [str] [x] and decoded items [l]: a [str] equals
    no value of another type. *)
Definition contains (x : string) (l : list json) : bool :=
  existsb (fun v => match v with JStr s => String.eqb s x | _ => false end) l.

(** *** Requests *)

Record Request : Type := {
  url : string;
  params : list (string * string);
  headers : list (string * string);
  timeout : Z
}.

(** A response: the message of the [HTTPError] that
    [raise_for_status()] raises, if it raises, and what [json()]
    returns or raises. *)
Record Response : Type := {
  http_error : option string;
  json_body : outcome json
}.

(** How one [requests.get] ends. *)
Inductive reply : Type :=
| Fails (e : error)
| Replies (response : Response).

(** The network, an external collaborator: the end of the [n]-th
    [requests.get] of the process (counting from 0). *)
Definition Network : Type := nat -> Request -> reply.

(** The process: [os.environ] and the [requests.get] calls made so
    far, the failed ones too. *)
Record World : Type := {
  environ : gmap string string;
  sent : list Request
}.

(** The process after further calls of [requests.get]. *)
Definition logged (w : World) (requests : list Request) : World :=
  {| environ := environ w; sent := sent w ++ requests |}.

Definition H (A : Type) : Type := World -> outcome A * World.

Definition ret {A : Type} (a : A) : H A := fun w => (Returned a, w).

Definition raise {A : Type} (e : error) : H A := fun w => (Raised e, w).

Definition bind {A B : Type} (c : H A) (k : A -> H B) : H B :=
  fun w =>
    match c w with
    | (Returned a, w') => k a w'
    | (Raised e, w') => (Raised e, w')
    end.

Definition lift {A : Type} (r : outcome A) : H A := fun w => (r, w).

(** [try: c] with [except] clauses that raise again: [handler e] is
    what the first clause matching [e] raises, if one matches. *)
Definition try_except {A : Type} (c : H A) (handler : error -> option error)
  : H A :=
  fun w =>
    match c w with
    | (Raised e, w') => (Raised (default e (handler e)), w')
    | r => r
    end.

Declare Scope http_scope.
Delimit Scope http_scope with http.
Notation "x <- c ;; k" := (bind c (fun x => k))
  (at level 100, c at next level, right associativity) : http_scope.
Notation "c ;;; k" := (bind c (fun _ => k))
  (at level 100, right associativity) : http_scope.
Local Open Scope http_scope.

(** [os.getenv(name)] *)
Definition getenv (name : string) : H (option string) :=
  fun w => (Returned (environ w !! name), w).

(** [f"{x}"] for what [os.getenv] returned. *)
Definition format_optional (x : option string) : string :=
  match x with
  | Some s => s
  | None => "None"
  end.

Section Network.

Variable network : Network.

(** [requests.get(url, params=params, headers=headers, timeout=timeout)] *)
Definition requests_get (request : Request) : H Response :=
  fun w =>
    match network (length (sent w)) request with
    | Fails e => (Raised e, logged w [request])
    | Replies response => (Returned response, logged w [request])
    end.

(** [response.raise_for_status()] *)
Definition raise_for_status (response : Response) : H unit :=
  match http_error response with
  | Some msg => raise (Other true false msg)
  | None => ret tt
  end.

(** [response.json()] *)
Definition response_json (response : Response) : H json :=
  lift (json_body response).

End Network.

End Http.

(** *** The class [Prompt] *)

Module Prompt.
Import Http.
Local Open Scope http_scope.

Section Methods.

Variable network : Network.

(** [repr(v)] for a decoded value that is not a [str]. *)
Variable repr : json -> string.

(** [f"{v}"] for a decoded value. *)
Definition format (v : json) : string :=
  match v with
  | JStr s => s
  | _ => repr v
  end.

(** The [except] clauses of a method of [Prompt]: first
    [requests.RequestException], then [KeyError],
    [json.JSONDecodeError] and, with [index_error], [IndexError]. *)
Definition handlers (request_msg parse_msg : string) (index_error : bool)
    (e : error) : option error :=
  match request_exception_str e with
  | Some str_e => Some (RequestException (request_msg +:+ str_e))
  | None =>
      match parse_error_str index_error e with
      | Some str_e => Some (ValueError (parse_msg +:+ str_e))
      | None => None
      end
  end.

Definition prompts_request (url : string) (headers : list (string * string))
    (timeout : Z) : Request :=
  {| url := url; params := []; headers := headers; timeout := timeout |}.

(** [Prompt.list_prompts] *)
Definition list_prompts (url : string) (headers : list (string * string))
    (timeout : Z) : H (list json) :=
  try_except
    (response <- requests_get network
       (prompts_request url headers timeout) ;;
     raise_for_status response ;;;
     document <- response_json response ;;
     data <- lift (getitem document "data") ;;
     prompts <- lift (iter data) ;;
     lift (getitem_each "name" prompts))
    (handlers "Error listing prompts: " "Error parsing prompt list: " false).

(** The loop of [get_prompt_by_version] and of [get_prompt] over
    [response.json()["data"]["docs"][0]["textFields"]], from the
    empty text. *)
Definition text_fields (response : Response) : H string :=
  document <- response_json response ;;
  data <- lift (getitem document "data") ;;
  docs <- lift (getitem data "docs") ;;
  doc <- lift (getitem_0 docs) ;;
  fields <- lift (getitem doc "textFields") ;;
  items <- lift (iter fields) ;;
  lift (add_contents EmptyString items).

Definition version_request (base_url : string)
    (headers : list (string * string)) (timeout : Z)
    (prompt_name : string) (version : json) : Request :=
  {| url := base_url +:+ "/version/" +:+ prompt_name +:+ "?version=" +:+
            format version;
     params := []; headers := headers; timeout := timeout |}.

(** [Prompt.get_prompt_by_version]; [version] is a [str] of the
    caller or a name taken from a decoded document. *)
Definition get_prompt_by_version (base_url : string)
    (headers : list (string * string)) (timeout : Z)
    (prompt_name : string) (version : json) : H string :=
  try_except
    (response <- requests_get network
       (version_request base_url headers timeout prompt_name version) ;;
     raise_for_status response ;;;
     text_fields response)
    (handlers "Error fetching prompt version: "
       "Error parsing prompt version: " true).

(** [if version:] for [None] or a [str]. *)
Definition truthy (version : option string) : bool :=
  match version with
  | Some (String _ _) => true
  | _ => false
  end.

Definition latest_request (base_url : string)
    (headers : list (string * string)) (timeout : Z)
    (prompt_name : string) : Request :=
  {| url := base_url +:+ "/version/" +:+ prompt_name;
     params := []; headers := headers; timeout := timeout |}.

(** [Prompt.get_prompt] *)
Definition get_prompt (base_url : string) (headers : list (string * string))
    (timeout : Z) (prompt_name : string) (version : option string)
  : H PromptInit.Object :=
  try_except
    (prompt_text <-
       (if truthy version
        then get_prompt_by_version base_url headers timeout prompt_name
               (JStr (default EmptyString version))
        else
          response <- requests_get network
            (latest_request base_url headers timeout prompt_name) ;;
          raise_for_status response ;;;
          text_fields response) ;;
     ret (PromptInit.__init__ prompt_text))
    (handlers "Error fetching prompt: " "Error parsing prompt: " true).

(** The request that [get_prompt] sends. *)
Definition prompt_request (base_url : string)
    (headers : list (string * string)) (timeout : Z)
    (prompt_name : string) (version : option string) : Request :=
  if truthy version
  then version_request base_url headers timeout prompt_name
         (JStr (default EmptyString version))
  else latest_request base_url headers timeout prompt_name.

(** A [dict] with decoded values as keys, kept as its assignments
    [d[k] = v] in the order they were made; an assignment to a key
    equal to an earlier one overrides it. *)
Definition Versions : Type := list (json * string).

(** [d[k] = v]: a [list] and a [dict] cannot be hashed. *)
Definition setitem (d : Versions) (k : json) (v : string)
  : outcome Versions :=
  match k with
  | JArr _ | JObj _ => Raised TypeError
  | _ => Returned (d ++ [(k, v)])
  end.

(** The loop of [list_prompt_versions] over [version_names]. *)
Fixpoint fetch_versions (base_url : string)
    (headers : list (string * string)) (timeout : Z) (prompt_name : string)
    (version_names : list json) (prompt_versions : Versions) : H Versions :=
  match version_names with
  | [] => ret prompt_versions
  | version :: rest =>
      prompt <- get_prompt_by_version base_url headers timeout prompt_name
                  version ;;
      prompt_versions <- lift (setitem prompt_versions version prompt) ;;
      fetch_versions base_url headers timeout prompt_name rest
        prompt_versions
  end.

Definition versions_request (base_url : string)
    (headers : list (string * string)) (timeout : Z)
    (prompt_name : string) : Request :=
  {| url := base_url +:+ "/" +:+ prompt_name +:+ "/version";
     params := []; headers := headers; timeout := timeout |}.

(** [Prompt.list_prompt_versions] *)
Definition list_prompt_versions (base_url : string)
    (headers : list (string * string)) (timeout : Z) (prompt_name : string)
  : H Versions :=
  try_except
    (response <- requests_get network
       (versions_request base_url headers timeout prompt_name) ;;
     raise_for_status response ;;;
     document <- response_json response ;;
     data <- lift (getitem document "data") ;;
     versions <- lift (iter data) ;;
     version_names <- lift (getitem_each "name" versions) ;;
     fetch_versions base_url headers timeout prompt_name version_names [])
    (handlers "Error listing prompt versions: "
       "Error parsing prompt versions: " false).

End Methods.

End Prompt.

(** *** The class [PromptManager] *)

Module PromptManager.
Import Http.
Local Open Scope http_scope.

Definition NUM_PROJECTS : Z := 100.
Definition TIMEOUT : Z := 10.

(** The attributes of a [PromptManager] instance. *)
Record Manager : Type := {
  project_name : string;
  headers : list (string * string);
  base_url : string;
  timeout : Z
}.

Section Methods.

Variable network : Network.
Variable repr : json -> string.

(** [RagaAICatalyst.BASE_URL], of a module that is not part of the
    sources at hand. *)
Variable BASE_URL : string.

(** An [except requests.RequestException as e] clause alone. *)
Definition on_request_exception (msg : string) (e : error) : option error :=
  match request_exception_str e with
  | Some str_e => Some (RequestException (msg +:+ str_e))
  | None => None
  end.

Definition projects_request (token : option string) : Request :=
  {| Http.url := BASE_URL +:+ "/projects";
     Http.params :=
       [ ("size", pretty NUM_PROJECTS); ("page", "0"); ("type", "llm") ];
     Http.headers :=
       [ ("Content-Type", "application/json");
         ("Authorization", "Bearer " +:+ format_optional token) ];
     Http.timeout := TIMEOUT |}.

(** [PromptManager.__init__] *)
Definition __init__ (project_name : string) : H Manager :=
  token <- getenv "RAGAAI_CATALYST_TOKEN" ;;
  let self :=
    {| project_name := project_name;
       headers :=
         [ ("Content-Type", "application/json");
           ("Authorization", "Bearer " +:+ format_optional token);
           ("X-Project-Name", project_name) ];
       base_url := BASE_URL +:+ "/playground/prompt";
       timeout := 10 |} in
  response <-
    try_except
      (token <- getenv "RAGAAI_CATALYST_TOKEN" ;;
       response <- requests_get network (projects_request token) ;;
       raise_for_status response ;;;
       ret response)
      (on_request_exception "Error fetching projects: ") ;;
  project_list <-
    try_except
      (document <- response_json response ;;
       data <- lift (getitem document "data") ;;
       content <- lift (getitem data "content") ;;
       projects <- lift (iter content) ;;
       lift (getitem_each "name" projects))
      (fun e =>
         match parse_error_str false e with
         | Some str_e =>
             Some (ValueError ("Error parsing project list: " +:+ str_e))
         | None => None
         end) ;;
  if negb (contains project_name project_list)
  then raise (ValueError
                "Project not found. Please enter a valid project name")
  else ret self.

(** [PromptManager.list_prompts] *)
Definition list_prompts (self : Manager) : H (list json) :=
  try_except
    (Prompt.list_prompts network (base_url self) (headers self)
       (timeout self))
    (on_request_exception "Error listing prompts: ").

(** [PromptManager.list_prompt_versions] *)
Definition list_prompt_versions (self : Manager) (prompt_name : string)
  : H Prompt.Versions :=
  prompt_list <-
    try_except (list_prompts self)
      (on_request_exception "Error fetching prompt list: ") ;;
  if negb (contains prompt_name prompt_list)
  then raise (ValueError
                "Prompt not found. Please enter a valid prompt name")
  else
    try_except
      (Prompt.list_prompt_versions network repr (base_url self)
         (headers self) (timeout self) prompt_name)
      (on_request_exception "Error fetching prompt versions: ").

(** [PromptManager.get_prompt] *)
Definition get_prompt (self : Manager) (prompt_name : string)
    (version : option string) : H PromptInit.Object :=
  prompt_list <-
    try_except (list_prompts self)
      (on_request_exception "Error fetching prompt list: ") ;;
  if negb (contains prompt_name prompt_list)
  then raise (ValueError
                "Prompt not found. Please enter a valid prompt name")
  else
    prompt_versions <-
      try_except (list_prompt_versions self prompt_name)
        (on_request_exception "Error fetching prompt versions: ") ;;
    if Prompt.truthy version &&
       negb (contains (default EmptyString version)
               (map fst prompt_versions))
    then raise (ValueError
                  "Version not found. Please enter a valid version name")
    else
      try_except
        (Prompt.get_prompt network repr (base_url self) (headers self)
           (timeout self) prompt_name version)
        (on_request_exception "Error fetching prompt: ").

End Methods.

End PromptManager.

(** ** What one export call stages *)

(** The vocabulary in which the properties of [export] are stated:
    the batches it accepts, the three paths it writes, the envelope it
    composes and the instance it leaves behind. *)
Module Staging.
Import FileSpanExporter.

Definition is_dict (v : json) : bool :=
  match v with
  | JObj _ => true
  | _ => false
  end.

(** [traces_list[0]["context"]["trace_id"]], when it is a [str]. *)
Definition trace_id_of (spans : list json) : option string :=
  match spans with
  | [] => None
  | t0 :: _ =>
      match Py.getitem t0 "context" with
      | Ok context =>
          match Py.getitem context "trace_id" with
          | Ok (JStr t) => Some t
          | _ => None
          end
      | Raise _ => None
      end
  end.

(** A batch for trace id [t]: span documents, the first of which
    names [t]. *)
Definition batch_for (t : string) (spans : list json) : Prop :=
  trace_id_of spans = Some t /\ forallb is_dict spans = true.

Definition is_hex_digit (c : ascii) : bool :=
  let n := nat_of_ascii c in
  (Nat.leb 48 n && Nat.leb n 57) || (Nat.leb 97 n && Nat.leb n 102).

Fixpoint all_hex (s : string) : bool :=
  match s with
  | EmptyString => true
  | String c r => is_hex_digit c && all_hex r
  end.

(** A trace id as [span.to_json()] writes it: [0x] and hexadecimal
    digits. *)
Definition otel_trace_id (t : string) : bool :=
  match t with
  | String "0" (String "x" (String c r)) => all_hex (String c r)
  | _ => false
  end.

Definition jsonl_path (dir t : string) : string :=
  Py.path_join dir (t +:+ ".jsonl").

Definition snapshot_path (dir t : string) : string :=
  Py.path_join dir (t +:+ ".json").

Definition tracer_path (cwd : string) : string :=
  Py.path_join cwd "tracer.json".

Section Envelope.

Variable get_unique_key : json -> string.

(** [v["id"] = get_unique_key(v)] on a [dict]. *)
Definition with_id (v : json) : json :=
  match v with
  | JObj d => JObj (Py.dict_set "id" (JStr (get_unique_key v)) d)
  | _ => v
  end.

(** [t["prompt_id"] = get_unique_key(t)] on a [dict]. *)
Definition with_prompt_id (t : json) : json :=
  match t with
  | JObj d => JObj (Py.dict_set "prompt_id" (JStr (get_unique_key t)) d)
  | _ => t
  end.

(** The instance after the assignments of one call for trace [t]. *)
Definition enrich (e : Exporter) (t : string) : Exporter :=
  set_pipeline (with_id (pipeline e))
    (set_metadata (with_id (metadata e))
       (set_filename (jsonl_path (dir_name e) t) e)).

(** The envelope that a call on instance [e] composes from a batch
    for trace [t]. *)
Definition envelope (e : Exporter) (t : string) (spans : list json) : json :=
  JObj [ ("project_name", project_name e);
         ("trace_id", JStr t);
         ("session_id", JStr (session_id e));
         ("traces", JArr (map with_prompt_id spans));
         ("metadata", with_id (metadata e));
         ("pipeline", with_id (pipeline e)) ].

(** The envelopes of successive calls for trace [t], the instance
    carrying its [metadata] and [pipeline] from one call to the
    next. *)
Fixpoint envelopes (e : Exporter) (t : string) (batches : list (list json))
  : list json :=
  match batches with
  | [] => []
  | spans :: rest => envelope e t spans :: envelopes (enrich e t) t rest
  end.

End Envelope.

(** [os.getenv("RAGAAI_CATALYST_TOKEN")] is truthy. *)
Definition has_token (w : World) : bool :=
  match environ w !! "RAGAAI_CATALYST_TOKEN" with
  | None | Some EmptyString => false
  | Some _ => true
  end.

(** The status that [_upload_traces] makes of the client's answer. *)
Definition status_of (e : Exporter) (answer : client_result) : result string :=
  match answer with
  | Returns upload_stat =>
      Ok (if upload_stat then "Files uploaded successfully"
          else "No files to upload")
  | RaisesTimeout =>
      match upload_timeout e with
      | Some t => Ok ("Upload timed out after " +:+ pretty t +:+ " seconds")
      | None => Raise (AttributeError "upload_timeout")
      end
  | RaisesOther str_e => Ok ("Upload failed: " +:+ str_e)
  end.

(** Two instances that differ at most in [sync_file], [filename],
    [raga_client] and [upload_timeout]: they compose the same
    envelopes. *)
Definition agree (e1 e2 : Exporter) : Prop :=
  project_name e1 = project_name e2 /\ session_id e1 = session_id e2 /\
  metadata e1 = metadata e2 /\ pipeline e1 = pipeline e2 /\
  dir_name e1 = dir_name e2.

(** A [dict] that holds a [str] under key [k]. *)
Definition carries (k : string) (v : json) : Prop :=
  exists d key, v = JObj d /\ Py.dict_get k d = Some (JStr key).

(** [after] is the [dict] [before] with the [str] [key] under [k],
    every other entry as it was. *)
Definition keyed (k key : string) (before after : json) : Prop :=
  exists d d',
    before = JObj d /\ after = JObj d' /\
    Py.dict_get k d' = Some (JStr key) /\
    forall k', k' <> k -> Py.dict_get k' d' = Py.dict_get k' d.

(** An envelope for trace [t]: a [dict] of exactly the six fields, in
    the order [export] writes them. *)
Definition is_envelope (t : string) (x : json) : Prop :=
  exists project_name session_id traces metadata pipeline,
    x = JObj [ ("project_name", project_name);
               ("trace_id", JStr t);
               ("session_id", JStr session_id);
               ("traces", JArr traces);
               ("metadata", metadata);
               ("pipeline", pipeline) ].

(** The array that a snapshot file holds; no file counts as none. *)
Definition snapshot_items {codec : JsonCodec} (file : option string)
  : option (list json) :=
  match file with
  | None => Some []
  | Some text =>
      match json_loads text with
      | Some (JArr items) => Some items
      | _ => None
      end
  end.

(** The files after a call has staged [export_data] next to the
    items [prev] of the snapshot. *)
Definition staged {codec : JsonCodec} (dir cwd t : string)
    (export_data : json) (prev : list json) (files : gmap string string)
  : gmap string string :=
  <[snapshot_path dir t := json_dumps (JArr (prev ++ [export_data]))]>
    (<[tracer_path cwd := json_dumps_indent export_data]>
       (<[jsonl_path dir t :=
            default EmptyString (files !! jsonl_path dir t)
            +:+ json_dumps export_data +:+ Text.nl]> files)).

(** The text of the lines that [export] writes for envelopes. *)
Fixpoint lines_text {codec : JsonCodec} (envelopes : list json) : string :=
  match envelopes with
  | [] => EmptyString
  | x :: r => json_dumps x +:+ Text.nl +:+ lines_text r
  end.

(** Export calls one after the other, with what each returned or
    raised. *)
Fixpoint exports {codec : JsonCodec} (get_unique_key : json -> string)
    (batches : list (list json)) (st : State) : list (result unit) * State :=
  match batches with
  | [] => ([], st)
  | spans :: rest =>
      let '(r, st1) := export get_unique_key spans st in
      let '(rs, st2) := exports get_unique_key rest st1 in
      (r :: rs, st2)
  end.

End Staging.

(** ** A codec to check the assumptions on [json] against *)

(** A self-delimiting writer and its reader.  It is not the text that
    Python writes; it shows that the laws of [JsonCodec] can be met and
    lets the statements below be run on concrete exports. *)
Module ReferenceCodec.

Definition bit (b : bool) : ascii := if b then "1"%char else "0"%char.

Fixpoint enc_pos (p : positive) : string :=
  match p with
  | xH => "."
  | xO q => String "0" (enc_pos q)
  | xI q => String "1" (enc_pos q)
  end.

Definition enc_N (n : N) : string :=
  match n with
  | N0 => "z"
  | Npos p => String "p" (enc_pos p)
  end.

Definition enc_Z (n : Z) : string :=
  match n with
  | Z0 => "z"
  | Zpos p => String "p" (enc_pos p)
  | Zneg p => String "n" (enc_pos p)
  end.

Definition enc_ascii (c : ascii) (rest : string) : string :=
  let '(Ascii b0 b1 b2 b3 b4 b5 b6 b7) := c in
  String (bit b0) (String (bit b1) (String (bit b2) (String (bit b3)
    (String (bit b4) (String (bit b5) (String (bit b6)
      (String (bit b7) rest))))))).

Fixpoint enc_chars (s : string) : string :=
  match s with
  | EmptyString => EmptyString
  | String c r => enc_ascii c (enc_chars r)
  end.

Definition enc_string (s : string) : string :=
  enc_N (N.of_nat (String.length s)) +:+ enc_chars s.

Fixpoint concat_map {A : Type} (f : A -> string) (l : list A) : string :=
  match l with
  | [] => EmptyString
  | x :: r => f x +:+ concat_map f r
  end.

Fixpoint enc (v : json) : string :=
  match v with
  | JNull => "u"
  | JBool true => "t"
  | JBool false => "f"
  | JInt n => String "i" (enc_Z n)
  | JFloat literal => String "d" (enc_string literal)
  | JStr s => String "s" (enc_string s)
  | JArr items =>
      String "a" (enc_N (N.of_nat (length items)) +:+ concat_map enc items)
  | JObj fields =>
      String "o" (enc_N (N.of_nat (length fields)) +:+
        concat_map (fun '(k, x) => enc_string k +:+ enc x) fields)
  end.

(** A reader takes what it reads off the front of the text. *)
Definition reader (A : Type) : Type := string -> option (A * string).

Fixpoint dec_pos (s : string) : option (positive * string) :=
  match s with
  | EmptyString => None
  | String c r =>
      if Ascii.eqb c "." then Some (xH, r)
      else if Ascii.eqb c "0" then
        match dec_pos r with
        | Some (q, r') => Some (xO q, r')
        | None => None
        end
      else if Ascii.eqb c "1" then
        match dec_pos r with
        | Some (q, r') => Some (xI q, r')
        | None => None
        end
      else None
  end.

Definition dec_N : reader N := fun s =>
  match s with
  | EmptyString => None
  | String c r =>
      if Ascii.eqb c "z" then Some (N0, r)
      else if Ascii.eqb c "p" then
        match dec_pos r with
        | Some (q, r') => Some (Npos q, r')
        | None => None
        end
      else None
  end.

Definition dec_Z : reader Z := fun s =>
  match s with
  | EmptyString => None
  | String c r =>
      if Ascii.eqb c "z" then Some (Z0, r)
      else if Ascii.eqb c "p" then
        match dec_pos r with
        | Some (q, r') => Some (Zpos q, r')
        | None => None
        end
      else if Ascii.eqb c "n" then
        match dec_pos r with
        | Some (q, r') => Some (Zneg q, r')
        | None => None
        end
      else None
  end.

Definition dec_ascii : reader ascii := fun s =>
  match s with
  | String c0 (String c1 (String c2 (String c3
      (String c4 (String c5 (String c6 (String c7 r))))))) =>
      Some (Ascii (Ascii.eqb c0 "1") (Ascii.eqb c1 "1") (Ascii.eqb c2 "1")
                  (Ascii.eqb c3 "1") (Ascii.eqb c4 "1") (Ascii.eqb c5 "1")
                  (Ascii.eqb c6 "1") (Ascii.eqb c7 "1"), r)
  | _ => None
  end.

Fixpoint dec_chars (n : nat) : reader string := fun s =>
  match n with
  | O => Some (EmptyString, s)
  | S k =>
      match dec_ascii s with
      | Some (c, r) =>
          match dec_chars k r with
          | Some (cs, r') => Some (String c cs, r')
          | None => None
          end
      | None => None
      end
  end.

Definition dec_string : reader string := fun s =>
  match dec_N s with
  | Some (n, r) => dec_chars (N.to_nat n) r
  | None => None
  end.

(** [n] items, one after the other. *)
Fixpoint dec_seq {A : Type} (item : reader A) (n : nat) : reader (list A) :=
  fun s =>
    match n with
    | O => Some ([], s)
    | S k =>
        match item s with
        | Some (x, r) =>
            match dec_seq item k r with
            | Some (xs, r') => Some (x :: xs, r')
            | None => None
            end
        | None => None
        end
    end.

Definition dec_field (value : reader json) : reader (string * json) :=
  fun s =>
    match dec_string s with
    | Some (k, r) =>
        match value r with
        | Some (x, r') => Some ((k, x), r')
        | None => None
        end
    | None => None
    end.

(** [fuel] bounds the nesting of arrays and objects. *)
Fixpoint dec (fuel : nat) : reader json := fun s =>
  match fuel with
  | O => None
  | S f =>
      match s with
      | EmptyString => None
      | String c r =>
          if Ascii.eqb c "u" then Some (JNull, r)
          else if Ascii.eqb c "t" then Some (JBool true, r)
          else if Ascii.eqb c "f" then Some (JBool false, r)
          else if Ascii.eqb c "i" then
            match dec_Z r with
            | Some (n, r') => Some (JInt n, r')
            | None => None
            end
          else if Ascii.eqb c "d" then
            match dec_string r with
            | Some (x, r') => Some (JFloat x, r')
            | None => None
            end
          else if Ascii.eqb c "s" then
            match dec_string r with
            | Some (x, r') => Some (JStr x, r')
            | None => None
            end
          else if Ascii.eqb c "a" then
            match dec_N r with
            | Some (n, r') =>
                match dec_seq (dec f) (N.to_nat n) r' with
                | Some (items, r'') => Some (JArr items, r'')
                | None => None
                end
            | None => None
            end
          else if Ascii.eqb c "o" then
            match dec_N r with
            | Some (n, r') =>
                match dec_seq (dec_field (dec f)) (N.to_nat n) r' with
                | Some (fields, r'') => Some (JObj fields, r'')
                | None => None
                end
            | None => None
            end
          else None
      end
  end.

(** The text holds one document and nothing after it. *)
Definition loads (s : string) : option json :=
  match dec (S (String.length s)) s with
  | Some (v, EmptyString) => Some v
  | _ => None
  end.

(** No line terminator is written. *)
Definition one_line (s : string) : Prop :=
  Text.mem Text.newline s = false.

End ReferenceCodec.

(** ** A small scenario *)

(** Three traces, an instance as a tracer would build it, and a
    process with and without the credential; the statements below are
    run on them. *)
Module Scenario.
Import FileSpanExporter.

(** A span document in the layout of [span.to_json()]. *)
Definition span (trace_id name : string) : json :=
  JObj [ ("name", JStr name);
         ("context", JObj [ ("trace_id", JStr trace_id);
                            ("span_id", JStr "0x01");
                            ("trace_state", JStr "[]") ]);
         ("kind", JStr "SpanKind.INTERNAL");
         ("parent_id", JNull);
         ("attributes", JObj [ ("llm.token_count", JInt 12) ]) ].

Definition trace_a : string := "0x0a".
Definition trace_b : string := "0x0b".
Definition trace_c : string := "0x0c".

(** A content identifier to run with: the length of the reference
    encoding of the record. *)
Definition digest (v : json) : string :=
  pretty (String.length (ReferenceCodec.enc v)).

Definition uploading_client : RagaExporter := fun _ _ => Returns true.
Definition failing_client : RagaExporter :=
  fun _ _ => RaisesOther "connection refused".
Definition slow_client : RagaExporter := fun _ _ => RaisesTimeout.

Definition exporter (client : RagaExporter) : Exporter :=
  __init__ (JStr "demo") None
    (JObj [ ("env", JStr "test") ]) (JObj [ ("llm_model", JStr "m") ])
    (Some client) "3f2c" "/tmp".

Definition process (environ : gmap string string) : World :=
  {| fs := ∅; environ := environ; cwd := "/home/user";
     upload_attempts := []; client_calls := [] |}.

Definition with_credential : World :=
  process {[ "RAGAAI_CATALYST_TOKEN" := "secret" ]}.

Definition without_credential : World := process ∅.

(** The instance and the process after one call for trace [a]. *)
Definition after_a {codec : JsonCodec} (client : RagaExporter) (w : World)
  : State :=
  snd (export digest [span trace_a "plan"]
         {| self := exporter client; world := w |}).

Definition calls_for_a : list (list json) :=
  [ [span trace_a "plan"];
    [span trace_a "search"; span trace_a "rank"];
    [span trace_a "answer"] ].

End Scenario.

(** ** A prompt service to try the statements on *)

Module PromptScenario.
Import Http.

Definition BASE_URL : string := "https://catalyst.example/api".
Definition base_url : string := BASE_URL +:+ "/playground/prompt".

(** [repr] of [None], a [bool], an [int] and a [float]. *)
Definition repr (v : json) : string :=
  match v with
  | JNull => "None"
  | JBool true => "True"
  | JBool false => "False"
  | JInt n => pretty n
  | JFloat literal => literal
  | _ => EmptyString
  end.

Definition named (name : string) : json := JObj [ ("name", JStr name) ].

Definition data (v : json) : Response :=
  {| http_error := None; json_body := Returned (JObj [ ("data", v) ]) |}.

Definition prompt_document (contents : list string) : json :=
  JObj [ ("docs",
          JArr [ JObj [ ("textFields",
                         JArr (map (fun s => JObj [ ("content", JStr s) ])
                                 contents)) ] ]) ].

Definition not_found : Response :=
  {| http_error := Some "404 Client Error";
     json_body := Raised (Other true true "Expecting value") |}.

(** A service with the project [demo] and the prompt [greeting] in
    the versions [v1] and [v2]. *)
Definition service : Network := fun _ request =>
  let at_ (path : string) := String.eqb (url request) (BASE_URL +:+ path) in
  if at_ "/projects"
  then Replies (data (JObj [ ("content", JArr [named "demo"]) ]))
  else if at_ "/playground/prompt"
  then Replies (data (JArr [named "greeting"]))
  else if at_ "/playground/prompt/greeting/version"
  then Replies (data (JArr [named "v1"; named "v2"]))
  else if at_ "/playground/prompt/version/greeting?version=v1"
  then Replies (data (prompt_document ["Hello "; "{{name}}"]))
  else if at_ "/playground/prompt/version/greeting?version=v2"
  then Replies (data (prompt_document ["Hi {{name}}!"]))
  else if at_ "/playground/prompt/version/greeting"
  then Replies (data (prompt_document ["Hi {{name}}!"]))
  else Replies not_found.

(** No connection. *)
Definition offline : Network := fun _ _ =>
  Fails (Other true false "Connection refused").

(** A service that answers everything with an empty JSON array. *)
Definition confused : Network := fun _ _ =>
  Replies {| http_error := None; json_body := Returned (JArr []) |}.

Definition process : World :=
  {| environ := {[ "RAGAAI_CATALYST_TOKEN" := "secret" ]}; sent := [] |}.

(** The manager of the project [demo]. *)
Definition manager : PromptManager.Manager :=
  {| PromptManager.project_name := "demo";
     PromptManager.headers :=
       [ ("Content-Type", "application/json");
         ("Authorization", "Bearer secret");
         ("X-Project-Name", "demo") ];
     PromptManager.base_url := base_url;
     PromptManager.timeout := 10 |}.

Definition manager_headers : list (string * string) :=
  PromptManager.headers manager.

End PromptScenario.

(** * Properties *)

(** ** Text and paths *)

Module TextFacts.
Import Text.

Lemma app_cons (c : ascii) (a b : string) :
  String c a +:+ b = String c (a +:+ b).
Proof. reflexivity. Qed.

Lemma app_nil_l (s : string) : EmptyString +:+ s = s.
Proof. reflexivity. Qed.

Lemma app_nil_r (s : string) : s +:+ EmptyString = s.
Proof.
  induction s as [|c s IH]; [reflexivity|].
  now rewrite app_cons, IH.
Qed.

Lemma app_assoc (a b c : string) : (a +:+ b) +:+ c = a +:+ (b +:+ c).
Proof.
  induction a as [|x a IH]; [reflexivity|].
  now rewrite !app_cons, IH.
Qed.

Lemma length_app (a b : string) :
  String.length (a +:+ b) = String.length a + String.length b.
Proof.
  induction a as [|x a IH]; [reflexivity|].
  rewrite app_cons. simpl. now rewrite IH.
Qed.

Lemma mem_app (c : ascii) (a b : string) :
  mem c (a +:+ b) = mem c a || mem c b.
Proof.
  induction a as [|x a IH]; [reflexivity|].
  rewrite app_cons. simpl.
  destruct (Ascii.eqb x c); [reflexivity | exact IH].
Qed.

Lemma split_lines_line (l s : string) :
  mem newline l = false ->
  split_lines (l +:+ nl +:+ s) =
    (l :: fst (split_lines s), snd (split_lines s)).
Proof.
  induction l as [|c l IH]; intros Hl.
  - rewrite app_nil_l. unfold nl. rewrite app_cons, app_nil_l.
    cbn [split_lines]. destruct (split_lines s) as [ls rest].
    now rewrite Ascii.eqb_refl.
  - simpl in Hl. destruct (Ascii.eqb c newline) eqn:Hc; [discriminate|].
    rewrite app_cons. cbn [split_lines]. rewrite (IH Hl), Hc. reflexivity.
Qed.

(** A text of lines followed by a text of lines is the text of all
    the lines, the earlier ones first. *)
Lemma lines_app (a b : string) (la lb : list string) :
  lines a = Some la -> lines b = Some lb ->
  lines (a +:+ b) = Some (la ++ lb).
Proof.
  unfold lines. revert la.
  induction a as [|c a IH]; intros la Ha Hb.
  - simpl in Ha. injection Ha as <-. now rewrite app_nil_l.
  - rewrite app_cons. cbn [split_lines] in *.
    destruct (split_lines a) as [ls0 rest0] eqn:E0.
    destruct (split_lines (a +:+ b)) as [ls1 rest1] eqn:E1.
    destruct (Ascii.eqb c newline).
    + destruct rest0; [|discriminate]. injection Ha as <-.
      specialize (IH ls0 eq_refl Hb).
      destruct rest1; [|discriminate]. injection IH as ->. reflexivity.
    + destruct ls0 as [|l0 ls0]; [destruct rest0; discriminate|].
      destruct rest0; [|discriminate]. injection Ha as <-.
      specialize (IH (l0 :: ls0) eq_refl Hb).
      destruct rest1; [|discriminate]. injection IH as ->. reflexivity.
Qed.

(** One terminated line in front of a text of lines. *)
Lemma lines_cons (l s : string) (ls : list string) :
  mem newline l = false -> lines s = Some ls ->
  lines (l +:+ nl +:+ s) = Some (l :: ls).
Proof.
  unfold lines. intros Hl Hs. rewrite (split_lines_line l s Hl).
  destruct (split_lines s) as [ls0 rest0]. cbn [fst snd].
  destruct rest0; [|discriminate]. now injection Hs as <-.
Qed.

(** Texts as lists of characters, where the list library helps. *)
Abbreviation chars := list_ascii_of_string.

Lemma chars_app (a b : string) : chars (a +:+ b) = chars a ++ chars b.
Proof.
  induction a as [|x a IH]; [reflexivity|].
  rewrite app_cons. simpl. now rewrite IH.
Qed.

Lemma chars_inj (a b : string) : chars a = chars b -> a = b.
Proof.
  intros E. rewrite <- (string_of_list_ascii_of_string a),
    <- (string_of_list_ascii_of_string b). now rewrite E.
Qed.

(** The same prefix for every relative second part. *)
Lemma path_join_relative_prefix (a : string) :
  exists prefix, forall b, startswith "/" b = false ->
    chars (Py.path_join a b) = prefix ++ chars b.
Proof.
  destruct (String.eqb a EmptyString || endswith "/" a) eqn:E.
  - exists (chars a). intros b Hb. unfold Py.path_join.
    rewrite Hb, E. apply chars_app.
  - exists (chars a ++ ["/"%char]). intros b Hb. unfold Py.path_join.
    rewrite Hb, E, !chars_app. simpl. now rewrite <- List.app_assoc.
Qed.

End TextFacts.

(** ** The three paths of a trace *)

Module PathFacts.
Import Staging.
Import TextFacts.

(** Whatever the directory, the joined path ends with the file name. *)
Lemma path_join_suffix (a b : string) :
  exists prefix, chars (Py.path_join a b) = prefix ++ chars b.
Proof.
  unfold Py.path_join. destruct (Text.startswith "/" b).
  - now exists [].
  - destruct (_ || _).
    + exists (chars a). apply chars_app.
    + exists (chars a ++ ["/"%char]).
      rewrite !chars_app. simpl. now rewrite <- List.app_assoc.
Qed.

Lemma jsonl_path_last (dir t : string) :
  exists l, chars (jsonl_path dir t) = l ++ ["l"%char].
Proof.
  destruct (path_join_suffix dir (t +:+ ".jsonl")) as [pre E].
  exists (pre ++ chars t ++ chars ".json"). unfold jsonl_path. rewrite E.
  rewrite chars_app. simpl. now rewrite <- !List.app_assoc.
Qed.

Lemma snapshot_path_last (dir t : string) :
  exists l, chars (snapshot_path dir t) = l ++ ["n"%char].
Proof.
  destruct (path_join_suffix dir (t +:+ ".json")) as [pre E].
  exists (pre ++ chars t ++ chars ".jso"). unfold snapshot_path. rewrite E.
  rewrite chars_app. simpl. now rewrite <- !List.app_assoc.
Qed.

Lemma tracer_path_last (cwd : string) :
  exists l, chars (tracer_path cwd) = l ++ ["n"%char].
Proof.
  destruct (path_join_suffix cwd "tracer.json") as [pre E].
  exists (pre ++ chars "tracer.jso"). unfold tracer_path. rewrite E.
  simpl. now rewrite <- !List.app_assoc.
Qed.

(** The line-delimited file of a trace is neither a snapshot nor the
    inspection file. *)
Lemma jsonl_ne_snapshot (dir t dir' t' : string) :
  jsonl_path dir t <> snapshot_path dir' t'.
Proof.
  intros E. apply (f_equal chars) in E.
  destruct (jsonl_path_last dir t) as [l1 E1].
  destruct (snapshot_path_last dir' t') as [l2 E2].
  rewrite E1, E2 in E. apply app_inj_tail in E as [_ E]. discriminate.
Qed.

Lemma jsonl_ne_tracer (dir t cwd : string) :
  jsonl_path dir t <> tracer_path cwd.
Proof.
  intros E. apply (f_equal chars) in E.
  destruct (jsonl_path_last dir t) as [l1 E1].
  destruct (tracer_path_last cwd) as [l2 E2].
  rewrite E1, E2 in E. apply app_inj_tail in E as [_ E]. discriminate.
Qed.

Lemma otel_relative (t suffix : string) :
  otel_trace_id t = true -> Text.startswith "/" (t +:+ suffix) = false.
Proof.
  destruct t as [|c t]; [discriminate|]. simpl.
  destruct (Ascii.eqb_spec c "0"); [subst; reflexivity|].
  destruct c as [[] [] [] [] [] [] [] []]; try discriminate; congruence.
Qed.

Lemma all_hex_last (c : ascii) (s : string) :
  all_hex (String c s) = true ->
  exists l d, chars (String c s) = l ++ [d] /\ is_hex_digit d = true.
Proof.
  revert c. induction s as [|x s IH]; intros c H.
  - exists [], c. simpl in *. split; [reflexivity|].
    now apply andb_true_iff in H as [H _].
  - cbn [all_hex] in H. apply andb_true_iff in H as [_ H].
    destruct (IH x H) as (l & d & E & Hd).
    exists (c :: l), d. split; [|exact Hd].
    cbn [list_ascii_of_string] in *. now rewrite E.
Qed.

Lemma otel_last (t : string) :
  otel_trace_id t = true ->
  exists l d, chars t = l ++ [d] /\ is_hex_digit d = true.
Proof.
  intros H. unfold otel_trace_id in H.
  destruct t as [|c0 [|c1 [|c t]]]; try discriminate;
    try (destruct c0 as [[] [] [] [] [] [] [] []]; discriminate);
    try (destruct c0 as [[] [] [] [] [] [] [] []]; try discriminate;
         destruct c1 as [[] [] [] [] [] [] [] []]; discriminate).
  assert (Hx : all_hex (String c t) = true).
  { destruct c0 as [[] [] [] [] [] [] [] []]; try discriminate.
    destruct c1 as [[] [] [] [] [] [] [] []]; try discriminate. exact H. }
  destruct (all_hex_last c t Hx) as (l & d & E & Hd).
  exists (c0 :: c1 :: l), d. split; [|exact Hd].
  cbn [list_ascii_of_string] in *. now rewrite E.
Qed.

(** The snapshot of a trace is not the inspection file. *)
Lemma snapshot_ne_tracer (dir t cwd : string) :
  otel_trace_id t = true -> snapshot_path dir t <> tracer_path cwd.
Proof.
  intros Ht E. apply (f_equal chars) in E.
  destruct (path_join_suffix dir (t +:+ ".json")) as [p1 E1].
  destruct (path_join_suffix cwd "tracer.json") as [p2 E2].
  unfold snapshot_path, tracer_path in E. rewrite E1, E2, chars_app in E.
  change (chars "tracer.json") with (chars "tracer" ++ chars ".json") in E.
  rewrite !List.app_assoc in E. apply app_inv_tail in E.
  destruct (otel_last t Ht) as (l & d & Et & Hd). rewrite Et in E.
  change (chars "tracer") with (chars "trace" ++ ["r"%char]) in E.
  rewrite !List.app_assoc in E. apply app_inj_tail in E as [_ ->].
  discriminate.
Qed.

(** Distinct trace ids have distinct snapshots. *)
Lemma snapshot_path_inj (dir t1 t2 : string) :
  otel_trace_id t1 = true -> otel_trace_id t2 = true ->
  snapshot_path dir t1 = snapshot_path dir t2 -> t1 = t2.
Proof.
  intros H1 H2 E. apply (f_equal chars) in E.
  destruct (path_join_relative_prefix dir) as [pre Hpre].
  unfold snapshot_path in E.
  rewrite (Hpre _ (otel_relative t1 _ H1)) in E.
  rewrite (Hpre _ (otel_relative t2 _ H2)) in E.
  apply app_inv_head in E. rewrite !chars_app in E.
  apply app_inv_tail in E. now apply chars_inj.
Qed.

End PathFacts.

(** ** The reference codec meets the laws *)

Module ReferenceCodecFacts.
Import ReferenceCodec.
Import TextFacts.

Lemma dec_pos_enc (p : positive) (rest : string) :
  dec_pos (enc_pos p +:+ rest) = Some (p, rest).
Proof.
  induction p as [q IH|q IH|]; cbn [enc_pos]; rewrite app_cons;
    cbn [dec_pos]; [| |reflexivity]; rewrite IH; reflexivity.
Qed.

Lemma dec_N_enc (n : N) (rest : string) :
  dec_N (enc_N n +:+ rest) = Some (n, rest).
Proof.
  destruct n as [|p]; cbn [enc_N]; [reflexivity|].
  rewrite app_cons. cbn. now rewrite dec_pos_enc.
Qed.

Lemma dec_Z_enc (n : Z) (rest : string) :
  dec_Z (enc_Z n +:+ rest) = Some (n, rest).
Proof.
  destruct n as [|p|p]; cbn [enc_Z]; [reflexivity| |];
    rewrite app_cons; cbn; now rewrite dec_pos_enc.
Qed.

Lemma enc_ascii_app (c : ascii) (a rest : string) :
  enc_ascii c a +:+ rest = enc_ascii c (a +:+ rest).
Proof. destruct c. reflexivity. Qed.

Lemma dec_ascii_enc (c : ascii) (rest : string) :
  dec_ascii (enc_ascii c rest) = Some (c, rest).
Proof.
  destruct c as [b0 b1 b2 b3 b4 b5 b6 b7].
  destruct b0, b1, b2, b3, b4, b5, b6, b7; reflexivity.
Qed.

Lemma dec_chars_enc (s rest : string) :
  dec_chars (String.length s) (enc_chars s +:+ rest) = Some (s, rest).
Proof.
  induction s as [|c s IH]; [reflexivity|].
  cbn [enc_chars String.length dec_chars].
  now rewrite enc_ascii_app, dec_ascii_enc, IH.
Qed.

Lemma dec_string_enc (s rest : string) :
  dec_string (enc_string s +:+ rest) = Some (s, rest).
Proof.
  unfold dec_string, enc_string.
  rewrite app_assoc, dec_N_enc, Nat2N.id. apply dec_chars_enc.
Qed.

(** Items that are read back one by one are read back in a row. *)
Lemma dec_seq_enc {A : Type} (item : reader A) (write : A -> string)
    (l : list A) (rest : string) :
  Forall (fun x => forall r, item (write x +:+ r) = Some (x, r)) l ->
  dec_seq item (length l) (concat_map write l +:+ rest) = Some (l, rest).
Proof.
  induction 1 as [|x l Hx _ IH]; [reflexivity|].
  cbn [concat_map length dec_seq]. now rewrite app_assoc, Hx, IH.
Qed.

Lemma length_concat_map {A : Type} (write : A -> string) (l : list A) (x : A) :
  In x l -> String.length (write x) <= String.length (concat_map write l).
Proof.
  induction l as [|y l IH]; intros Hin; [destruct Hin|].
  cbn [concat_map]. rewrite length_app.
  destruct Hin as [->|Hin]; [lia|]. specialize (IH Hin). lia.
Qed.

(** Reading what was written gives the document and the text after
    it, with fuel for the length of what was written. *)
Lemma dec_enc (v : json) :
  forall (fuel : nat) (rest : string),
    String.length (enc v) <= fuel ->
    dec fuel (enc v +:+ rest) = Some (v, rest).
Proof.
  induction v as [|b|n|x|x|items IH|fields IH] using json_nested_ind;
    intros fuel rest Hfuel;
    (destruct fuel as [|f]; [destruct b || idtac; simpl in Hfuel; lia|]).
  - reflexivity.
  - destruct b; reflexivity.
  - cbn [enc]. rewrite app_cons. cbn. now rewrite dec_Z_enc.
  - cbn [enc]. rewrite app_cons. cbn. now rewrite dec_string_enc.
  - cbn [enc]. rewrite app_cons. cbn. now rewrite dec_string_enc.
  - cbn [enc] in *. rewrite app_cons, app_assoc. cbn [dec].
    cbn [Ascii.eqb Bool.eqb]. rewrite dec_N_enc, Nat2N.id.
    rewrite (dec_seq_enc (dec f) enc); [reflexivity|].
    cbn [String.length] in Hfuel. rewrite length_app in Hfuel.
    rewrite List.Forall_forall in IH |- *. intros x Hin r.
    apply IH; [exact Hin|].
    pose proof (length_concat_map enc items x Hin). lia.
  - cbn [enc] in *. rewrite app_cons, app_assoc. cbn [dec].
    cbn [Ascii.eqb Bool.eqb]. rewrite dec_N_enc, Nat2N.id.
    rewrite (dec_seq_enc (dec_field (dec f))
               (fun '(k, x) => enc_string k +:+ enc x)); [reflexivity|].
    cbn [String.length] in Hfuel. rewrite length_app in Hfuel.
    rewrite List.Forall_forall in IH |- *. intros [k x] Hin r.
    unfold dec_field. rewrite app_assoc, dec_string_enc.
    rewrite (IH (k, x) Hin); [reflexivity|].
    pose proof (length_concat_map
                  (fun '(k, x) => enc_string k +:+ enc x) fields (k, x) Hin)
      as Hlen.
    cbn beta iota in Hlen. rewrite length_app in Hlen. cbn [snd]. lia.
Qed.

Lemma loads_enc (v : json) : loads (enc v) = Some v.
Proof.
  unfold loads.
  rewrite <- (app_nil_r (enc v)) at 2.
  rewrite dec_enc by lia. reflexivity.
Qed.

Lemma one_line_app (a b : string) :
  one_line a -> one_line b -> one_line (a +:+ b).
Proof. unfold one_line. intros Ha Hb. now rewrite mem_app, Ha, Hb. Qed.

Lemma one_line_pos (p : positive) : one_line (enc_pos p).
Proof. induction p as [q IH|q IH|]; [exact IH|exact IH|reflexivity]. Qed.

Lemma one_line_N (n : N) : one_line (enc_N n).
Proof. destruct n as [|p]; [reflexivity|]. apply (one_line_pos p). Qed.

Lemma one_line_Z (n : Z) : one_line (enc_Z n).
Proof. destruct n as [|p|p]; [reflexivity| |]; apply (one_line_pos p). Qed.

Lemma one_line_ascii (c : ascii) (rest : string) :
  one_line rest -> one_line (enc_ascii c rest).
Proof.
  intros H. destruct c as [b0 b1 b2 b3 b4 b5 b6 b7].
  destruct b0, b1, b2, b3, b4, b5, b6, b7; exact H.
Qed.

Lemma one_line_chars (s : string) : one_line (enc_chars s).
Proof.
  induction s as [|c s IH]; [reflexivity|].
  now apply one_line_ascii.
Qed.

Lemma one_line_string (s : string) : one_line (enc_string s).
Proof. apply one_line_app; [apply one_line_N | apply one_line_chars]. Qed.

Lemma one_line_concat_map {A : Type} (write : A -> string) (l : list A) :
  Forall (fun x => one_line (write x)) l -> one_line (concat_map write l).
Proof.
  induction 1 as [|x l Hx _ IH]; [reflexivity|].
  now apply one_line_app.
Qed.

Lemma one_line_enc (v : json) : one_line (enc v).
Proof.
  induction v as [|b|n|x|x|items IH|fields IH] using json_nested_ind.
  - reflexivity.
  - destruct b; reflexivity.
  - apply (one_line_Z n).
  - apply (one_line_string x).
  - apply (one_line_string x).
  - apply (one_line_app (String "a" (enc_N _))); [apply one_line_N|].
    now apply one_line_concat_map.
  - apply (one_line_app (String "o" (enc_N _))); [apply one_line_N|].
    apply one_line_concat_map.
    eapply Forall_impl; [exact IH|]. intros [k x] Hx.
    apply one_line_app; [apply one_line_string | exact Hx].
Qed.

(** The reference codec; the indented form is written like the
    compact one. *)
Definition reference_codec : JsonCodec := {|
  json_dumps := enc;
  json_dumps_indent := enc;
  json_loads := loads;
  json_loads_dumps := loads_enc;
  json_dumps_one_line := one_line_enc
|}.

End ReferenceCodecFacts.

(** ** One export call *)

Module ExportFacts.
Import FileSpanExporter Staging.

Section Facts.

Context {codec : JsonCodec}.
Variable get_unique_key : json -> string.

Abbreviation export := (export get_unique_key).
Abbreviation envelope := (envelope get_unique_key).
Abbreviation enrich := (enrich get_unique_key).

(** Runs the plumbing of [M] and the attribute reads and writes. *)
Ltac run :=
  cbn [bind lift get_self get_world set_self set_world ret raise
       fst snd self world Py.add_str Py.setitem Py.append
       append_text write_text path_exists read_text _run_async
       set_filename set_metadata set_pipeline set_sync_file set_fs
       filename project_name session_id metadata pipeline dir_name
       sync_file raga_client upload_timeout
       fs cwd environ upload_attempts client_calls from_option id].

Lemma for_each_add_prompt_id (spans : list json) :
  forallb is_dict spans = true ->
  Py.for_each (add_prompt_id get_unique_key) spans =
    Ok (map (with_prompt_id get_unique_key) spans).
Proof.
  induction spans as [|t spans IH]; intros H; [reflexivity|].
  simpl in H. apply andb_true_iff in H as [Ht H].
  cbn [Py.for_each map]. rewrite (IH H).
  destruct t; try discriminate. reflexivity.
Qed.

(** What the upload leaves untouched: the instance and the files. *)
Lemma _upload_traces_frame (path : string) (st : State) :
  self (snd (_upload_traces path st)) = self st /\
  fs (world (snd (_upload_traces path st))) = fs (world st) /\
  environ (world (snd (_upload_traces path st))) = environ (world st) /\
  cwd (world (snd (_upload_traces path st))) = cwd (world st) /\
  upload_attempts (world (snd (_upload_traces path st))) =
    upload_attempts (world st) ++ [path].
Proof.
  destruct st as [e w]. unfold _upload_traces, bind, log_attempt,
    log_client_call, get_world, get_self, set_world, ret, raise.
  cbn [self world environ fs cwd upload_attempts add_attempt].
  destruct (environ w !! "RAGAAI_CATALYST_TOKEN") as [[|c tok]|];
    cbn; auto.
  destruct (raga_client e) as [client|]; cbn; auto.
  destruct (client _ _); cbn; auto.
  destruct (upload_timeout e); cbn; auto.
Qed.

(** *** The upload, case by case *)

Lemma upload_without_token (path : string) (e : Exporter) (w : World) :
  has_token w = false ->
  _upload_traces path {| self := e; world := w |} =
    (Raise (ValueError token_missing_msg),
     {| self := e; world := add_attempt path w |}).
Proof.
  unfold has_token, _upload_traces. intros H. run.
  unfold log_attempt. run. cbn [add_attempt environ].
  destruct (environ w !! "RAGAAI_CATALYST_TOKEN") as [[|c tok]|];
    try discriminate; reflexivity.
Qed.

Lemma upload_without_client (path : string) (e : Exporter) (w : World) :
  has_token w = true -> raga_client e = None ->
  exists status,
    _upload_traces path {| self := e; world := w |} =
      (Ok status, {| self := e; world := add_attempt path w |}).
Proof.
  unfold has_token, _upload_traces. intros H Hc. run.
  unfold log_attempt. run. cbn [add_attempt environ].
  destruct (environ w !! "RAGAAI_CATALYST_TOKEN") as [[|c tok]|];
    try discriminate; run; rewrite Hc; eauto.
Qed.

Lemma upload_with_client (path : string) (e : Exporter) (w : World)
    (client : RagaExporter) :
  has_token w = true -> raga_client e = Some client ->
  _upload_traces path {| self := e; world := w |} =
    (status_of e (client (length (client_calls w)) [path]),
     {| self := e; world := add_client_call [path] (add_attempt path w) |}).
Proof.
  unfold has_token, _upload_traces. intros H Hc. run.
  unfold log_attempt. run. cbn [add_attempt environ].
  destruct (environ w !! "RAGAAI_CATALYST_TOKEN") as [[|c tok]|];
    try discriminate; run; rewrite Hc; unfold log_client_call; run;
    cbn [add_attempt client_calls];
    (destruct (client _ _) as [[]| |msg]; cbn [status_of]; run;
     [reflexivity|reflexivity| |reflexivity]);
    destruct (upload_timeout e); reflexivity.
Qed.

(** *** The staged files *)

Lemma staged_snapshot (dir cwd t : string) (x : json) (prev : list json)
    (files : gmap string string) :
  staged dir cwd t x prev files !! snapshot_path dir t =
    Some (json_dumps (JArr (prev ++ [x]))).
Proof. unfold staged. apply lookup_insert_eq. Qed.

Lemma staged_tracer (dir cwd t : string) (x : json) (prev : list json)
    (files : gmap string string) :
  snapshot_path dir t <> tracer_path cwd ->
  staged dir cwd t x prev files !! tracer_path cwd =
    Some (json_dumps_indent x).
Proof.
  intros H. unfold staged.
  rewrite lookup_insert_ne by exact H. apply lookup_insert_eq.
Qed.

Lemma staged_jsonl (dir cwd t : string) (x : json) (prev : list json)
    (files : gmap string string) :
  staged dir cwd t x prev files !! jsonl_path dir t =
    Some (default EmptyString (files !! jsonl_path dir t)
          +:+ json_dumps x +:+ Text.nl).
Proof.
  unfold staged.
  rewrite lookup_insert_ne
    by (intros E; exact (PathFacts.jsonl_ne_snapshot _ _ _ _ (eq_sym E))).
  rewrite lookup_insert_ne
    by (intros E; exact (PathFacts.jsonl_ne_tracer _ _ _ (eq_sym E))).
  apply lookup_insert_eq.
Qed.

Lemma staged_other (dir cwd t : string) (x : json) (prev : list json)
    (files : gmap string string) (path : string) :
  path <> snapshot_path dir t -> path <> tracer_path cwd ->
  path <> jsonl_path dir t ->
  staged dir cwd t x prev files !! path = files !! path.
Proof.
  intros H1 H2 H3. unfold staged.
  rewrite !lookup_insert_ne by congruence. reflexivity.
Qed.

(** A call on a well-formed batch: the three files are staged, and
    when the snapshot is new the path held by [sync_file] goes to
    [_upload_traces] before [sync_file] takes the new path. *)
Lemma export_staged (e : Exporter) (w : World) (t : string)
    (spans prev : list json) :
  batch_for t spans ->
  is_dict (metadata e) = true -> is_dict (pipeline e) = true ->
  snapshot_path (dir_name e) t <> tracer_path (cwd w) ->
  snapshot_items (fs w !! snapshot_path (dir_name e) t) = Some prev ->
  let export_data := envelope e t spans in
  let st1 :=
    {| self := enrich e t;
       world := set_fs (staged (dir_name e) (cwd w) t export_data prev (fs w)) w |} in
  export spans {| self := e; world := w |} =
    match fs w !! snapshot_path (dir_name e) t with
    | Some _ => (Ok tt, st1)
    | None =>
        match sync_file e with
        | None =>
            (Ok tt, {| self := set_sync_file (snapshot_path (dir_name e) t) (self st1);
                       world := world st1 |})
        | Some previous =>
            match _upload_traces previous st1 with
            | (Ok _, st2) =>
                (Ok tt, {| self := set_sync_file (snapshot_path (dir_name e) t) (self st2);
                           world := world st2 |})
            | (Raise x, st2) => (Raise x, st2)
            end
        end
    end.
Proof.
  intros [Ht Hd] Hm Hp Hne Hprev.
  destruct spans as [|t0 spans0]; [discriminate|].
  unfold trace_id_of in Ht.
  destruct (Py.getitem t0 "context") as [context|] eqn:Hc; [|discriminate].
  destruct (Py.getitem context "trace_id") as [[]|] eqn:Hi; try discriminate.
  injection Ht as ->.
  destruct e as [pn sid md pl sf dn rc fn ut].
  cbn [metadata pipeline dir_name sync_file] in *.
  destruct md as [| | | | | |md]; try discriminate.
  destruct pl as [| | | | | |pl]; try discriminate.
  unfold FileSpanExporter.export.
  cbn [bind lift Py.first]. rewrite Hc. cbn [bind lift]. rewrite Hi.
  run. rewrite (for_each_add_prompt_id _ Hd). run.
  change (Py.path_join dn (t +:+ ".json")) with (snapshot_path dn t).
  change (Py.path_join dn (t +:+ ".jsonl")) with (jsonl_path dn t).
  change (Py.path_join (cwd w) "tracer.json") with (tracer_path (cwd w)).
  rewrite lookup_insert_ne by (intros E; apply Hne; now rewrite E).
  rewrite lookup_insert_ne by apply PathFacts.jsonl_ne_snapshot.
  unfold snapshot_items in Hprev.
  destruct (fs w !! snapshot_path dn t) as [text|] eqn:Hfile.
  - rewrite bool_decide_eq_true_2 by eauto.
    unfold read_text, bind at 1 2. run.
    rewrite lookup_insert_ne by (intros E; apply Hne; now rewrite E).
    rewrite lookup_insert_ne by apply PathFacts.jsonl_ne_snapshot.
    rewrite Hfile. run.
    destruct (json_loads text) as [[]|]; try discriminate.
    injection Hprev as ->. run. reflexivity.
  - rewrite bool_decide_eq_false_2 by (intros [? ?]; discriminate).
    injection Hprev as <-. run.
    destruct sf as [previous|]; run.
    + unfold bind, _run_async, ret, set_self.
      unfold Staging.enrich, Staging.envelope, staged. run.
      destruct (_upload_traces previous _) as [[r|x] st2]; reflexivity.
    + reflexivity.
Qed.

(** Whatever becomes of the snapshot and of the upload, a call on a
    well-formed batch has appended its line, and has left the
    instance as the assignments of the call make it, [sync_file]
    apart. *)
Lemma export_appends_line (e : Exporter) (w : World) (t : string)
    (spans : list json) :
  batch_for t spans ->
  is_dict (metadata e) = true -> is_dict (pipeline e) = true ->
  exists r e' w',
    export spans {| self := e; world := w |} =
      (r, {| self := e'; world := w' |}) /\
    agree e' (enrich e t) /\
    cwd w' = cwd w /\
    environ w' = environ w /\
    fs w' !! jsonl_path (dir_name e) t =
      Some (default EmptyString (fs w !! jsonl_path (dir_name e) t)
            +:+ json_dumps (envelope e t spans) +:+ Text.nl).
Proof.
  intros [Ht Hd] Hm Hp.
  destruct spans as [|t0 spans0]; [discriminate|].
  unfold trace_id_of in Ht.
  destruct (Py.getitem t0 "context") as [context|] eqn:Hc; [|discriminate].
  destruct (Py.getitem context "trace_id") as [[]|] eqn:Hi; try discriminate.
  injection Ht as ->.
  destruct e as [pn sid md pl sf dn rc fn ut].
  cbn [metadata pipeline dir_name sync_file] in *.
  destruct md as [| | | | | |md]; try discriminate.
  destruct pl as [| | | | | |pl]; try discriminate.
  unfold FileSpanExporter.export.
  cbn [bind lift Py.first]. rewrite Hc. cbn [bind lift]. rewrite Hi.
  run. rewrite (for_each_add_prompt_id _ Hd). run.
  change (Py.path_join dn (t +:+ ".json")) with (snapshot_path dn t).
  change (Py.path_join dn (t +:+ ".jsonl")) with (jsonl_path dn t).
  change (Py.path_join (cwd w) "tracer.json") with (tracer_path (cwd w)).
  unfold agree, Staging.enrich, Staging.envelope.
  assert (Hj1 : forall (x y : string) (m : gmap string string),
             <[snapshot_path dn t := x]> (<[tracer_path (cwd w) := y]> m)
               !! jsonl_path dn t = m !! jsonl_path dn t).
  { intros x y m.
    rewrite lookup_insert_ne
      by (intros E; exact (PathFacts.jsonl_ne_snapshot _ _ _ _ (eq_sym E))).
    now rewrite lookup_insert_ne
      by (intros E; exact (PathFacts.jsonl_ne_tracer _ _ _ (eq_sym E))). }
  assert (Hj2 : forall (y : string) (m : gmap string string),
             <[tracer_path (cwd w) := y]> m !! jsonl_path dn t
             = m !! jsonl_path dn t).
  { intros y m.
    now rewrite lookup_insert_ne
      by (intros E; exact (PathFacts.jsonl_ne_tracer _ _ _ (eq_sym E))). }
  assert (Hj0 : forall (z : string) (m : gmap string string),
             <[jsonl_path dn t := z]> m !! jsonl_path dn t = Some z).
  { intros z m. apply lookup_insert_eq. }
  destruct (bool_decide _).
  - unfold read_text, bind at 1 2. run.
    destruct (_ !! snapshot_path dn t) as [text|]; run.
    + destruct (json_loads text) as [data|]; run.
      * destruct data; run.
        all: do 3 eexists; (split; [reflexivity|]); run.
        all: rewrite ?Hj1, ?Hj2, Hj0; repeat split; reflexivity.
      * do 3 eexists; (split; [reflexivity|]); run.
        rewrite ?Hj1, ?Hj2, Hj0; repeat split; reflexivity.
    + do 3 eexists; (split; [reflexivity|]); run.
      rewrite ?Hj1, ?Hj2, Hj0; repeat split; reflexivity.
  - run. destruct sf as [previous|]; run.
    + unfold bind, _run_async, ret, set_self.
      match goal with
      | |- context [_upload_traces previous ?st] =>
          pose proof (_upload_traces_frame previous st) as (F1 & F2 & F3 & F4 & _);
          destruct (_upload_traces previous st) as [[r|x] [e2 w2]]
      end; cbn [snd self world] in *; subst e2.
      all: do 3 eexists; (split; [reflexivity|]); run.
      all: rewrite F2, F3, F4; run.
      all: rewrite ?Hj1, ?Hj2, Hj0; repeat split; reflexivity.
    + do 3 eexists; (split; [reflexivity|]); run.
      rewrite ?Hj1, ?Hj2, Hj0; repeat split; reflexivity.
Qed.

(** A call on a batch that is not well-formed, or on an instance
    whose [metadata] or [pipeline] is no [dict], raises before it
    touches the process. *)
Lemma export_rejects (e : Exporter) (w : World) (spans : list json) :
  (forall t, ~ batch_for t spans) \/
  is_dict (metadata e) = false \/ is_dict (pipeline e) = false ->
  exists x e',
    export spans {| self := e; world := w |} =
      (Raise x, {| self := e'; world := w |}).
Proof.
  intros H. unfold FileSpanExporter.export.
  destruct spans as [|t0 spans0]; [cbn; eauto|].
  cbn [bind lift Py.first].
  destruct (Py.getitem t0 "context") as [context|] eqn:Hc; [|cbn; eauto].
  cbn [bind lift].
  destruct (Py.getitem context "trace_id") as [tid|] eqn:Hi; [|cbn; eauto].
  run. destruct tid as [| | | |t| |]; run; eauto.
  destruct e as [pn sid md pl sf dn rc fn ut]. run.
  cbn [metadata pipeline] in H.
  destruct md as [| | | | | |md]; run; eauto.
  destruct pl as [| | | | | |pl]; run; eauto.
  destruct (Py.for_each (add_prompt_id get_unique_key) (t0 :: spans0))
    as [ts|x] eqn:Hf; run; eauto.
  exfalso. destruct H as [H|[H|H]]; try discriminate.
  apply (H t). split; [unfold trace_id_of; now rewrite Hc, Hi|].
  clear -Hf. revert ts Hf.
  generalize (t0 :: spans0) as l.
  induction l as [|a l IH]; intros ts Hf; [reflexivity|].
  cbn [Py.for_each] in Hf. cbn [forallb].
  destruct a; try discriminate. cbn [add_prompt_id Py.setitem] in Hf.
  unfold add_prompt_id in Hf. cbn [Py.setitem] in Hf.
  destruct (Py.for_each _ l) as [ys|]; [|discriminate].
  now rewrite (IH ys eq_refl).
Qed.

(** *** Instances that compose the same envelopes *)

Lemma agree_refl (e : Exporter) : agree e e.
Proof. repeat split. Qed.

Lemma agree_envelope (e1 e2 : Exporter) (t : string) (spans : list json) :
  agree e1 e2 -> envelope e1 t spans = envelope e2 t spans.
Proof.
  intros (H1 & H2 & H3 & H4 & _). unfold Staging.envelope.
  now rewrite H1, H2, H3, H4.
Qed.

Lemma agree_enrich (e1 e2 : Exporter) (t : string) :
  agree e1 e2 -> agree (enrich e1 t) (enrich e2 t).
Proof.
  intros (H1 & H2 & H3 & H4 & H5). unfold agree, Staging.enrich.
  cbn [set_pipeline set_metadata set_filename project_name session_id
       metadata pipeline dir_name].
  now rewrite H1, H2, H3, H4, H5.
Qed.

Lemma agree_envelopes (batches : list (list json)) (e1 e2 : Exporter)
    (t : string) :
  agree e1 e2 ->
  envelopes get_unique_key e1 t batches = envelopes get_unique_key e2 t batches.
Proof.
  revert e1 e2. induction batches as [|spans rest IH]; intros e1 e2 H;
    [reflexivity|].
  cbn [envelopes]. rewrite (agree_envelope e1 e2 t spans H).
  f_equal. apply IH. now apply agree_enrich.
Qed.

Lemma with_id_is_dict (v : json) :
  is_dict v = true -> is_dict (with_id get_unique_key v) = true.
Proof. destruct v; try discriminate. reflexivity. Qed.

Lemma agree_dicts (e1 e : Exporter) (t : string) :
  agree e1 (enrich e t) ->
  is_dict (metadata e) = true -> is_dict (pipeline e) = true ->
  is_dict (metadata e1) = true /\ is_dict (pipeline e1) = true /\
  dir_name e1 = dir_name e.
Proof.
  intros (_ & _ & H3 & H4 & H5) Hm Hp. rewrite H3, H4, H5.
  unfold Staging.enrich.
  cbn [set_pipeline set_metadata set_filename metadata pipeline dir_name].
  auto using with_id_is_dict.
Qed.

(** Whatever becomes of the upload, a call on a well-formed batch
    whose snapshot is not the inspection file leaves the three
    files staged. *)
Lemma export_stages (e : Exporter) (w : World) (t : string)
    (spans prev : list json) :
  batch_for t spans ->
  is_dict (metadata e) = true -> is_dict (pipeline e) = true ->
  snapshot_path (dir_name e) t <> tracer_path (cwd w) ->
  snapshot_items (fs w !! snapshot_path (dir_name e) t) = Some prev ->
  exists r e' w',
    export spans {| self := e; world := w |} =
      (r, {| self := e'; world := w' |}) /\
    agree e' (enrich e t) /\
    cwd w' = cwd w /\
    fs w' = staged (dir_name e) (cwd w) t (envelope e t spans) prev (fs w).
Proof.
  intros Hb Hm Hp Hne Hprev.
  rewrite (export_staged e w t spans prev Hb Hm Hp Hne Hprev).
  destruct (fs w !! snapshot_path (dir_name e) t).
  - do 3 eexists. split; [reflexivity|].
    split; [apply agree_refl|]. split; reflexivity.
  - destruct (sync_file e) as [previous|].
    + match goal with
      | |- context [_upload_traces previous ?st] =>
          pose proof (_upload_traces_frame previous st) as (F1 & F2 & _ & F4 & _);
          destruct (_upload_traces previous st) as [[r|x] [e2 w2]]
      end; cbn [snd self world set_fs fs cwd] in *; subst e2;
        do 3 eexists; (split; [reflexivity|]);
        (split; [repeat split|]); split; assumption.
    + do 3 eexists. split; [reflexivity|].
      split; [repeat split|]. split; reflexivity.
Qed.

(** *** Upload failure *)

(** C2.  With the credential set and a client that raises an
    exception other than a timeout on every call, a call on any
    well-formed batch returns normally, and the line-delimited
    file, the inspection file and the snapshot hold what the call
    wrote: the line appended, the envelope, and the array with the
    envelope as its last item. *)
Theorem upload_failure_is_not_fatal
    (e : Exporter) (w : World) (t : string) (spans prev : list json)
    (client : RagaExporter) :
  batch_for t spans ->
  is_dict (metadata e) = true -> is_dict (pipeline e) = true ->
  otel_trace_id t = true ->
  snapshot_items (fs w !! snapshot_path (dir_name e) t) = Some prev ->
  has_token w = true ->
  raga_client e = Some client ->
  (forall n paths, exists str_e, client n paths = RaisesOther str_e) ->
  let export_data := envelope e t spans in
  exists st,
    export spans {| self := e; world := w |} = (Ok tt, st) /\
    fs (world st) !! jsonl_path (dir_name e) t =
      Some (default EmptyString (fs w !! jsonl_path (dir_name e) t)
            +:+ json_dumps export_data +:+ Text.nl) /\
    fs (world st) !! tracer_path (cwd w) =
      Some (json_dumps_indent export_data) /\
    fs (world st) !! snapshot_path (dir_name e) t =
      Some (json_dumps (JArr (prev ++ [export_data]))).
Proof.
  intros Hb Hm Hp Ht Hprev Htok Hc Hraise export_data.
  pose proof (PathFacts.snapshot_ne_tracer (dir_name e) t (cwd w) Ht) as Hne.
  rewrite (export_staged e w t spans prev Hb Hm Hp Hne Hprev).
  assert (Hfiles : forall files : gmap string string,
             files = staged (dir_name e) (cwd w) t export_data prev (fs w) ->
             files !! jsonl_path (dir_name e) t =
               Some (default EmptyString (fs w !! jsonl_path (dir_name e) t)
                     +:+ json_dumps export_data +:+ Text.nl) /\
             files !! tracer_path (cwd w) =
               Some (json_dumps_indent export_data) /\
             files !! snapshot_path (dir_name e) t =
               Some (json_dumps (JArr (prev ++ [export_data])))).
  { intros files ->.
    rewrite staged_jsonl, staged_tracer, staged_snapshot by exact Hne.
    repeat split. }
  destruct (fs w !! snapshot_path (dir_name e) t).
  - eexists. split; [reflexivity|]. now apply Hfiles.
  - destruct (sync_file e) as [previous|].
    + rewrite (upload_with_client _ _ _ client) by assumption.
      destruct (Hraise (length (client_calls
                  (set_fs (staged (dir_name e) (cwd w) t
                             (envelope e t spans) prev (fs w)) w)))
                  [previous]) as [msg ->].
      cbn [status_of]. eexists. split; [reflexivity|]. now apply Hfiles.
    + eexists. split; [reflexivity|]. now apply Hfiles.
Qed.

(** *** Empty batch *)

(** C6.  A call with no spans raises ([IndexError], from
    [traces_list[0]]) and leaves the instance and the process,
    hence every file, as they were. *)
Theorem export_empty_batch_raises (st : State) :
  export [] st = (Raise IndexError, st).
Proof. reflexivity. Qed.

(** *** Missing credential *)

(** C8.  When a call opens a new snapshot while [sync_file] holds a
    path and the credential is not set, the call raises the
    [ValueError] of [_upload_traces]; the upload was attempted, the
    client was not reached, and the line-delimited file, the
    inspection file and the snapshot hold what this call wrote. *)
Theorem missing_credential_raises_after_staging
    (e : Exporter) (w : World) (t previous : string) (spans : list json) :
  batch_for t spans ->
  is_dict (metadata e) = true -> is_dict (pipeline e) = true ->
  otel_trace_id t = true ->
  sync_file e = Some previous ->
  fs w !! snapshot_path (dir_name e) t = None ->
  environ w !! "RAGAAI_CATALYST_TOKEN" = None ->
  let export_data := envelope e t spans in
  exists st,
    export spans {| self := e; world := w |} =
      (Raise (ValueError token_missing_msg), st) /\
    fs (world st) !! jsonl_path (dir_name e) t =
      Some (default EmptyString (fs w !! jsonl_path (dir_name e) t)
            +:+ json_dumps export_data +:+ Text.nl) /\
    fs (world st) !! tracer_path (cwd w) =
      Some (json_dumps_indent export_data) /\
    fs (world st) !! snapshot_path (dir_name e) t =
      Some (json_dumps (JArr [export_data])) /\
    upload_attempts (world st) = upload_attempts w ++ [previous] /\
    client_calls (world st) = client_calls w.
Proof.
  intros Hb Hm Hp Ht Hs Hf Henv export_data.
  pose proof (PathFacts.snapshot_ne_tracer (dir_name e) t (cwd w) Ht) as Hne.
  rewrite (export_staged e w t spans [] Hb Hm Hp Hne)
    by (now rewrite Hf).
  rewrite Hf, Hs.
  rewrite upload_without_token
    by (unfold has_token; cbn [world set_fs environ]; now rewrite Henv).
  eexists. split; [reflexivity|].
  cbn [world add_attempt set_fs fs upload_attempts client_calls].
  rewrite staged_jsonl, staged_tracer, staged_snapshot by exact Hne.
  repeat split; reflexivity.
Qed.

(** *** The cursor after an upload attempt *)

(** C3, as the code has it.  A call opens a new snapshot while
    [sync_file] holds a path.  If the credential is set and the
    client returns or raises something other than a timeout (or
    there is no client), the call returns and [sync_file] holds the
    new snapshot path.  If the credential is not set, the call
    raises and [sync_file] still holds the path it held. *)
Theorem cursor_after_upload_attempt
    (e : Exporter) (w : World) (t previous : string) (spans : list json) :
  batch_for t spans ->
  is_dict (metadata e) = true -> is_dict (pipeline e) = true ->
  otel_trace_id t = true ->
  sync_file e = Some previous ->
  fs w !! snapshot_path (dir_name e) t = None ->
  let r := fst (export spans {| self := e; world := w |}) in
  let e' := self (snd (export spans {| self := e; world := w |})) in
  (has_token w = true ->
   (forall client, raga_client e = Some client ->
      client (length (client_calls w)) [previous] <> RaisesTimeout) ->
   r = Ok tt /\ sync_file e' = Some (snapshot_path (dir_name e) t)) /\
  (has_token w = false ->
   r = Raise (ValueError token_missing_msg) /\ sync_file e' = Some previous).
Proof.
  intros Hb Hm Hp Ht Hs Hf r e'. subst r e'.
  pose proof (PathFacts.snapshot_ne_tracer (dir_name e) t (cwd w) Ht) as Hne.
  rewrite (export_staged e w t spans [] Hb Hm Hp Hne)
    by (now rewrite Hf).
  rewrite Hf, Hs. split.
  - intros Htok Hclient.
    destruct (raga_client e) as [client|] eqn:Hc.
    + rewrite (upload_with_client _ _ _ client) by assumption.
      cbn [world set_fs client_calls raga_client].
      specialize (Hclient client eq_refl).
      destruct (client _ _) as [b| |msg]; [| congruence |];
        cbn [status_of fst snd self]; split; reflexivity.
    + destruct (upload_without_client previous (enrich e t)
                  (set_fs (staged (dir_name e) (cwd w) t
                             (envelope e t spans) [] (fs w)) w))
        as [status ->]; [exact Htok|exact Hc|].
      split; reflexivity.
  - intros Htok. rewrite upload_without_token by exact Htok.
    cbn [fst snd self]. split; [reflexivity|].
    unfold Staging.enrich. cbn [set_pipeline set_metadata set_filename sync_file].
    exact Hs.
Qed.

(** *** A timeout of the transfer *)

(** C7, at the failing input.  On an instance as [__init__] builds
    it, a client call that ends in [asyncio.TimeoutError] makes
    [_upload_traces] raise [AttributeError] for [upload_timeout],
    the attribute its handler reads and no method assigns. *)
Theorem upload_timeout_handler_raises
    (project_name : json) (session_id : option string)
    (metadata pipeline : json) (client : RagaExporter)
    (uuid4 tempdir path : string) (w : World) :
  has_token w = true ->
  client (length (client_calls w)) [path] = RaisesTimeout ->
  fst (_upload_traces path
         {| self := __init__ project_name session_id metadata pipeline
                      (Some client) uuid4 tempdir;
            world := w |}) =
    Raise (AttributeError "upload_timeout").
Proof.
  intros Htok Hclient.
  rewrite (upload_with_client _ _ _ client) by (exact Htok || reflexivity).
  cbn [fst]. rewrite Hclient. reflexivity.
Qed.

(** Where a caller has set [upload_timeout] on the instance, the
    handler returns the status with that duration. *)
Lemma upload_timeout_status (e : Exporter) (w : World)
    (client : RagaExporter) (path : string) (seconds : Z) :
  has_token w = true -> raga_client e = Some client ->
  upload_timeout e = Some seconds ->
  client (length (client_calls w)) [path] = RaisesTimeout ->
  fst (_upload_traces path {| self := e; world := w |}) =
    Ok ("Upload timed out after " +:+ pretty seconds +:+ " seconds").
Proof.
  intros Htok Hc Hs Hclient.
  rewrite (upload_with_client _ _ _ client) by assumption.
  cbn [fst]. rewrite Hclient. cbn [status_of]. now rewrite Hs.
Qed.

(** *** The envelope *)

Lemma dict_get_set (k : string) (v : json) (d : list (string * json)) :
  Py.dict_get k (Py.dict_set k v d) = Some v.
Proof.
  induction d as [|[k' v'] d IH]; cbn [Py.dict_set Py.dict_get].
  - now rewrite String.eqb_refl.
  - destruct (String.eqb k' k) eqn:E; cbn [Py.dict_get].
    + now rewrite String.eqb_refl.
    + now rewrite E.
Qed.

Lemma dict_get_set_other (k k' : string) (v : json) (d : list (string * json)) :
  k' <> k -> Py.dict_get k' (Py.dict_set k v d) = Py.dict_get k' d.
Proof.
  intros Hne. induction d as [|[k0 v0] d IH]; cbn [Py.dict_set Py.dict_get].
  - destruct (String.eqb_spec k k'); [congruence | reflexivity].
  - destruct (String.eqb_spec k0 k) as [->|Hk]; cbn [Py.dict_get].
    + destruct (String.eqb_spec k k'); [congruence|]. reflexivity.
    + destruct (String.eqb_spec k0 k'); [reflexivity | exact IH].
Qed.

Lemma with_id_carries (v : json) :
  is_dict v = true -> carries "id" (with_id get_unique_key v).
Proof.
  destruct v as [| | | | | |d]; try discriminate. intros _.
  exists (Py.dict_set "id" (JStr (get_unique_key (JObj d))) d),
    (get_unique_key (JObj d)).
  split; [reflexivity | apply dict_get_set].
Qed.

Lemma with_prompt_id_carries (spans : list json) :
  forallb is_dict spans = true ->
  Forall (carries "prompt_id") (map (with_prompt_id get_unique_key) spans).
Proof.
  induction spans as [|x spans IH]; intros H; [constructor|].
  cbn [forallb] in H. apply andb_true_iff in H as [Hx H].
  cbn [map]. constructor; [|exact (IH H)].
  destruct x as [| | | | | |d]; try discriminate.
  exists (Py.dict_set "prompt_id" (JStr (get_unique_key (JObj d))) d),
    (get_unique_key (JObj d)).
  split; [reflexivity | apply dict_get_set].
Qed.

Lemma with_id_keyed (v : json) :
  is_dict v = true ->
  keyed "id" (get_unique_key v) v (with_id get_unique_key v).
Proof.
  destruct v as [| | | | | |d]; try discriminate. intros _.
  exists d, (Py.dict_set "id" (JStr (get_unique_key (JObj d))) d).
  split; [reflexivity|]. split; [reflexivity|].
  split; [apply dict_get_set|]. intros k' Hk. now apply dict_get_set_other.
Qed.

Lemma with_prompt_id_keyed (spans : list json) :
  forallb is_dict spans = true ->
  Forall2 (fun span doc => keyed "prompt_id" (get_unique_key span) span doc)
    spans (map (with_prompt_id get_unique_key) spans).
Proof.
  induction spans as [|x spans IH]; intros H; [constructor|].
  cbn [forallb] in H. apply andb_true_iff in H as [Hx H].
  cbn [map]. constructor; [|exact (IH H)].
  destruct x as [| | | | | |d]; try discriminate.
  exists d, (Py.dict_set "prompt_id" (JStr (get_unique_key (JObj d))) d).
  split; [reflexivity|]. split; [reflexivity|].
  split; [apply dict_get_set|]. intros k' Hk. now apply dict_get_set_other.
Qed.

(** C9.  A call on a batch of span documents whose first names
    a trace id, on an instance whose [metadata] and [pipeline] are
    [dict]s, composes an envelope and appends it, as one line, to
    the line-delimited file of that trace id, however the call ends
    after that.  The envelope has exactly the fields [project_name],
    [trace_id], [session_id], [traces], [metadata] and [pipeline];
    [trace_id] is the trace id of the first span; [metadata] and
    [pipeline] are those of the instance with the computed [id]
    set; [traces] holds the span documents of the batch, one per
    span and in their order, each with its computed [prompt_id] set
    and nothing else changed.  Any other call raises before it
    composes an envelope or writes anything. *)
Theorem envelope_shape (e : Exporter) (w : World) (spans : list json) :
  (forall t,
     batch_for t spans ->
     is_dict (metadata e) = true -> is_dict (pipeline e) = true ->
     exists r e' w' traces m p,
       export spans {| self := e; world := w |} =
         (r, {| self := e'; world := w' |}) /\
       fs w' !! jsonl_path (dir_name e) t =
         Some (default EmptyString (fs w !! jsonl_path (dir_name e) t)
               +:+ json_dumps
                     (JObj [ ("project_name", project_name e);
                             ("trace_id", JStr t);
                             ("session_id", JStr (session_id e));
                             ("traces", JArr traces);
                             ("metadata", m);
                             ("pipeline", p) ])
               +:+ Text.nl) /\
       trace_id_of spans = Some t /\
       keyed "id" (get_unique_key (metadata e)) (metadata e) m /\
       keyed "id" (get_unique_key (pipeline e)) (pipeline e) p /\
       Forall2
         (fun span doc => keyed "prompt_id" (get_unique_key span) span doc)
         spans traces) /\
  ((forall t, ~ batch_for t spans) \/
   is_dict (metadata e) = false \/ is_dict (pipeline e) = false ->
   exists x e',
     export spans {| self := e; world := w |} =
       (Raise x, {| self := e'; world := w |})).
Proof.
  split.
  - intros t Hb Hm Hp.
    destruct (export_appends_line e w t spans Hb Hm Hp)
      as (r & e' & w' & Hrun & _ & _ & _ & Hline).
    exists r, e', w', (map (with_prompt_id get_unique_key) spans),
      (with_id get_unique_key (metadata e)),
      (with_id get_unique_key (pipeline e)).
    split; [exact Hrun|]. split; [exact Hline|].
    destruct Hb as [Ht Hd]. split; [exact Ht|].
    split; [now apply with_id_keyed|].
    split; [now apply with_id_keyed|].
    now apply with_prompt_id_keyed.
  - apply export_rejects.
Qed.

(** *** Calls for one trace *)

Lemma envelopes_length (batches : list (list json)) (e : Exporter) (t : string) :
  length (envelopes get_unique_key e t batches) = length batches.
Proof.
  revert e. induction batches as [|b rest IH]; intros e; [reflexivity|].
  cbn [envelopes length]. now rewrite IH.
Qed.

Lemma envelopes_are_envelopes (batches : list (list json)) (e : Exporter)
    (t : string) :
  Forall (is_envelope t) (envelopes get_unique_key e t batches).
Proof.
  revert e. induction batches as [|b rest IH]; intros e; [constructor|].
  cbn [envelopes]. constructor; [|apply IH].
  unfold is_envelope, Staging.envelope. eauto 6.
Qed.

(** The envelopes come in the order of the calls: each holds the
    span documents of its own batch. *)
Lemma envelopes_in_call_order (batches : list (list json)) (e : Exporter)
    (t : string) :
  Forall2
    (fun x spans =>
       Py.getitem x "traces" =
         Ok (JArr (map (with_prompt_id get_unique_key) spans)))
    (envelopes get_unique_key e t batches) batches.
Proof.
  revert e. induction batches as [|b rest IH]; intros e; [constructor|].
  cbn [envelopes]. constructor; [reflexivity | apply IH].
Qed.

Lemma lines_of_lines_text (xs : list json) :
  Text.lines (lines_text xs) = Some (map json_dumps xs).
Proof.
  induction xs as [|x xs IH]; [reflexivity|].
  cbn [lines_text map].
  apply TextFacts.lines_cons; [apply json_dumps_one_line | exact IH].
Qed.

(** After calls for one trace, the snapshot holds what it held and
    then the envelopes of the calls. *)
Lemma snapshot_after_exports (t : string) (batches : list (list json)) :
  otel_trace_id t = true ->
  forall (e : Exporter) (w : World) (prev : list json),
    Forall (batch_for t) batches ->
    is_dict (metadata e) = true -> is_dict (pipeline e) = true ->
    snapshot_items (fs w !! snapshot_path (dir_name e) t) = Some prev ->
    exists rs e' w',
      exports get_unique_key batches {| self := e; world := w |} =
        (rs, {| self := e'; world := w' |}) /\
      length rs = length batches /\
      snapshot_items (fs w' !! snapshot_path (dir_name e) t) =
        Some (prev ++ envelopes get_unique_key e t batches) /\
      (batches <> [] ->
       fs w' !! snapshot_path (dir_name e) t =
         Some (json_dumps
                 (JArr (prev ++ envelopes get_unique_key e t batches)))).
Proof.
  intros Ht. induction batches as [|spans rest IH];
    intros e w prev Hall Hm Hp Hprev.
  - exists [], e, w. cbn [exports envelopes]. rewrite List.app_nil_r.
    repeat split; [exact Hprev | congruence].
  - apply Forall_cons in Hall as [Hb Hall].
    pose proof (PathFacts.snapshot_ne_tracer (dir_name e) t (cwd w) Ht) as Hne.
    destruct (export_stages e w t spans prev Hb Hm Hp Hne Hprev)
      as (r & e1 & w1 & Hrun & Hag & Hcwd & Hfs).
    destruct (agree_dicts e1 e t Hag Hm Hp) as (Hm1 & Hp1 & Hdir).
    assert (Hsnap : fs w1 !! snapshot_path (dir_name e1) t =
              Some (json_dumps (JArr (prev ++ [envelope e t spans])))).
    { rewrite Hdir, Hfs. apply staged_snapshot. }
    assert (Hprev1 : snapshot_items (fs w1 !! snapshot_path (dir_name e1) t)
              = Some (prev ++ [envelope e t spans])).
    { rewrite Hsnap. unfold snapshot_items. now rewrite json_loads_dumps. }
    destruct (IH e1 w1 _ Hall Hm1 Hp1 Hprev1)
      as (rs & e2 & w2 & Hrest & Hlen & Hitems & Hfile).
    exists (r :: rs), e2, w2. cbn [exports]. rewrite Hrun, Hrest.
    rewrite Hdir in Hitems, Hfile, Hsnap.
    rewrite (agree_envelopes rest e1 (enrich e t) t Hag) in Hitems, Hfile.
    cbn [envelopes length].
    rewrite <- List.app_assoc in Hitems, Hfile. cbn [app] in Hitems, Hfile.
    split; [reflexivity|]. split; [now rewrite Hlen|].
    split; [exact Hitems|]. intros _.
    destruct rest as [|b rest]; [|apply Hfile; discriminate].
    cbn [exports] in Hrest. injection Hrest as <- <- <-.
    cbn [envelopes]. exact Hsnap.
Qed.

(** C4.  After [N >= 1] calls in a row for one trace id, on an
    instance and files that have no snapshot of it yet, the
    snapshot file holds the array of the [N] envelopes of the calls
    in call order. *)
Theorem snapshot_accumulation
    (e : Exporter) (w : World) (t : string) (batches : list (list json)) :
  batches <> [] ->
  Forall (batch_for t) batches ->
  is_dict (metadata e) = true -> is_dict (pipeline e) = true ->
  otel_trace_id t = true ->
  fs w !! snapshot_path (dir_name e) t = None ->
  let items := envelopes get_unique_key e t batches in
  exists rs st text,
    exports get_unique_key batches {| self := e; world := w |} = (rs, st) /\
    fs (world st) !! snapshot_path (dir_name e) t = Some text /\
    json_loads text = Some (JArr items) /\
    length items = length batches /\
    Forall (is_envelope t) items /\
    Forall2
      (fun x spans =>
         Py.getitem x "traces" =
           Ok (JArr (map (with_prompt_id get_unique_key) spans)))
      items batches.
Proof.
  intros Hne Hall Hm Hp Ht Hfresh items.
  destruct (snapshot_after_exports t batches Ht e w [] Hall Hm Hp)
    as (rs & e' & w' & Hrun & _ & _ & Hfile).
  { now rewrite Hfresh. }
  exists rs, {| self := e'; world := w' |}, (json_dumps (JArr items)).
  split; [exact Hrun|]. split; [exact (Hfile Hne)|].
  split; [apply json_loads_dumps|].
  split; [apply envelopes_length|].
  split; [apply envelopes_are_envelopes | apply envelopes_in_call_order].
Qed.

(** After calls for one trace, the line-delimited file holds what
    it held and then the lines of the calls. *)
Lemma jsonl_after_exports (t : string) (rest : list (list json)) :
  forall (spans : list json) (e : Exporter) (w : World),
    Forall (batch_for t) (spans :: rest) ->
    is_dict (metadata e) = true -> is_dict (pipeline e) = true ->
    exists rs e' w',
      exports get_unique_key (spans :: rest) {| self := e; world := w |} =
        (rs, {| self := e'; world := w' |}) /\
      fs w' !! jsonl_path (dir_name e) t =
        Some (default EmptyString (fs w !! jsonl_path (dir_name e) t)
              +:+ lines_text (envelopes get_unique_key e t (spans :: rest))).
Proof.
  induction rest as [|next rest IH]; intros spans e w Hall Hm Hp;
    apply Forall_cons in Hall as [Hb Hall];
    destruct (export_appends_line e w t spans Hb Hm Hp)
      as (r & e1 & w1 & Hrun & Hag & _ & _ & Hline).
  - exists [r], e1, w1. cbn [exports]. rewrite Hrun.
    split; [reflexivity|]. cbn [envelopes lines_text].
    now rewrite (TextFacts.app_nil_r Text.nl).
  - destruct (agree_dicts e1 e t Hag Hm Hp) as (Hm1 & Hp1 & Hdir).
    destruct (IH next e1 w1 Hall Hm1 Hp1)
      as (rs & e2 & w2 & Hrest & Hfile).
    exists (r :: rs), e2, w2.
    change (exports get_unique_key (spans :: next :: rest)
              {| self := e; world := w |})
      with (let '(r0, st1) := export spans {| self := e; world := w |} in
            let '(rs0, st2) := exports get_unique_key (next :: rest) st1 in
            (r0 :: rs0, st2)).
    rewrite Hrun, Hrest. split; [reflexivity|].
    rewrite Hdir, Hline in Hfile. cbn [default from_option id] in Hfile.
    rewrite (agree_envelopes (next :: rest) e1 (enrich e t) t Hag) in Hfile.
    rewrite Hfile.
    change (envelopes get_unique_key e t (spans :: next :: rest))
      with (envelope e t spans
            :: envelopes get_unique_key (enrich e t) t (next :: rest)).
    cbn [lines_text]. now rewrite !TextFacts.app_assoc.
Qed.

(** C5.  After [N >= 1] calls in a row for one trace id, the
    line-delimited file is the text it was before the calls and
    then [N] lines, the envelopes of the calls in call order, each
    read back by [json.loads] as that envelope: the lines that were
    there are still there, in front, and a file that was not there
    holds exactly the [N] lines. *)
Theorem jsonl_append_only
    (e : Exporter) (w : World) (t : string) (batches : list (list json)) :
  batches <> [] ->
  Forall (batch_for t) batches ->
  is_dict (metadata e) = true -> is_dict (pipeline e) = true ->
  let items := envelopes get_unique_key e t batches in
  let before := default EmptyString (fs w !! jsonl_path (dir_name e) t) in
  exists rs st text,
    exports get_unique_key batches {| self := e; world := w |} = (rs, st) /\
    fs (world st) !! jsonl_path (dir_name e) t = Some text /\
    text = before +:+ lines_text items /\
    (forall earlier, Text.lines before = Some earlier ->
       Text.lines text = Some (earlier ++ map json_dumps items)) /\
    (fs w !! jsonl_path (dir_name e) t = None ->
       Text.lines text = Some (map json_dumps items)) /\
    length items = length batches /\
    Forall (fun line => exists x, json_loads line = Some x /\ is_envelope t x)
      (map json_dumps items) /\
    Forall2
      (fun x spans =>
         Py.getitem x "traces" =
           Ok (JArr (map (with_prompt_id get_unique_key) spans)))
      items batches.
Proof.
  intros Hne Hall Hm Hp items before.
  destruct batches as [|spans rest]; [congruence|].
  destruct (jsonl_after_exports t rest spans e w Hall Hm Hp)
    as (rs & e' & w' & Hrun & Hfile).
  exists rs, {| self := e'; world := w' |}, (before +:+ lines_text items).
  split; [exact Hrun|]. split; [exact Hfile|]. split; [reflexivity|].
  split; [|split; [|split; [|split]]].
  - intros earlier Hearlier.
    apply TextFacts.lines_app; [exact Hearlier | apply lines_of_lines_text].
  - intros Hfresh. subst before. rewrite Hfresh. cbn [default from_option].
    rewrite TextFacts.app_nil_l. apply lines_of_lines_text.
  - apply envelopes_length.
  - apply Forall_map. eapply Forall_impl; [apply envelopes_are_envelopes|].
    intros x Hx. exists x. split; [apply json_loads_dumps | exact Hx].
  - apply envelopes_in_call_order.
Qed.

(** *** Calls across traces *)

(** The snapshot of another trace is not among the files a call
    stages. *)
Lemma staged_other_snapshot (dir cwd t t' : string) (x : json)
    (prev : list json) (files : gmap string string) :
  otel_trace_id t = true -> otel_trace_id t' = true -> t <> t' ->
  staged dir cwd t x prev files !! snapshot_path dir t' =
    files !! snapshot_path dir t'.
Proof.
  intros Ht Ht' Hne. apply staged_other.
  - intros E. apply Hne. symmetry. exact (PathFacts.snapshot_path_inj _ _ _ Ht' Ht E).
  - now apply PathFacts.snapshot_ne_tracer.
  - intros E. exact (PathFacts.jsonl_ne_snapshot _ _ _ _ (eq_sym E)).
Qed.

(** With the credential set and a client that does not time out, a
    call on a well-formed batch returns; it attempts an upload, of
    the path [sync_file] held, exactly when it opens a new snapshot
    while [sync_file] holds a path. *)
Lemma export_returns (e : Exporter) (w : World) (t : string)
    (spans prev : list json) :
  batch_for t spans ->
  is_dict (metadata e) = true -> is_dict (pipeline e) = true ->
  otel_trace_id t = true ->
  snapshot_items (fs w !! snapshot_path (dir_name e) t) = Some prev ->
  has_token w = true ->
  (forall client, raga_client e = Some client ->
     forall n paths, client n paths <> RaisesTimeout) ->
  exists e' w',
    export spans {| self := e; world := w |} =
      (Ok tt, {| self := e'; world := w' |}) /\
    (dir_name e' = dir_name e /\ raga_client e' = raga_client e /\
     is_dict (metadata e') = true /\ is_dict (pipeline e') = true /\
     cwd w' = cwd w /\ has_token w' = true) /\
    fs w' = staged (dir_name e) (cwd w) t (envelope e t spans) prev (fs w) /\
    match fs w !! snapshot_path (dir_name e) t with
    | Some _ =>
        sync_file e' = sync_file e /\
        upload_attempts w' = upload_attempts w
    | None =>
        sync_file e' = Some (snapshot_path (dir_name e) t) /\
        upload_attempts w' =
          upload_attempts w ++ match sync_file e with
                               | Some previous => [previous]
                               | None => []
                               end
    end.
Proof.
  intros Hb Hm Hp Ht Hprev Htok Hclient.
  pose proof (PathFacts.snapshot_ne_tracer (dir_name e) t (cwd w) Ht) as Hne.
  rewrite (export_staged e w t spans prev Hb Hm Hp Hne Hprev).
  assert (Hd : is_dict (metadata (enrich e t)) = true /\
               is_dict (pipeline (enrich e t)) = true).
  { unfold Staging.enrich.
    cbn [set_pipeline set_metadata set_filename metadata pipeline].
    auto using with_id_is_dict. }
  destruct Hd as [Hm' Hp'].
  destruct (fs w !! snapshot_path (dir_name e) t).
  - do 2 eexists. split; [reflexivity|]. repeat split; assumption.
  - destruct (sync_file e) as [previous|] eqn:Hs.
    + destruct (raga_client e) as [client|] eqn:Hc.
      * rewrite (upload_with_client _ _ _ client) by assumption.
        specialize (Hclient client eq_refl
                      (length (client_calls
                         (set_fs (staged (dir_name e) (cwd w) t
                                    (envelope e t spans) prev (fs w)) w)))
                      [previous]).
        destruct (client _ _) as [b| |msg]; [|congruence|];
          cbn [status_of]; do 2 eexists; (split; [reflexivity|]);
          repeat split; assumption.
      * destruct (upload_without_client previous (enrich e t)
                    (set_fs (staged (dir_name e) (cwd w) t
                               (envelope e t spans) prev (fs w)) w))
          as [status ->]; [exact Htok|exact Hc|].
        do 2 eexists. split; [reflexivity|]. repeat split; assumption.
    + do 2 eexists. split; [reflexivity|]. cbn [world self].
      rewrite List.app_nil_r. repeat split; assumption.
Qed.

(** Without the credential, a call on a well-formed batch stages
    its files; it returns unless it opens a new snapshot while
    [sync_file] holds a path: then it raises after the attempt, and
    [sync_file] keeps the path it held. *)
Lemma export_without_token (e : Exporter) (w : World) (t : string)
    (spans prev : list json) :
  batch_for t spans ->
  is_dict (metadata e) = true -> is_dict (pipeline e) = true ->
  otel_trace_id t = true ->
  snapshot_items (fs w !! snapshot_path (dir_name e) t) = Some prev ->
  has_token w = false ->
  exists r e' w',
    export spans {| self := e; world := w |} =
      (r, {| self := e'; world := w' |}) /\
    (dir_name e' = dir_name e /\
     is_dict (metadata e') = true /\ is_dict (pipeline e') = true /\
     cwd w' = cwd w /\ has_token w' = false /\
     client_calls w' = client_calls w) /\
    fs w' = staged (dir_name e) (cwd w) t (envelope e t spans) prev (fs w) /\
    match fs w !! snapshot_path (dir_name e) t with
    | Some _ =>
        r = Ok tt /\ sync_file e' = sync_file e /\
        upload_attempts w' = upload_attempts w
    | None =>
        match sync_file e with
        | None =>
            r = Ok tt /\
            sync_file e' = Some (snapshot_path (dir_name e) t) /\
            upload_attempts w' = upload_attempts w
        | Some previous =>
            r = Raise (ValueError token_missing_msg) /\
            sync_file e' = Some previous /\
            upload_attempts w' = upload_attempts w ++ [previous]
        end
    end.
Proof.
  intros Hb Hm Hp Ht Hprev Htok.
  pose proof (PathFacts.snapshot_ne_tracer (dir_name e) t (cwd w) Ht) as Hne.
  rewrite (export_staged e w t spans prev Hb Hm Hp Hne Hprev).
  assert (Hd : is_dict (metadata (enrich e t)) = true /\
               is_dict (pipeline (enrich e t)) = true).
  { unfold Staging.enrich.
    cbn [set_pipeline set_metadata set_filename metadata pipeline].
    auto using with_id_is_dict. }
  destruct Hd as [Hm' Hp'].
  destruct (fs w !! snapshot_path (dir_name e) t).
  - do 3 eexists. split; [reflexivity|]. repeat split; assumption.
  - destruct (sync_file e) as [previous|] eqn:Hs.
    + rewrite upload_without_token by exact Htok.
      do 3 eexists. split; [reflexivity|].
      repeat split; assumption.
    + do 3 eexists. split; [reflexivity|]. repeat split; assumption.
Qed.

(** C1, as the code has it.  On a fresh instance, with no snapshot
    of the traces [A], [B], [C] on disk, two calls for [A] are
    followed by one for [B] and one for [C].

    With the credential set and a client that does not time out,
    the four calls return and [_upload_traces] is called twice: not
    by the two calls for [A], on the snapshot of [A] by the call for
    [B], and on the snapshot of [B] by the call for [C].  The
    snapshot of [C] is not among the two; it is what [sync_file]
    holds at the end.

    Without the credential the calls for [B] and [C] raise the
    [ValueError] of [_upload_traces].  It is called twice again, but
    both times on the snapshot of [A], which [sync_file] still holds
    at the end; the client is never reached. *)
Theorem lagged_upload_trigger
    (project_name : json) (session_id : option string)
    (metadata pipeline : json) (raga_client : option RagaExporter)
    (uuid4 tempdir : string) (w : World)
    (A B C : string) (a1 a2 b c : list json) :
  let e := __init__ project_name session_id metadata pipeline
             raga_client uuid4 tempdir in
  let dir := dir_name e in
  is_dict metadata = true -> is_dict pipeline = true ->
  otel_trace_id A = true -> otel_trace_id B = true ->
  otel_trace_id C = true ->
  A <> B -> A <> C -> B <> C ->
  batch_for A a1 -> batch_for A a2 -> batch_for B b -> batch_for C c ->
  fs w !! snapshot_path dir A = None ->
  fs w !! snapshot_path dir B = None ->
  fs w !! snapshot_path dir C = None ->
  let attempts_after batches :=
    upload_attempts
      (world (snd (exports get_unique_key batches {| self := e; world := w |}))) in
  (has_token w = true ->
   (forall client, raga_client = Some client ->
      forall n paths, client n paths <> RaisesTimeout) ->
   exists st,
     exports get_unique_key [a1; a2; b; c] {| self := e; world := w |} =
       ([Ok tt; Ok tt; Ok tt; Ok tt], st) /\
     attempts_after [a1; a2] = upload_attempts w /\
     attempts_after [a1; a2; b] = upload_attempts w ++ [snapshot_path dir A] /\
     upload_attempts (world st) =
       upload_attempts w ++ [snapshot_path dir A; snapshot_path dir B] /\
     ~ In (snapshot_path dir C) [snapshot_path dir A; snapshot_path dir B] /\
     sync_file (self st) = Some (snapshot_path dir C)) /\
  (has_token w = false ->
   exists st,
     exports get_unique_key [a1; a2; b; c] {| self := e; world := w |} =
       ([Ok tt; Ok tt; Raise (ValueError token_missing_msg);
         Raise (ValueError token_missing_msg)], st) /\
     attempts_after [a1; a2] = upload_attempts w /\
     attempts_after [a1; a2; b] = upload_attempts w ++ [snapshot_path dir A] /\
     upload_attempts (world st) =
       upload_attempts w ++ [snapshot_path dir A; snapshot_path dir A] /\
     sync_file (self st) = Some (snapshot_path dir A) /\
     client_calls (world st) = client_calls w).
Proof.
  intros e dir Hm Hp HA HB HC HAB HAC HBC Ha1 Ha2 Hb Hc FA FB FC
    attempts_after.
  split.
  - intros Htok Hclient.
    (* first call for A: a new snapshot, nothing to upload yet *)
    destruct (export_returns e w A a1 [] Ha1 Hm Hp HA) as
      (e1 & w1 & R1 & (D1 & C1 & M1 & P1 & W1 & T1) & F1 & S1);
      [fold dir; now rewrite FA | exact Htok | exact Hclient |].
    fold dir in F1, S1. rewrite FA in S1. destruct S1 as [S1 U1].
    cbn [sync_file __init__ e] in U1. rewrite List.app_nil_r in U1.
    (* second call for A: the snapshot is there *)
    assert (G1 : fs w1 !! snapshot_path (dir_name e1) A =
              Some (json_dumps (JArr ([] ++ [envelope e A a1])))).
    { rewrite D1, F1. apply staged_snapshot. }
    destruct (export_returns e1 w1 A a2 [envelope e A a1] Ha2 M1 P1 HA) as
      (e2 & w2 & R2 & (D2 & C2 & M2 & P2 & W2 & T2) & F2 & S2);
      [rewrite G1; unfold snapshot_items; now rewrite json_loads_dumps
      | exact T1 | rewrite C1; exact Hclient |].
    rewrite G1 in S2. destruct S2 as [S2 U2].
    (* call for B: a new snapshot, the one of A goes to the upload *)
    assert (G2 : fs w2 !! snapshot_path (dir_name e2) B = None).
    { rewrite D2, D1, F2, D1. fold dir.
      rewrite staged_other_snapshot by assumption.
      rewrite F1. rewrite staged_other_snapshot by assumption. exact FB. }
    destruct (export_returns e2 w2 B b [] Hb M2 P2 HB) as
      (e3 & w3 & R3 & (D3 & C3 & M3 & P3 & W3 & T3) & F3 & S3);
      [now rewrite G2 | exact T2 | rewrite C2, C1; exact Hclient |].
    rewrite G2 in S3. destruct S3 as [S3 U3].
    (* call for C: a new snapshot, the one of B goes to the upload *)
    assert (G3 : fs w3 !! snapshot_path (dir_name e3) C = None).
    { rewrite D3, D2, D1, F3, D2, D1. fold dir.
      rewrite staged_other_snapshot by assumption.
      rewrite F2, D1. fold dir.
      rewrite staged_other_snapshot by assumption.
      rewrite F1. rewrite staged_other_snapshot by assumption. exact FC. }
    destruct (export_returns e3 w3 C c [] Hc M3 P3 HC) as
      (e4 & w4 & R4 & (D4 & C4 & M4 & P4 & W4 & T4) & F4 & S4);
      [now rewrite G3 | exact T3 | rewrite C3, C2, C1; exact Hclient |].
    rewrite G3 in S4. destruct S4 as [S4 U4].
    exists {| self := e4; world := w4 |}. subst attempts_after.
    cbn [exports]. rewrite R1, R2, R3, R4. cbn [snd world self].
    split; [reflexivity|].
    split; [now rewrite U2, U1|].
    split; [now rewrite U3, S2, S1, U2, U1|].
    split; [|split].
    + rewrite U4, S3, U3, S2, S1, U2, U1, D2, D1. fold dir.
      now rewrite <- List.app_assoc.
    + intros [E|[E|[]]].
      * apply HAC. exact (PathFacts.snapshot_path_inj _ _ _ HA HC E).
      * apply HBC. exact (PathFacts.snapshot_path_inj _ _ _ HB HC E).
    + rewrite S4, D3, D2, D1. reflexivity.
  - intros Htok.
    (* first call for A: a new snapshot, nothing to upload yet *)
    destruct (export_without_token e w A a1 [] Ha1 Hm Hp HA) as
      (r1 & e1 & w1 & R1 & (D1 & M1 & P1 & W1 & T1 & K1) & F1 & S1);
      [fold dir; now rewrite FA | exact Htok |].
    fold dir in F1, S1. rewrite FA in S1.
    cbn [sync_file __init__ e] in S1. destruct S1 as (-> & S1 & U1).
    (* second call for A: the snapshot is there *)
    assert (G1 : fs w1 !! snapshot_path (dir_name e1) A =
              Some (json_dumps (JArr ([] ++ [envelope e A a1])))).
    { rewrite D1, F1. apply staged_snapshot. }
    destruct (export_without_token e1 w1 A a2 [envelope e A a1]
                Ha2 M1 P1 HA) as
      (r2 & e2 & w2 & R2 & (D2 & M2 & P2 & W2 & T2 & K2) & F2 & S2);
      [rewrite G1; unfold snapshot_items; now rewrite json_loads_dumps
      | exact T1 |].
    rewrite G1 in S2. destruct S2 as (-> & S2 & U2).
    (* call for B: a new snapshot, the attempt on that of A raises *)
    assert (G2 : fs w2 !! snapshot_path (dir_name e2) B = None).
    { rewrite D2, D1, F2, D1. fold dir.
      rewrite staged_other_snapshot by assumption.
      rewrite F1. rewrite staged_other_snapshot by assumption. exact FB. }
    destruct (export_without_token e2 w2 B b [] Hb M2 P2 HB) as
      (r3 & e3 & w3 & R3 & (D3 & M3 & P3 & W3 & T3 & K3) & F3 & S3);
      [now rewrite G2 | exact T2 |].
    rewrite G2, S2, S1 in S3. destruct S3 as (-> & S3 & U3).
    (* call for C: a new snapshot, the attempt is on that of A again *)
    assert (G3 : fs w3 !! snapshot_path (dir_name e3) C = None).
    { rewrite D3, D2, D1, F3, D2, D1. fold dir.
      rewrite staged_other_snapshot by assumption.
      rewrite F2, D1. fold dir.
      rewrite staged_other_snapshot by assumption.
      rewrite F1. rewrite staged_other_snapshot by assumption. exact FC. }
    destruct (export_without_token e3 w3 C c [] Hc M3 P3 HC) as
      (r4 & e4 & w4 & R4 & (D4 & M4 & P4 & W4 & T4 & K4) & F4 & S4);
      [now rewrite G3 | exact T3 |].
    rewrite G3, S3 in S4. destruct S4 as (-> & S4 & U4).
    exists {| self := e4; world := w4 |}. subst attempts_after.
    cbn [exports]. rewrite R1, R2, R3, R4. cbn [snd world self].
    split; [reflexivity|].
    split; [now rewrite U2, U1|].
    split; [now rewrite U3, U2, U1|].
    split; [|split].
    + rewrite U4, U3, U2, U1. now rewrite <- List.app_assoc.
    + exact S4.
    + now rewrite K4, K3, K2, K1.
Qed.

(** *** When an upload is attempted *)

(** X1.  Whatever the credential and the client do, a call on a
    well-formed batch calls [_upload_traces] exactly when it opens a
    new snapshot while [sync_file] holds a path, once, on that path;
    a call that finds its snapshot, or runs on a fresh cursor, calls
    it not at all. *)
Theorem upload_attempted_only_at_a_new_trace
    (e : Exporter) (w : World) (t : string) (spans prev : list json) :
  batch_for t spans ->
  is_dict (metadata e) = true -> is_dict (pipeline e) = true ->
  otel_trace_id t = true ->
  snapshot_items (fs w !! snapshot_path (dir_name e) t) = Some prev ->
  upload_attempts (world (snd (export spans {| self := e; world := w |}))) =
    upload_attempts w ++
    match fs w !! snapshot_path (dir_name e) t, sync_file e with
    | None, Some previous => [previous]
    | _, _ => []
    end.
Proof.
  intros Hb Hm Hp Ht Hprev.
  pose proof (PathFacts.snapshot_ne_tracer (dir_name e) t (cwd w) Ht) as Hne.
  rewrite (export_staged e w t spans prev Hb Hm Hp Hne Hprev).
  destruct (fs w !! snapshot_path (dir_name e) t);
    [cbn [snd world set_fs upload_attempts]; now rewrite List.app_nil_r|].
  destruct (sync_file e) as [previous|];
    [|cbn [snd world set_fs upload_attempts]; now rewrite List.app_nil_r].
  match goal with
  | |- context [_upload_traces previous ?st] =>
      pose proof (_upload_traces_frame previous st) as (_ & _ & _ & _ & F);
      destruct (_upload_traces previous st) as [[r|x] [e2 w2]]
  end; cbn [snd world set_fs upload_attempts] in *; exact F.
Qed.

(** X2.  A call for a trace whose snapshot is on disk needs neither
    the credential nor the client: it returns, the histories of
    uploads and client calls and [sync_file] stay as they were. *)
Theorem later_calls_need_no_credential
    (e : Exporter) (w : World) (t text : string) (spans prev : list json) :
  batch_for t spans ->
  is_dict (metadata e) = true -> is_dict (pipeline e) = true ->
  otel_trace_id t = true ->
  fs w !! snapshot_path (dir_name e) t = Some text ->
  json_loads text = Some (JArr prev) ->
  exists st,
    export spans {| self := e; world := w |} = (Ok tt, st) /\
    sync_file (self st) = sync_file e /\
    upload_attempts (world st) = upload_attempts w /\
    client_calls (world st) = client_calls w /\
    fs (world st) !! snapshot_path (dir_name e) t =
      Some (json_dumps (JArr (prev ++ [envelope e t spans]))).
Proof.
  intros Hb Hm Hp Ht Hfile Hload.
  pose proof (PathFacts.snapshot_ne_tracer (dir_name e) t (cwd w) Ht) as Hne.
  rewrite (export_staged e w t spans prev Hb Hm Hp Hne)
    by (rewrite Hfile; unfold snapshot_items; now rewrite Hload).
  rewrite Hfile. eexists. split; [reflexivity|].
  cbn [self world set_fs fs upload_attempts client_calls].
  rewrite staged_snapshot. repeat split.
Qed.

(** X3.  The first call on an instance whose cursor is unset, for a
    trace with no snapshot on disk, returns without an upload and
    without a look at the credential; [sync_file] then holds the
    snapshot it has written. *)
Theorem first_call_sets_the_cursor
    (e : Exporter) (w : World) (t : string) (spans : list json) :
  batch_for t spans ->
  is_dict (metadata e) = true -> is_dict (pipeline e) = true ->
  otel_trace_id t = true ->
  sync_file e = None ->
  fs w !! snapshot_path (dir_name e) t = None ->
  exists st,
    export spans {| self := e; world := w |} = (Ok tt, st) /\
    sync_file (self st) = Some (snapshot_path (dir_name e) t) /\
    upload_attempts (world st) = upload_attempts w /\
    client_calls (world st) = client_calls w /\
    fs (world st) !! snapshot_path (dir_name e) t =
      Some (json_dumps (JArr [envelope e t spans])).
Proof.
  intros Hb Hm Hp Ht Hs Hfile.
  pose proof (PathFacts.snapshot_ne_tracer (dir_name e) t (cwd w) Ht) as Hne.
  rewrite (export_staged e w t spans [] Hb Hm Hp Hne) by (now rewrite Hfile).
  rewrite Hfile, Hs. eexists. split; [reflexivity|].
  cbn [self world set_fs fs upload_attempts client_calls set_sync_file sync_file].
  rewrite staged_snapshot. repeat split.
Qed.

(** X4.  While the credential is missing the cursor is stuck: a call
    on an instance whose [sync_file] holds a path leaves that path in
    [sync_file], whether it appends to a snapshot or opens a new one
    (and then raises). *)
Theorem cursor_stuck_without_credential
    (e : Exporter) (w : World) (t previous : string) (spans prev : list json) :
  batch_for t spans ->
  is_dict (metadata e) = true -> is_dict (pipeline e) = true ->
  otel_trace_id t = true ->
  snapshot_items (fs w !! snapshot_path (dir_name e) t) = Some prev ->
  has_token w = false ->
  sync_file e = Some previous ->
  sync_file (self (snd (export spans {| self := e; world := w |}))) =
    Some previous.
Proof.
  intros Hb Hm Hp Ht Hprev Htok Hs.
  pose proof (PathFacts.snapshot_ne_tracer (dir_name e) t (cwd w) Ht) as Hne.
  rewrite (export_staged e w t spans prev Hb Hm Hp Hne Hprev).
  destruct (fs w !! snapshot_path (dir_name e) t).
  - cbn [snd self]. unfold Staging.enrich.
    cbn [set_pipeline set_metadata set_filename sync_file]. exact Hs.
  - rewrite Hs. rewrite upload_without_token by exact Htok.
    cbn [snd self]. unfold Staging.enrich.
    cbn [set_pipeline set_metadata set_filename sync_file]. exact Hs.
Qed.

(** X5.  An instance without a client ([raga_client=None], the
    default) does not fail at a trace boundary: with the credential
    set the attempt ends in a failure status, no client is called, the
    call returns and [sync_file] takes the new snapshot path. *)
Theorem export_without_client_returns
    (e : Exporter) (w : World) (t previous : string) (spans : list json) :
  batch_for t spans ->
  is_dict (metadata e) = true -> is_dict (pipeline e) = true ->
  otel_trace_id t = true ->
  fs w !! snapshot_path (dir_name e) t = None ->
  sync_file e = Some previous ->
  has_token w = true ->
  raga_client e = None ->
  exists st,
    export spans {| self := e; world := w |} = (Ok tt, st) /\
    sync_file (self st) = Some (snapshot_path (dir_name e) t) /\
    upload_attempts (world st) = upload_attempts w ++ [previous] /\
    client_calls (world st) = client_calls w.
Proof.
  intros Hb Hm Hp Ht Hfile Hs Htok Hc.
  pose proof (PathFacts.snapshot_ne_tracer (dir_name e) t (cwd w) Ht) as Hne.
  rewrite (export_staged e w t spans [] Hb Hm Hp Hne) by (now rewrite Hfile).
  rewrite Hfile, Hs.
  destruct (upload_without_client previous (enrich e t)
              (set_fs (staged (dir_name e) (cwd w) t
                         (envelope e t spans) [] (fs w)) w))
    as [status ->]; [exact Htok|exact Hc|].
  eexists. split; [reflexivity|]. repeat split.
Qed.

(** X6.  A credential that is set to the empty string counts as
    missing: [_upload_traces] raises the [ValueError] and the client
    is not called. *)
Theorem empty_credential_is_missing
    (e : Exporter) (w : World) (path : string) :
  environ w !! "RAGAAI_CATALYST_TOKEN" = Some EmptyString ->
  exists st,
    _upload_traces path {| self := e; world := w |} =
      (Raise (ValueError token_missing_msg), st) /\
    client_calls (world st) = client_calls w /\
    fs (world st) = fs w /\ self st = e.
Proof.
  intros Henv. rewrite upload_without_token
    by (unfold has_token; now rewrite Henv).
  eexists. split; [reflexivity|]. repeat split.
Qed.

(** *** Calls that are refused *)

(** X8.  A batch whose first span document has no [context], or whose
    [context] has no [trace_id], is refused with the [KeyError] of
    that key, before the instance or the process is touched. *)
Theorem export_missing_key_raises
    (st : State) (d : list (string * json)) (rest : list json) (key : string) :
  (Py.dict_get "context" d = None /\ key = "context") \/
  (exists c, Py.dict_get "context" d = Some (JObj c) /\
             Py.dict_get "trace_id" c = None /\ key = "trace_id") ->
  export (JObj d :: rest) st = (Raise (KeyError key), st).
Proof.
  intros [[H ->]|(c & H1 & H2 & ->)]; unfold FileSpanExporter.export.
  - cbn [bind lift Py.first Py.getitem]. now rewrite H.
  - cbn [bind lift Py.first Py.getitem]. rewrite H1.
    cbn [bind lift Py.getitem]. now rewrite H2.
Qed.

(** *** What a call leaves alone *)

(** A call on a well-formed batch changes the files by writes to its
    three paths only. *)
Lemma export_frame (e : Exporter) (w : World) (t : string)
    (spans : list json) :
  batch_for t spans ->
  is_dict (metadata e) = true -> is_dict (pipeline e) = true ->
  exists r e' w',
    export spans {| self := e; world := w |} =
      (r, {| self := e'; world := w' |}) /\
    (forall path,
       path <> jsonl_path (dir_name e) t ->
       path <> tracer_path (cwd w) ->
       path <> snapshot_path (dir_name e) t ->
       fs w' !! path = fs w !! path) /\
    (forall path, is_Some (fs w !! path) -> is_Some (fs w' !! path)).
Proof.
  intros [Ht Hd] Hm Hp.
  destruct spans as [|t0 spans0]; [discriminate|].
  unfold trace_id_of in Ht.
  destruct (Py.getitem t0 "context") as [context|] eqn:Hc; [|discriminate].
  destruct (Py.getitem context "trace_id") as [[]|] eqn:Hi; try discriminate.
  injection Ht as ->.
  destruct e as [pn sid md pl sf dn rc fn ut].
  cbn [metadata pipeline dir_name sync_file] in *.
  destruct md as [| | | | | |md]; try discriminate.
  destruct pl as [| | | | | |pl]; try discriminate.
  unfold FileSpanExporter.export.
  cbn [bind lift Py.first]. rewrite Hc. cbn [bind lift]. rewrite Hi.
  run. rewrite (for_each_add_prompt_id _ Hd). run.
  change (Py.path_join dn (t +:+ ".json")) with (snapshot_path dn t).
  change (Py.path_join dn (t +:+ ".jsonl")) with (jsonl_path dn t).
  change (Py.path_join (cwd w) "tracer.json") with (tracer_path (cwd w)).
  assert (Hdone : forall (r : result unit) (e' : Exporter) (w' : World),
             ((exists x y z,
                 fs w' = <[snapshot_path dn t := x]>
                           (<[tracer_path (cwd w) := y]>
                              (<[jsonl_path dn t := z]> (fs w)))) \/
              (exists y z,
                 fs w' = <[tracer_path (cwd w) := y]>
                           (<[jsonl_path dn t := z]> (fs w)))) ->
             exists r0 e0 w0,
               (r, {| self := e'; world := w' |}) =
                 (r0, {| self := e0; world := w0 |}) /\
               (forall path,
                  path <> jsonl_path dn t -> path <> tracer_path (cwd w) ->
                  path <> snapshot_path dn t ->
                  fs w0 !! path = fs w !! path) /\
               (forall path, is_Some (fs w !! path) -> is_Some (fs w0 !! path))).
  { intros r e' w' Hfs. exists r, e', w'. split; [reflexivity|].
    destruct Hfs as [(x & y & z & ->)|(y & z & ->)]; split.
    - intros path H1 H2 H3. now rewrite !lookup_insert_ne by congruence.
    - intros path Hs. repeat (apply lookup_insert_is_Some'; right). exact Hs.
    - intros path H1 H2 H3. now rewrite !lookup_insert_ne by congruence.
    - intros path Hs. repeat (apply lookup_insert_is_Some'; right). exact Hs. }
  destruct (bool_decide _).
  - unfold read_text, bind at 1 2. run.
    destruct (_ !! snapshot_path dn t) as [text|]; run.
    + destruct (json_loads text) as [data|]; run.
      * destruct data; run; apply Hdone; cbn [fs]; eauto 6.
      * apply Hdone; cbn [fs]; eauto 6.
    + apply Hdone; cbn [fs]; eauto 6.
  - run. destruct sf as [previous|]; run.
    + unfold bind, _run_async, ret, set_self.
      match goal with
      | |- context [_upload_traces previous ?st] =>
          pose proof (_upload_traces_frame previous st) as (_ & F2 & _);
          destruct (_upload_traces previous st) as [[r|x] [e2 w2]]
      end; cbn [snd self world fs] in *; apply Hdone; rewrite F2; eauto 6.
    + apply Hdone; cbn [fs]; eauto 6.
Qed.

(** X9.  A call writes to at most three paths: the line-delimited
    file and the snapshot of the trace id of its first span, and the
    inspection file.  Every other file, the staging files of other
    traces among them, reads after the call as it read before,
    however the call ends. *)
Theorem export_leaves_other_files
    (e : Exporter) (w : World) (spans : list json) (path : string) :
  (forall t, trace_id_of spans = Some t ->
     path <> jsonl_path (dir_name e) t /\
     path <> snapshot_path (dir_name e) t) ->
  path <> tracer_path (cwd w) ->
  fs (world (snd (export spans {| self := e; world := w |}))) !! path =
    fs w !! path.
Proof.
  intros Hpath Htracer.
  destruct (trace_id_of spans) as [t|] eqn:Ht;
    [destruct (forallb is_dict spans) eqn:Hd;
     [destruct (is_dict (metadata e)) eqn:Hm;
      [destruct (is_dict (pipeline e)) eqn:Hp|]|]|].
  - destruct (export_frame e w t spans (conj Ht Hd) Hm Hp)
      as (r & e' & w' & -> & Hframe & _).
    destruct (Hpath t eq_refl). now apply Hframe.
  - destruct (export_rejects e w spans) as (x & e' & ->); auto.
  - destruct (export_rejects e w spans) as (x & e' & ->); auto.
  - destruct (export_rejects e w spans) as (x & e' & ->); [|reflexivity].
    left. intros t' [H1 H2]. congruence.
  - destruct (export_rejects e w spans) as (x & e' & ->); [|reflexivity].
    left. intros t' [H1 H2]. congruence.
Qed.

(** X10.  A call deletes no file: every path that held a file before
    the call holds one after it, however the call ends. *)
Theorem export_deletes_nothing
    (e : Exporter) (w : World) (spans : list json) (path : string) :
  is_Some (fs w !! path) ->
  is_Some (fs (world (snd (export spans {| self := e; world := w |}))) !! path).
Proof.
  intros Hpath.
  destruct (trace_id_of spans) as [t|] eqn:Ht;
    [destruct (forallb is_dict spans) eqn:Hd;
     [destruct (is_dict (metadata e)) eqn:Hm;
      [destruct (is_dict (pipeline e)) eqn:Hp|]|]|].
  - destruct (export_frame e w t spans (conj Ht Hd) Hm Hp)
      as (r & e' & w' & -> & _ & Hkeep).
    now apply Hkeep.
  - destruct (export_rejects e w spans) as (x & e' & ->); auto.
  - destruct (export_rejects e w spans) as (x & e' & ->); auto.
  - destruct (export_rejects e w spans) as (x & e' & ->); [|exact Hpath].
    left. intros t' [H1 H2]. congruence.
  - destruct (export_rejects e w spans) as (x & e' & ->); [|exact Hpath].
    left. intros t' [H1 H2]. congruence.
Qed.

(** *** What a call does to the caller's records *)

Lemma dict_set_keys (k : string) (v : json) (d : list (string * json)) :
  map fst (Py.dict_set k v d) =
    match Py.dict_get k d with
    | Some _ => map fst d
    | None => map fst d ++ [k]
    end.
Proof.
  induction d as [|[k0 v0] d IH]; cbn [Py.dict_set Py.dict_get map fst app];
    [reflexivity|].
  destruct (String.eqb_spec k0 k) as [->|Hk]; cbn [map fst]; [reflexivity|].
  rewrite IH. now destruct (Py.dict_get k d).
Qed.

(** X11.  However a call on a well-formed batch ends, it has changed
    the caller's [metadata] and [pipeline] in one entry only: [id]
    now holds the key computed from the record as it was before the
    call (its earlier [id] included), in the place of the earlier [id]
    or else at the end; every other entry reads as before. *)
Theorem export_changes_only_the_id
    (e : Exporter) (w : World) (t : string) (spans : list json)
    (md pl : list (string * json)) :
  batch_for t spans ->
  metadata e = JObj md -> pipeline e = JObj pl ->
  exists md' pl',
    metadata (self (snd (export spans {| self := e; world := w |}))) = JObj md' /\
    pipeline (self (snd (export spans {| self := e; world := w |}))) = JObj pl' /\
    Py.dict_get "id" md' = Some (JStr (get_unique_key (JObj md))) /\
    Py.dict_get "id" pl' = Some (JStr (get_unique_key (JObj pl))) /\
    (forall k, k <> "id" ->
       Py.dict_get k md' = Py.dict_get k md /\
       Py.dict_get k pl' = Py.dict_get k pl) /\
    map fst md' = match Py.dict_get "id" md with
                  | Some _ => map fst md
                  | None => map fst md ++ ["id"]
                  end /\
    map fst pl' = match Py.dict_get "id" pl with
                  | Some _ => map fst pl
                  | None => map fst pl ++ ["id"]
                  end.
Proof.
  intros Hb Hm Hp.
  destruct (export_appends_line e w t spans Hb) as
    (r & e' & w' & -> & (_ & _ & Hm' & Hp' & _) & _);
    [now rewrite Hm | now rewrite Hp |].
  cbn [snd self]. rewrite Hm', Hp'. unfold Staging.enrich.
  cbn [set_pipeline set_metadata set_filename metadata pipeline].
  rewrite Hm, Hp. cbn [with_id]. do 2 eexists.
  split; [reflexivity|]. split; [reflexivity|].
  split; [apply dict_get_set|]. split; [apply dict_get_set|].
  split; [|split; apply dict_set_keys].
  intros k Hk. split; now apply dict_get_set_other.
Qed.

(** *** The inspection file and the two staging files *)

(** After calls for one trace, the inspection file holds the envelope
    of the last call. *)
Lemma tracer_after_exports (t : string) (rest : list (list json)) :
  otel_trace_id t = true ->
  forall (spans : list json) (e : Exporter) (w : World) (prev : list json),
    Forall (batch_for t) (spans :: rest) ->
    is_dict (metadata e) = true -> is_dict (pipeline e) = true ->
    snapshot_items (fs w !! snapshot_path (dir_name e) t) = Some prev ->
    exists rs e' w',
      exports get_unique_key (spans :: rest) {| self := e; world := w |} =
        (rs, {| self := e'; world := w' |}) /\
      fs w' !! tracer_path (cwd w) =
        Some (json_dumps_indent
                (List.last (envelopes get_unique_key e t (spans :: rest)) JNull)).
Proof.
  intros Ht. induction rest as [|next rest IH];
    intros spans e w prev Hall Hm Hp Hprev;
    apply Forall_cons in Hall as [Hb Hall];
    pose proof (PathFacts.snapshot_ne_tracer (dir_name e) t (cwd w) Ht) as Hne;
    destruct (export_stages e w t spans prev Hb Hm Hp Hne Hprev)
      as (r & e1 & w1 & Hrun & Hag & Hcwd & Hfs).
  - exists [r], e1, w1. cbn [exports]. rewrite Hrun.
    split; [reflexivity|]. rewrite Hfs.
    rewrite staged_tracer by exact Hne. reflexivity.
  - destruct (agree_dicts e1 e t Hag Hm Hp) as (Hm1 & Hp1 & Hdir).
    assert (Hprev1 : snapshot_items (fs w1 !! snapshot_path (dir_name e1) t)
              = Some (prev ++ [envelope e t spans])).
    { rewrite Hdir, Hfs, staged_snapshot. unfold snapshot_items.
      now rewrite json_loads_dumps. }
    destruct (IH next e1 w1 _ Hall Hm1 Hp1 Hprev1)
      as (rs & e2 & w2 & Hrest & Hfile).
    exists (r :: rs), e2, w2.
    change (exports get_unique_key (spans :: next :: rest)
              {| self := e; world := w |})
      with (let '(r0, st1) := export spans {| self := e; world := w |} in
            let '(rs0, st2) := exports get_unique_key (next :: rest) st1 in
            (r0 :: rs0, st2)).
    rewrite Hrun, Hrest. split; [reflexivity|].
    rewrite Hcwd in Hfile. rewrite Hfile.
    rewrite (agree_envelopes (next :: rest) e1 (enrich e t) t Hag).
    reflexivity.
Qed.

(** X12.  The inspection file is overwritten, not appended to: after
    [N >= 1] calls in a row for one trace id it holds the indented
    form of the envelope of the last call and nothing of the earlier
    ones. *)
Theorem tracer_holds_the_last_envelope
    (e : Exporter) (w : World) (t : string) (batches : list (list json))
    (prev : list json) :
  batches <> [] ->
  Forall (batch_for t) batches ->
  is_dict (metadata e) = true -> is_dict (pipeline e) = true ->
  otel_trace_id t = true ->
  snapshot_items (fs w !! snapshot_path (dir_name e) t) = Some prev ->
  fs (world (snd (exports get_unique_key batches {| self := e; world := w |})))
    !! tracer_path (cwd w) =
    Some (json_dumps_indent
            (List.last (envelopes get_unique_key e t batches) JNull)).
Proof.
  intros Hne Hall Hm Hp Ht Hprev.
  destruct batches as [|spans rest]; [congruence|].
  destruct (tracer_after_exports t rest Ht spans e w prev Hall Hm Hp Hprev)
    as (rs & e' & w' & -> & Hfile).
  exact Hfile.
Qed.

(** X13.  The two staging files of a trace tell the same story: after
    [N >= 1] calls in a row for a trace id that had neither file, the
    lines of the line-delimited file, read by [json.loads] one by one,
    are the items of the array in the snapshot, in the same order. *)
Theorem staging_files_agree
    (e : Exporter) (w : World) (t : string) (batches : list (list json)) :
  batches <> [] ->
  Forall (batch_for t) batches ->
  is_dict (metadata e) = true -> is_dict (pipeline e) = true ->
  otel_trace_id t = true ->
  fs w !! snapshot_path (dir_name e) t = None ->
  fs w !! jsonl_path (dir_name e) t = None ->
  let files :=
    fs (world (snd (exports get_unique_key batches {| self := e; world := w |}))) in
  exists lines_text snapshot_text lines items,
    files !! jsonl_path (dir_name e) t = Some lines_text /\
    files !! snapshot_path (dir_name e) t = Some snapshot_text /\
    Text.lines lines_text = Some lines /\
    json_loads snapshot_text = Some (JArr items) /\
    map json_loads lines = map Some items /\
    length items = length batches.
Proof.
  intros Hne Hall Hm Hp Ht Hsnap Hjsonl files. subst files.
  destruct batches as [|spans rest]; [congruence|].
  destruct (snapshot_after_exports t (spans :: rest) Ht e w [] Hall Hm Hp)
    as (rs & e1 & w1 & Hrun & _ & _ & Hfile); [now rewrite Hsnap|].
  destruct (jsonl_after_exports t rest spans e w Hall Hm Hp)
    as (rs' & e2 & w2 & Hrun' & Hline).
  rewrite Hrun in Hrun'. injection Hrun' as <- <- <-.
  rewrite Hrun. cbn [snd world].
  rewrite Hjsonl in Hline. cbn [default from_option] in Hline.
  rewrite TextFacts.app_nil_l in Hline.
  do 4 eexists. split; [exact Hline|].
  split; [apply Hfile; discriminate|].
  split; [apply lines_of_lines_text|].
  split; [apply json_loads_dumps|].
  split; [|apply envelopes_length].
  cbn [app]. rewrite map_map. apply map_ext. intros x. apply json_loads_dumps.
Qed.

End Facts.

End ExportFacts.

(** ** The statements on the scenario *)

Module ScenarioFacts.
Import FileSpanExporter Staging Scenario.
Import ReferenceCodecFacts.

#[local] Existing Instance reference_codec.

Abbreviation run_export := (@export reference_codec digest).
Abbreviation run_exports := (@exports reference_codec digest).

Lemma lagged_upload_trigger_witness :
  exists st,
    run_exports [ [span trace_a "plan"]; [span trace_a "answer"];
                  [span trace_b "plan"]; [span trace_c "plan"] ]
      {| self := exporter uploading_client; world := with_credential |} =
      ([Ok tt; Ok tt; Ok tt; Ok tt], st) /\
    upload_attempts
      (world (snd (run_exports
                     [ [span trace_a "plan"]; [span trace_a "answer"] ]
                     {| self := exporter uploading_client;
                        world := with_credential |}))) = [] /\
    upload_attempts
      (world (snd (run_exports
                     [ [span trace_a "plan"]; [span trace_a "answer"];
                       [span trace_b "plan"] ]
                     {| self := exporter uploading_client;
                        world := with_credential |}))) =
      [] ++ [ snapshot_path "/tmp/raga_temp" trace_a ] /\
    upload_attempts (world st) =
      [] ++ [ snapshot_path "/tmp/raga_temp" trace_a;
              snapshot_path "/tmp/raga_temp" trace_b ] /\
    ~ In (snapshot_path "/tmp/raga_temp" trace_c)
         [ snapshot_path "/tmp/raga_temp" trace_a;
           snapshot_path "/tmp/raga_temp" trace_b ] /\
    sync_file (self st) = Some (snapshot_path "/tmp/raga_temp" trace_c).
Proof.
  apply (@ExportFacts.lagged_upload_trigger reference_codec digest
           (JStr "demo") None
           (JObj [ ("env", JStr "test") ]) (JObj [ ("llm_model", JStr "m") ])
           (Some uploading_client) "3f2c" "/tmp" with_credential
           trace_a trace_b trace_c).
  all: try reflexivity.
  all: try discriminate.
  all: try (split; reflexivity).
  intros client E n paths. injection E as <-. discriminate.
Defined.

(** C1, as stated, fails: without the credential the same four
    calls make two upload attempts as well, but both on the snapshot
    of [a]; the calls for [b] and [c] raise, the snapshot of [b] is
    never handed to an upload, and [sync_file] stays on the snapshot
    of [a]. *)
Lemma uploads_repeat_without_credential :
  let out :=
    run_exports [ [span trace_a "plan"]; [span trace_a "answer"];
                  [span trace_b "plan"]; [span trace_c "plan"] ]
      {| self := exporter uploading_client; world := without_credential |} in
  fst out =
    [ Ok tt; Ok tt; Raise (ValueError token_missing_msg);
      Raise (ValueError token_missing_msg) ] /\
  upload_attempts (world (snd out)) =
    [ snapshot_path "/tmp/raga_temp" trace_a;
      snapshot_path "/tmp/raga_temp" trace_a ] /\
  upload_attempts (world (snd out)) <>
    [ snapshot_path "/tmp/raga_temp" trace_a;
      snapshot_path "/tmp/raga_temp" trace_b ] /\
  ~ In (snapshot_path "/tmp/raga_temp" trace_b)
       (upload_attempts (world (snd out))) /\
  sync_file (self (snd out)) = Some (snapshot_path "/tmp/raga_temp" trace_a).
Proof.
  vm_compute. repeat split; try discriminate.
  intros [E|[E|[]]]; discriminate.
Qed.

(** With a client that times out the calls for [b] and [c] raise as
    well, through the handler that reads [upload_timeout]. *)
Example uploads_repeat_with_a_slow_client :
  let out :=
    run_exports [ [span trace_a "plan"]; [span trace_a "answer"];
                  [span trace_b "plan"]; [span trace_c "plan"] ]
      {| self := exporter slow_client; world := with_credential |} in
  fst out =
    [ Ok tt; Ok tt; Raise (AttributeError "upload_timeout");
      Raise (AttributeError "upload_timeout") ] /\
  upload_attempts (world (snd out)) =
    [ snapshot_path "/tmp/raga_temp" trace_a;
      snapshot_path "/tmp/raga_temp" trace_a ].
Proof. vm_compute. split; reflexivity. Qed.

Lemma upload_failure_is_not_fatal_witness :
  exists st,
    run_export [span trace_b "plan"]
      {| self := self (after_a failing_client with_credential);
         world := world (after_a failing_client with_credential) |} =
      (Ok tt, st) /\
    fs (world st) !! jsonl_path "/tmp/raga_temp" trace_b =
      Some (default EmptyString
              (fs (world (after_a failing_client with_credential))
               !! jsonl_path "/tmp/raga_temp" trace_b)
            +:+ @json_dumps reference_codec
                  (envelope digest
                     (self (after_a failing_client with_credential))
                     trace_b [span trace_b "plan"])
            +:+ Text.nl) /\
    fs (world st) !! tracer_path "/home/user" =
      Some (@json_dumps_indent reference_codec
              (envelope digest
                 (self (after_a failing_client with_credential))
                 trace_b [span trace_b "plan"])) /\
    fs (world st) !! snapshot_path "/tmp/raga_temp" trace_b =
      Some (@json_dumps reference_codec
              (JArr ([] ++ [envelope digest
                              (self (after_a failing_client with_credential))
                              trace_b [span trace_b "plan"]]))).
Proof.
  apply (@ExportFacts.upload_failure_is_not_fatal reference_codec digest
           (self (after_a failing_client with_credential))
           (world (after_a failing_client with_credential))
           trace_b [span trace_b "plan"] [] failing_client).
  all: try (vm_compute; reflexivity).
  - split; reflexivity.
  - intros n paths. exists "connection refused". reflexivity.
Defined.

(** C3, as stated, fails: the cursor holds the snapshot of [a], the
    credential is not set, and after the first call for [b] the
    attempt was made, the call has raised, and the cursor still holds
    the snapshot of [a], not that of [b]. *)
Lemma cursor_kept_without_credential :
  let st := after_a uploading_client without_credential in
  let out := run_export [span trace_b "plan"] st in
  sync_file (self st) = Some (snapshot_path "/tmp/raga_temp" trace_a) /\
  fs (world st) !! snapshot_path "/tmp/raga_temp" trace_b = None /\
  fst out = Raise (ValueError token_missing_msg) /\
  upload_attempts (world (snd out)) = [snapshot_path "/tmp/raga_temp" trace_a] /\
  sync_file (self (snd out)) <> Some (snapshot_path "/tmp/raga_temp" trace_b).
Proof. vm_compute. repeat split. discriminate. Qed.

Lemma cursor_after_upload_attempt_witness :
  let e := self (after_a failing_client with_credential) in
  let w := world (after_a failing_client with_credential) in
  let r := fst (run_export [span trace_b "plan"] {| self := e; world := w |}) in
  let e' := self (snd (run_export [span trace_b "plan"]
                         {| self := e; world := w |})) in
  (has_token w = true ->
   (forall client, raga_client e = Some client ->
      client (length (client_calls w))
        [snapshot_path "/tmp/raga_temp" trace_a] <> RaisesTimeout) ->
   r = Ok tt /\ sync_file e' = Some (snapshot_path (dir_name e) trace_b)) /\
  (has_token w = false ->
   r = Raise (ValueError token_missing_msg) /\
   sync_file e' = Some (snapshot_path "/tmp/raga_temp" trace_a)).
Proof.
  apply (@ExportFacts.cursor_after_upload_attempt reference_codec digest
           (self (after_a failing_client with_credential))
           (world (after_a failing_client with_credential))
           trace_b (snapshot_path "/tmp/raga_temp" trace_a)
           [span trace_b "plan"]).
  all: try (vm_compute; reflexivity).
  split; reflexivity.
Defined.

Lemma upload_timeout_handler_raises_witness :
  fst (@_upload_traces (snapshot_path "/tmp/raga_temp" trace_a)
         {| self := exporter slow_client; world := with_credential |}) =
    Raise (AttributeError "upload_timeout").
Proof.
  apply (ExportFacts.upload_timeout_handler_raises
           (JStr "demo") None
           (JObj [ ("env", JStr "test") ]) (JObj [ ("llm_model", JStr "m") ])
           slow_client "3f2c" "/tmp"
           (snapshot_path "/tmp/raga_temp" trace_a) with_credential).
  all: reflexivity.
Defined.

Lemma missing_credential_raises_after_staging_witness :
  let e := self (after_a uploading_client without_credential) in
  let w := world (after_a uploading_client without_credential) in
  let export_data := envelope digest e trace_b [span trace_b "plan"] in
  exists st,
    run_export [span trace_b "plan"] {| self := e; world := w |} =
      (Raise (ValueError token_missing_msg), st) /\
    fs (world st) !! jsonl_path (dir_name e) trace_b =
      Some (default EmptyString (fs w !! jsonl_path (dir_name e) trace_b)
            +:+ @json_dumps reference_codec export_data +:+ Text.nl) /\
    fs (world st) !! tracer_path (cwd w) =
      Some (@json_dumps_indent reference_codec export_data) /\
    fs (world st) !! snapshot_path (dir_name e) trace_b =
      Some (@json_dumps reference_codec (JArr [export_data])) /\
    upload_attempts (world st) =
      upload_attempts w ++ [snapshot_path "/tmp/raga_temp" trace_a] /\
    client_calls (world st) = client_calls w.
Proof.
  apply (@ExportFacts.missing_credential_raises_after_staging
           reference_codec digest
           (self (after_a uploading_client without_credential))
           (world (after_a uploading_client without_credential))
           trace_b (snapshot_path "/tmp/raga_temp" trace_a)
           [span trace_b "plan"]).
  all: try (vm_compute; reflexivity).
  split; reflexivity.
Defined.

Lemma envelope_shape_witness :
  let e := exporter uploading_client in
  let spans := [span trace_a "plan"; span trace_a "answer"] in
  exists r e' w' traces m p,
    run_export spans {| self := e; world := with_credential |} =
      (r, {| self := e'; world := w' |}) /\
    fs w' !! jsonl_path "/tmp/raga_temp" trace_a =
      Some (default EmptyString
              (fs with_credential !! jsonl_path "/tmp/raga_temp" trace_a)
            +:+ json_dumps
                  (JObj [ ("project_name", JStr "demo");
                          ("trace_id", JStr trace_a);
                          ("session_id", JStr "3f2c");
                          ("traces", JArr traces);
                          ("metadata", m);
                          ("pipeline", p) ])
            +:+ Text.nl) /\
    trace_id_of spans = Some trace_a /\
    keyed "id" (digest (metadata e)) (metadata e) m /\
    keyed "id" (digest (pipeline e)) (pipeline e) p /\
    Forall2 (fun span doc => keyed "prompt_id" (digest span) span doc)
      spans traces.
Proof.
  apply (proj1 (@ExportFacts.envelope_shape reference_codec digest
                  (exporter uploading_client) with_credential
                  [span trace_a "plan"; span trace_a "answer"]) trace_a).
  - split; reflexivity.
  - reflexivity.
  - reflexivity.
Defined.

Lemma snapshot_accumulation_witness :
  let e := exporter uploading_client in
  let items := envelopes digest e trace_a calls_for_a in
  exists rs st text,
    run_exports calls_for_a {| self := e; world := with_credential |} = (rs, st) /\
    fs (world st) !! snapshot_path (dir_name e) trace_a = Some text /\
    @json_loads reference_codec text = Some (JArr items) /\
    length items = length calls_for_a /\
    Forall (is_envelope trace_a) items /\
    Forall2
      (fun x spans =>
         Py.getitem x "traces" = Ok (JArr (map (with_prompt_id digest) spans)))
      items calls_for_a.
Proof.
  apply (@ExportFacts.snapshot_accumulation reference_codec digest
           (exporter uploading_client) with_credential trace_a calls_for_a).
  all: try reflexivity.
  - discriminate.
  - repeat constructor.
Defined.

Lemma jsonl_append_only_witness :
  let e := exporter uploading_client in
  let w := with_credential in
  let items := envelopes digest e trace_a calls_for_a in
  let before := default EmptyString (fs w !! jsonl_path (dir_name e) trace_a) in
  exists rs st text,
    run_exports calls_for_a {| self := e; world := w |} = (rs, st) /\
    fs (world st) !! jsonl_path (dir_name e) trace_a = Some text /\
    text = before +:+ @lines_text reference_codec items /\
    (forall earlier, Text.lines before = Some earlier ->
       Text.lines text =
         Some (earlier ++ map (@json_dumps reference_codec) items)) /\
    (fs w !! jsonl_path (dir_name e) trace_a = None ->
       Text.lines text = Some (map (@json_dumps reference_codec) items)) /\
    length items = length calls_for_a /\
    Forall (fun line => exists x, @json_loads reference_codec line = Some x /\
                                  is_envelope trace_a x)
      (map (@json_dumps reference_codec) items) /\
    Forall2
      (fun x spans =>
         Py.getitem x "traces" = Ok (JArr (map (with_prompt_id digest) spans)))
      items calls_for_a.
Proof.
  apply (@ExportFacts.jsonl_append_only reference_codec digest
           (exporter uploading_client) with_credential trace_a calls_for_a).
  all: try reflexivity.
  - discriminate.
  - repeat constructor.
Defined.

(** The further properties of the exporter, on the scenario. *)

Lemma upload_attempted_only_at_a_new_trace_witness :
  let e := self (after_a uploading_client with_credential) in
  let w := world (after_a uploading_client with_credential) in
  upload_attempts
    (world (snd (run_export [span trace_b "plan"] {| self := e; world := w |}))) =
    upload_attempts w ++
    match fs w !! snapshot_path (dir_name e) trace_b, sync_file e with
    | None, Some previous => [previous]
    | _, _ => []
    end.
Proof.
  apply (@ExportFacts.upload_attempted_only_at_a_new_trace
           reference_codec digest
           (self (after_a uploading_client with_credential))
           (world (after_a uploading_client with_credential))
           trace_b [span trace_b "plan"] []).
  all: try (vm_compute; reflexivity).
  split; reflexivity.
Defined.

Lemma later_calls_need_no_credential_witness :
  let e := self (after_a slow_client without_credential) in
  let w := world (after_a slow_client without_credential) in
  let prev := [envelope digest (exporter slow_client) trace_a
                 [span trace_a "plan"]] in
  exists st,
    run_export [span trace_a "answer"] {| self := e; world := w |} = (Ok tt, st) /\
    sync_file (self st) = sync_file e /\
    upload_attempts (world st) = upload_attempts w /\
    client_calls (world st) = client_calls w /\
    fs (world st) !! snapshot_path (dir_name e) trace_a =
      Some (@json_dumps reference_codec
              (JArr (prev ++ [envelope digest e trace_a [span trace_a "answer"]]))).
Proof.
  apply (@ExportFacts.later_calls_need_no_credential reference_codec digest
           (self (after_a slow_client without_credential))
           (world (after_a slow_client without_credential))
           trace_a
           (@json_dumps reference_codec
              (JArr [envelope digest (exporter slow_client) trace_a
                       [span trace_a "plan"]]))
           [span trace_a "answer"]).
  all: try (vm_compute; reflexivity).
  split; reflexivity.
Defined.

Lemma first_call_sets_the_cursor_witness :
  let e := exporter slow_client in
  let w := without_credential in
  exists st,
    run_export [span trace_a "plan"] {| self := e; world := w |} = (Ok tt, st) /\
    sync_file (self st) = Some (snapshot_path (dir_name e) trace_a) /\
    upload_attempts (world st) = upload_attempts w /\
    client_calls (world st) = client_calls w /\
    fs (world st) !! snapshot_path (dir_name e) trace_a =
      Some (@json_dumps reference_codec
              (JArr [envelope digest e trace_a [span trace_a "plan"]])).
Proof.
  apply (@ExportFacts.first_call_sets_the_cursor reference_codec digest
           (exporter slow_client) without_credential trace_a
           [span trace_a "plan"]).
  all: try reflexivity.
  split; reflexivity.
Defined.

Lemma cursor_stuck_without_credential_witness :
  let e := self (after_a uploading_client without_credential) in
  let w := world (after_a uploading_client without_credential) in
  sync_file (self (snd (run_export [span trace_b "plan"]
                          {| self := e; world := w |}))) =
    Some (snapshot_path "/tmp/raga_temp" trace_a).
Proof.
  apply (@ExportFacts.cursor_stuck_without_credential reference_codec digest
           (self (after_a uploading_client without_credential))
           (world (after_a uploading_client without_credential))
           trace_b (snapshot_path "/tmp/raga_temp" trace_a)
           [span trace_b "plan"] []).
  all: try (vm_compute; reflexivity).
  split; reflexivity.
Defined.

(** The instance after one call for trace [a], with its client taken
    away. *)
Definition after_a_without_client : Exporter :=
  let e := self (after_a uploading_client with_credential) in
  {| project_name := project_name e; session_id := session_id e;
     metadata := metadata e; pipeline := pipeline e;
     sync_file := sync_file e; dir_name := dir_name e;
     raga_client := None; filename := filename e;
     upload_timeout := upload_timeout e |}.

Lemma export_without_client_returns_witness :
  let e := after_a_without_client in
  let w := world (after_a uploading_client with_credential) in
  exists st,
    run_export [span trace_b "plan"] {| self := e; world := w |} = (Ok tt, st) /\
    sync_file (self st) = Some (snapshot_path (dir_name e) trace_b) /\
    upload_attempts (world st) =
      upload_attempts w ++ [snapshot_path "/tmp/raga_temp" trace_a] /\
    client_calls (world st) = client_calls w.
Proof.
  apply (@ExportFacts.export_without_client_returns reference_codec digest
           after_a_without_client
           (world (after_a uploading_client with_credential))
           trace_b (snapshot_path "/tmp/raga_temp" trace_a)
           [span trace_b "plan"]).
  all: try (vm_compute; reflexivity).
  split; reflexivity.
Defined.

Definition with_empty_credential : World :=
  process {[ "RAGAAI_CATALYST_TOKEN" := EmptyString ]}.

Lemma empty_credential_is_missing_witness :
  exists st,
    _upload_traces (snapshot_path "/tmp/raga_temp" trace_a)
      {| self := exporter uploading_client; world := with_empty_credential |} =
      (Raise (ValueError token_missing_msg), st) /\
    client_calls (world st) = client_calls with_empty_credential /\
    fs (world st) = fs with_empty_credential /\
    self st = exporter uploading_client.
Proof.
  apply (ExportFacts.empty_credential_is_missing
           (exporter uploading_client) with_empty_credential
           (snapshot_path "/tmp/raga_temp" trace_a)).
  reflexivity.
Defined.

Lemma export_missing_key_raises_witness :
  run_export [JObj [ ("name", JStr "plan") ]; span trace_a "answer"]
    {| self := exporter uploading_client; world := with_credential |} =
    (Raise (KeyError "context"),
     {| self := exporter uploading_client; world := with_credential |}).
Proof.
  apply (@ExportFacts.export_missing_key_raises reference_codec digest
           {| self := exporter uploading_client; world := with_credential |}
           [ ("name", JStr "plan") ] [span trace_a "answer"] "context").
  left. split; reflexivity.
Defined.

Lemma export_leaves_other_files_witness :
  let e := self (after_a uploading_client with_credential) in
  let w := world (after_a uploading_client with_credential) in
  fs (world (snd (run_export [span trace_b "plan"] {| self := e; world := w |})))
    !! snapshot_path "/tmp/raga_temp" trace_a =
    fs w !! snapshot_path "/tmp/raga_temp" trace_a.
Proof.
  apply (@ExportFacts.export_leaves_other_files reference_codec digest
           (self (after_a uploading_client with_credential))
           (world (after_a uploading_client with_credential))
           [span trace_b "plan"] (snapshot_path "/tmp/raga_temp" trace_a)).
  - intros t Ht. vm_compute in Ht. injection Ht as <-.
    split; vm_compute; discriminate.
  - vm_compute. discriminate.
Defined.

Lemma export_deletes_nothing_witness :
  let e := self (after_a uploading_client with_credential) in
  let w := world (after_a uploading_client with_credential) in
  is_Some
    (fs (world (snd (run_export [span trace_b "plan"] {| self := e; world := w |})))
     !! snapshot_path "/tmp/raga_temp" trace_a).
Proof.
  apply (@ExportFacts.export_deletes_nothing reference_codec digest
           (self (after_a uploading_client with_credential))
           (world (after_a uploading_client with_credential))
           [span trace_b "plan"] (snapshot_path "/tmp/raga_temp" trace_a)).
  vm_compute. eauto.
Defined.

Lemma export_changes_only_the_id_witness :
  let e := exporter uploading_client in
  let w := with_credential in
  let md := [ ("env", JStr "test") ] in
  let pl := [ ("llm_model", JStr "m") ] in
  exists md' pl',
    metadata (self (snd (run_export [span trace_a "plan"]
                           {| self := e; world := w |}))) = JObj md' /\
    pipeline (self (snd (run_export [span trace_a "plan"]
                           {| self := e; world := w |}))) = JObj pl' /\
    Py.dict_get "id" md' = Some (JStr (digest (JObj md))) /\
    Py.dict_get "id" pl' = Some (JStr (digest (JObj pl))) /\
    (forall k, k <> "id" ->
       Py.dict_get k md' = Py.dict_get k md /\
       Py.dict_get k pl' = Py.dict_get k pl) /\
    map fst md' = match Py.dict_get "id" md with
                  | Some _ => map fst md
                  | None => map fst md ++ ["id"]
                  end /\
    map fst pl' = match Py.dict_get "id" pl with
                  | Some _ => map fst pl
                  | None => map fst pl ++ ["id"]
                  end.
Proof.
  apply (@ExportFacts.export_changes_only_the_id reference_codec digest
           (exporter uploading_client) with_credential trace_a
           [span trace_a "plan"]).
  all: try reflexivity.
  split; reflexivity.
Defined.

Lemma tracer_holds_the_last_envelope_witness :
  let e := exporter uploading_client in
  let w := with_credential in
  fs (world (snd (run_exports calls_for_a {| self := e; world := w |})))
    !! tracer_path (cwd w) =
    Some (@json_dumps_indent reference_codec
            (List.last (envelopes digest e trace_a calls_for_a) JNull)).
Proof.
  apply (@ExportFacts.tracer_holds_the_last_envelope reference_codec digest
           (exporter uploading_client) with_credential trace_a calls_for_a []).
  all: try reflexivity.
  - discriminate.
  - repeat constructor.
Defined.

Lemma staging_files_agree_witness :
  let e := exporter uploading_client in
  let w := with_credential in
  let files :=
    fs (world (snd (run_exports calls_for_a {| self := e; world := w |}))) in
  exists lines_text snapshot_text lines items,
    files !! jsonl_path (dir_name e) trace_a = Some lines_text /\
    files !! snapshot_path (dir_name e) trace_a = Some snapshot_text /\
    Text.lines lines_text = Some lines /\
    @json_loads reference_codec snapshot_text = Some (JArr items) /\
    map (@json_loads reference_codec) lines = map Some items /\
    length items = length calls_for_a.
Proof.
  apply (@ExportFacts.staging_files_agree reference_codec digest
           (exporter uploading_client) with_credential trace_a calls_for_a).
  all: try reflexivity.
  - discriminate.
  - repeat constructor.
Defined.

End ScenarioFacts.

(** ** Prompt compilation *)

Module PromptFacts.
Import PromptObject.
Import TextFacts.

(** *** [str.replace] *)

Lemma prefix_app (a r : string) : String.prefix a (a +:+ r) = true.
Proof.
  induction a as [|c a IH]; [now destruct r|].
  rewrite app_cons. cbn [String.prefix].
  destruct (ascii_dec c c); [exact IH | congruence].
Qed.

Lemma replace_from_skip (o old new r : string) :
  replace_from (String.length o) old new (o +:+ r) = replace_from 0 old new r.
Proof.
  induction o as [|c o IH]; [reflexivity|].
  rewrite app_cons. cbn [String.length replace_from]. exact IH.
Qed.

(** Nothing is left to replace in the empty text. *)
Lemma replace_empty (c : ascii) (o new : string) :
  replace (String c o) new EmptyString = EmptyString.
Proof. reflexivity. Qed.

(** An occurrence at the start is replaced, and the search goes on
    after it. *)
Lemma replace_here (c : ascii) (o new r : string) :
  replace (String c o) new (String c o +:+ r) =
    new +:+ replace (String c o) new r.
Proof.
  unfold replace. rewrite app_cons. cbn [replace_from].
  rewrite <- app_cons, prefix_app.
  cbn [String.length Nat.sub]. rewrite Nat.sub_0_r.
  now rewrite replace_from_skip.
Qed.

(** Where no occurrence starts, the character stays and the search
    goes on after it. *)
Lemma replace_next (c0 : ascii) (o new : string) (c : ascii) (r : string) :
  String.prefix (String c0 o) (String c r) = false ->
  replace (String c0 o) new (String c r) =
    String c (replace (String c0 o) new r).
Proof. intros H. unfold replace. cbn [replace_from]. now rewrite H. Qed.

Section Compile.

Variable V : Type.
Variable str : V -> string.

Abbreviation compile := (compile V str).

(** One [str.replace] of the placeholder of an argument is one pass
    over the text for that argument. *)
Lemma replace_is_one_pass (key : string) (value : V) (s : string) :
  replace (placeholder key) (str value) s =
    substitute_at_once V str s [(key, value)].
Proof.
  unfold replace, substitute_at_once.
  change (placeholder key) with (String "{" (String "{" (key +:+ "}}"))).
  generalize 0 as skip. induction s as [|c s IH]; intros skip; [reflexivity|].
  cbn [replace_from substitute_from List.find fst].
  destruct skip as [|k]; [|apply IH].
  change (placeholder key) with (String "{" (String "{" (key +:+ "}}"))).
  destruct (String.prefix _ (String c s)); now rewrite IH.
Qed.

Lemma compile_loop_in_turn (kwargs : list (string * V)) (text : string) :
  fold_left
    (fun compiled_prompt '(key, value) =>
       replace (placeholder key) (str value) compiled_prompt)
    kwargs text =
  substitute_in_turn V str text kwargs.
Proof.
  unfold substitute_in_turn. revert text.
  induction kwargs as [|[key value] kwargs IH]; intros text; [reflexivity|].
  cbn [fold_left]. now rewrite replace_is_one_pass, IH.
Qed.

(** C10, as the code has it.  [compile] raises a [ValueError]
    exactly when the names of the arguments and the variables of
    [get_variables] differ as sets; otherwise it returns the prompt
    text after one pass per argument, in the order of the arguments:
    each pass replaces every occurrence of that argument's [{{name}}]
    by [str(value)] in the result of the pass before, text put in by
    earlier passes included. *)
Theorem compile_raises_iff_names_differ
    (text : string) (kwargs : list (string * V)) :
  ((exists msg, compile text kwargs = Raise (ValueError msg)) <->
   provided_variables kwargs <> required_variables text) /\
  (provided_variables kwargs = required_variables text ->
   compile text kwargs = Ok (substitute_in_turn V str text kwargs)).
Proof.
  unfold PromptObject.compile. rewrite compile_loop_in_turn.
  unfold provided_variables, required_variables.
  set (required := list_to_set (get_variables text) : gset string).
  set (provided := list_to_set (map fst kwargs) : gset string).
  destruct (bool_decide (required ∖ provided = ∅)) eqn:Hmiss;
    [destruct (bool_decide (provided ∖ required = ∅)) eqn:Hextra|];
    cbn [negb].
  - apply bool_decide_eq_true in Hmiss, Hextra.
    assert (E : provided = required).
    { apply set_eq. intros x. split; intros Hx.
      - destruct (decide (x ∈ required)) as [|Hn]; [assumption|].
        assert (Hd : x ∈ provided ∖ required)
          by (apply elem_of_difference; split; assumption).
        rewrite Hextra in Hd. now apply not_elem_of_empty in Hd.
      - destruct (decide (x ∈ provided)) as [|Hn]; [assumption|].
        assert (Hd : x ∈ required ∖ provided)
          by (apply elem_of_difference; split; assumption).
        rewrite Hmiss in Hd. now apply not_elem_of_empty in Hd. }
    split; [|reflexivity].
    split; [intros [msg H]; discriminate | congruence].
  - apply bool_decide_eq_false in Hextra.
    assert (E : provided <> required).
    { intros E. apply Hextra. rewrite E. apply difference_diag_L. }
    split; [|congruence]. split; [intros _; exact E | eauto].
  - apply bool_decide_eq_false in Hmiss.
    assert (E : provided <> required).
    { intros E. apply Hmiss. rewrite E. apply difference_diag_L. }
    split; [|congruence]. split; [intros _; exact E | eauto].
Qed.

End Compile.

(** C10, as stated, fails: with arguments [a="{{b}}"] and [b="x"]
    for the text ["{{a}} {{b}}"] nothing is raised, and what is
    returned does not hold the string of [a]'s value where [{{a}}]
    stood: the replacement for [b] has gone through it. *)
Lemma compile_replaces_inserted_text :
  let text := "{{a}} {{b}}" in
  let kwargs := [ ("a", "{{b}}"); ("b", "x") ] in
  get_variables text = ["a"; "b"] /\
  substitute_at_once string id text kwargs = "{{b}} x" /\
  compile string id text kwargs = Ok "x x" /\
  compile string id text kwargs <>
    Ok (substitute_at_once string id text kwargs).
Proof. vm_compute. repeat split. discriminate. Qed.

(** The order of the arguments shows in the result. *)
Example compile_depends_on_argument_order :
  compile string id "{{a}} {{b}}" [ ("a", "{{b}}"); ("b", "x") ] = Ok "x x" /\
  compile string id "{{a}} {{b}}" [ ("b", "x"); ("a", "{{b}}") ] = Ok "{{b}} x".
Proof. vm_compute. split; reflexivity. Qed.

(** A variable written with blanks inside the braces is required by
    name and left in the text as it is. *)
Example compile_keeps_spaced_placeholder :
  get_variables "Hi {{ name }}" = ["name"] /\
  compile string id "Hi {{ name }}" [ ("name", "Bob") ] = Ok "Hi {{ name }}".
Proof. vm_compute. split; reflexivity. Qed.

End PromptFacts.

(** ** Variables of a prompt *)

Module PromptInitFacts.
Import PromptObject PromptInit.
Import TextFacts PromptFacts.

(** *** Stripping *)

Lemma lstrip_is_lstrip_by (s : string) : lstrip s = lstrip_by is_space s.
Proof.
  induction s as [|c s IH]; [reflexivity|].
  cbn [lstrip lstrip_by]. now rewrite IH.
Qed.

Lemma rstrip_is_rstrip_by (s : string) : rstrip s = rstrip_by is_space s.
Proof.
  induction s as [|c s IH]; [reflexivity|].
  cbn [rstrip rstrip_by]. now rewrite IH.
Qed.

Lemma lstrip_by_starts (p : ascii -> bool) (s : string) :
  starts_with p (lstrip_by p s) = false.
Proof.
  induction s as [|c s IH]; [reflexivity|].
  cbn [lstrip_by]. destruct (p c) eqn:E; [exact IH|].
  cbn [starts_with]. exact E.
Qed.

Lemma rstrip_by_starts (p : ascii -> bool) (s : string) :
  starts_with p s = false -> starts_with p (rstrip_by p s) = false.
Proof.
  destruct s as [|c s]; [reflexivity|]. cbn [starts_with rstrip_by].
  intros E. destruct (rstrip_by p s); [rewrite E|]; exact E.
Qed.

Lemma rstrip_by_ends (p : ascii -> bool) (s : string) :
  ends_with p (rstrip_by p s) = false.
Proof.
  induction s as [|c s IH]; [reflexivity|].
  cbn [rstrip_by]. destruct (rstrip_by p s) as [|c' s'] eqn:E.
  - destruct (p c) eqn:Ec; [reflexivity|]. cbn [ends_with]. exact Ec.
  - cbn [ends_with] in *. exact IH.
Qed.

Lemma mem_lstrip_by (p : ascii -> bool) (x : ascii) (s : string) :
  Text.mem x s = false -> Text.mem x (lstrip_by p s) = false.
Proof.
  induction s as [|c s IH]; [reflexivity|].
  cbn [lstrip_by Text.mem]. intros H.
  destruct (p c); [|exact H].
  destruct (Ascii.eqb c x); [discriminate | now apply IH].
Qed.

Lemma mem_rstrip_by (p : ascii -> bool) (x : ascii) (s : string) :
  Text.mem x s = false -> Text.mem x (rstrip_by p s) = false.
Proof.
  induction s as [|c s IH]; [reflexivity|].
  cbn [rstrip_by Text.mem]. intros H.
  destruct (Ascii.eqb c x) eqn:Ec; [discriminate|].
  specialize (IH H).
  destruct (rstrip_by p s) as [|c' s'].
  - destruct (p c); [reflexivity|]. cbn [Text.mem]. now rewrite Ec.
  - cbn [Text.mem] in *. now rewrite Ec.
Qed.

(** What [strip] gives has no blank at either end, and holds no
    character that was not there. *)
Lemma strip_clean (s : string) :
  starts_with is_space (strip s) = false /\
  ends_with is_space (strip s) = false /\
  (forall x, Text.mem x s = false -> Text.mem x (strip s) = false).
Proof.
  unfold strip. rewrite lstrip_is_lstrip_by, rstrip_is_rstrip_by.
  split; [|split].
  - apply rstrip_by_starts, lstrip_by_starts.
  - apply rstrip_by_ends.
  - intros x H. now apply mem_rstrip_by, mem_lstrip_by.
Qed.

(** *** The matches of the pattern *)

Lemma lazy_group_one_line (s g : string) :
  lazy_group s = Some g -> Text.mem Text.newline g = false.
Proof.
  revert g. induction s as [|c s IH]; intros g; [discriminate|].
  cbn [lazy_group].
  destruct (Ascii.eqb c close_brace && Text.startswith close_brace s).
  - intros [= <-]. reflexivity.
  - destruct (Ascii.eqb c Text.newline) eqn:Ec; [discriminate|].
    destruct (lazy_group s) as [g'|]; [|discriminate].
    intros [= <-]. cbn [Text.mem]. rewrite Ec. now apply IH.
Qed.

Lemma findall_one_line (s : string) :
  forall skip, Forall (fun g => Text.mem Text.newline g = false)
                 (findall_from skip s).
Proof.
  induction s as [|c s IH]; intros skip; [constructor|].
  cbn [findall_from]. destruct skip as [|k]; [|apply IH].
  destruct (match_here (String c s)) as [g|] eqn:E; [|apply IH].
  constructor; [|apply IH].
  unfold match_here in E. destruct s as [|c2 r]; [discriminate|].
  destruct (Ascii.eqb c open_brace && Ascii.eqb c2 open_brace); [|discriminate].
  now apply lazy_group_one_line in E.
Qed.

(** X14.  Every name that [get_variables] returns is stripped, holds
    no double quote and lies on one line. *)
Theorem get_variables_names_are_clean (text : string) :
  Forall
    (fun name =>
       starts_with is_space name = false /\
       ends_with is_space name = false /\
       Text.mem double_quote name = false /\
       Text.mem Text.newline name = false)
    (get_variables text).
Proof.
  unfold get_variables. apply Forall_map.
  pose proof (findall_one_line text 0) as Hall. fold (findall text) in Hall.
  induction Hall as [|g gs Hg _ IH]; cbn [List.filter]; [constructor|].
  destruct (Text.mem double_quote g) eqn:Hq; cbn [negb]; [exact IH|].
  constructor; [|exact IH].
  destruct (strip_clean g) as (H1 & H2 & H3). auto.
Qed.

(** *** Texts without an opening *)

Lemma prefix_open (c : ascii) (r : string) :
  String.prefix "{{" (String c r) =
    Ascii.eqb c open_brace && Text.startswith open_brace r.
Proof.
  assert (Hone : forall x s, String.prefix "{" (String x s) = Ascii.eqb x open_brace).
  { intros x s. cbn [String.prefix]. destruct (ascii_dec "{" x) as [<-|N].
    - now destruct s.
    - symmetry. apply Ascii.eqb_neq. intros ->. now apply N. }
  change "{{" with (String "{" "{"). cbn [String.prefix].
  destruct (ascii_dec "{" c) as [<-|N].
  - destruct r as [|c2 r]; [reflexivity|]. now rewrite Hone.
  - replace (Ascii.eqb c open_brace) with false; [reflexivity|].
    symmetry. apply Ascii.eqb_neq. intros ->. now apply N.
Qed.

Lemma match_here_open (c : ascii) (r : string) :
  Ascii.eqb c open_brace && Text.startswith open_brace r = false ->
  match_here (String c r) = None.
Proof.
  unfold match_here. destruct r as [|c2 r]; [reflexivity|].
  cbn [Text.startswith]. now intros ->.
Qed.

Lemma has_open_mem (s : string) :
  Text.mem open_brace s = false -> has_open s = false.
Proof.
  induction s as [|c s IH]; [reflexivity|]. cbn [Text.mem has_open].
  destruct (Ascii.eqb c open_brace); [discriminate|]. exact IH.
Qed.

Lemma findall_closed (s : string) : has_open s = false -> findall s = [].
Proof.
  unfold findall. induction s as [|c s IH]; [reflexivity|].
  cbn [has_open]. intros H. apply orb_false_iff in H as [H1 H2].
  cbn [findall_from]. rewrite (match_here_open _ _ H1). now apply IH.
Qed.

Lemma split_closed (s : string) : has_open s = false -> split "{{" s = [s].
Proof.
  unfold split. induction s as [|c s IH]; [reflexivity|].
  cbn [has_open]. intros H. apply orb_false_iff in H as [H1 H2].
  cbn [split_from]. rewrite prefix_open, H1. now rewrite (IH H2).
Qed.

Lemma placeholder_absent (key s : string) :
  has_open s = false -> occurs (placeholder key) s = false.
Proof.
  change (placeholder key) with (String "{" (String "{" (key +:+ "}}"))).
  induction s as [|c s IH]; [reflexivity|].
  cbn [has_open]. intros H. apply orb_false_iff in H as [H1 H2].
  cbn [occurs]. rewrite (IH H2), orb_false_r.
  cbn [String.prefix]. destruct (ascii_dec "{" c) as [<-|N]; [|reflexivity].
  destruct s as [|c2 s]; [reflexivity|]. cbn [String.prefix].
  destruct (ascii_dec "{" c2) as [<-|N2]; [discriminate H1 | reflexivity].
Qed.

(** [str.replace] of a text that does not occur changes nothing. *)
Lemma replace_absent (c0 : ascii) (o new s : string) :
  occurs (String c0 o) s = false -> replace (String c0 o) new s = s.
Proof.
  induction s as [|c s IH]; [reflexivity|].
  cbn [occurs]. intros H. apply orb_false_iff in H as [H1 H2].
  rewrite (replace_next _ _ _ _ _ H1). now rewrite (IH H2).
Qed.

(** *** Text in front of a placeholder *)

Lemma before_open_cons (c : ascii) (r t : string) :
  before_open (String c r) = true ->
  Ascii.eqb c open_brace && Text.startswith open_brace (r +:+ t) = false /\
  before_open r = true.
Proof.
  unfold before_open. cbn [has_open]. intros H.
  apply andb_true_iff in H as [H1 H2].
  apply negb_true_iff in H1, H2. apply orb_false_iff in H1 as [H1 H3].
  destruct r as [|c2 r].
  - cbn [Text.endswith] in H2. rewrite H2. now split.
  - rewrite app_cons. cbn [Text.startswith] in *. split; [exact H1|].
    change (Text.endswith open_brace (String c2 r) = false) in H2.
    now rewrite H3, H2.
Qed.

Lemma before_open_mem (pre : string) :
  Text.mem open_brace pre = false -> before_open pre = true.
Proof.
  intros H. unfold before_open. rewrite (has_open_mem _ H). cbn [negb andb].
  apply negb_true_iff.
  induction pre as [|c r IH]; [reflexivity|]. cbn [Text.mem] in H.
  destruct (Ascii.eqb c open_brace) eqn:E; [discriminate|].
  destruct r; [exact E | now apply IH].
Qed.

Lemma findall_before_open (pre t : string) :
  before_open pre = true -> findall (pre +:+ t) = findall t.
Proof.
  unfold findall. induction pre as [|c r IH]; intros H; [reflexivity|].
  destruct (before_open_cons c r t H) as [H1 H2].
  rewrite app_cons. cbn [findall_from].
  rewrite (match_here_open _ _ H1). now apply IH.
Qed.

Lemma findall_from_skip (o r : string) :
  findall_from (String.length o) (o +:+ r) = findall_from 0 r.
Proof.
  induction o as [|c o IH]; [reflexivity|].
  rewrite app_cons. cbn [String.length findall_from]. exact IH.
Qed.

Lemma lazy_group_name (name rest : string) :
  Text.mem close_brace name = false ->
  Text.mem Text.newline name = false ->
  lazy_group (name +:+ "}}" +:+ rest) = Some name.
Proof.
  induction name as [|c name IH]; intros Hc Hn; [reflexivity|].
  cbn [Text.mem] in Hc, Hn. rewrite app_cons. cbn [lazy_group].
  destruct (Ascii.eqb c close_brace); [discriminate|].
  destruct (Ascii.eqb c Text.newline); [discriminate|].
  cbn [andb]. now rewrite IH.
Qed.

Lemma findall_from_match (c : ascii) (s g : string) :
  match_here (String c s) = Some g ->
  findall_from 0 (String c s) = g :: findall_from (String.length g + 3) s.
Proof. intros H. cbn [findall_from]. now rewrite H. Qed.

Lemma findall_placeholder (name rest : string) :
  Text.mem close_brace name = false ->
  Text.mem Text.newline name = false ->
  findall ("{{" +:+ name +:+ "}}" +:+ rest) = name :: findall rest.
Proof.
  intros Hc Hn. unfold findall.
  change ("{{" +:+ name +:+ "}}" +:+ rest)
    with (String "{" (String "{" (name +:+ "}}" +:+ rest))).
  rewrite (findall_from_match _ _ name)
    by exact (lazy_group_name name rest Hc Hn).
  f_equal.
  replace (String "{" (name +:+ "}}" +:+ rest))
    with ((String "{" (name +:+ "}}")) +:+ rest)
    by (now rewrite (app_cons "{" (name +:+ "}}") rest), app_assoc).
  replace (String.length name + 3)
    with (String.length (String "{" (name +:+ "}}")))
    by (cbn [String.length]; rewrite length_app; cbn [String.length]; lia).
  exact (findall_from_skip (String "{" (name +:+ "}}")) rest).
Qed.

(** X15.  A placeholder with text in front adds its stripped name in
    front of the variables of what follows it; a name that holds a
    double quote is left out. *)
Theorem get_variables_at_placeholder (pre name rest : string) :
  before_open pre = true ->
  Text.mem close_brace name = false ->
  Text.mem Text.newline name = false ->
  get_variables (pre +:+ "{{" +:+ name +:+ "}}" +:+ rest) =
    if Text.mem double_quote name then get_variables rest
    else strip name :: get_variables rest.
Proof.
  intros Hpre Hc Hn. unfold get_variables.
  rewrite (findall_before_open _ _ Hpre), (findall_placeholder _ _ Hc Hn).
  cbn [List.filter]. now destruct (Text.mem double_quote name).
Qed.

(** *** [str.split] and [str.strip] on a text with one opening *)

Lemma split_before_open (pre rest : string) :
  before_open pre = true ->
  split "{{" (pre +:+ "{{" +:+ rest) = pre :: split "{{" rest.
Proof.
  unfold split. induction pre as [|c r IH]; intros H.
  - change ("" +:+ "{{" +:+ rest) with (String "{" (String "{" rest)).
    cbn [split_from]. rewrite prefix_open. reflexivity.
  - destruct (before_open_cons c r ("{{" +:+ rest) H) as [H1 H2].
    rewrite app_cons. cbn [split_from]. rewrite prefix_open, H1.
    now rewrite (IH H2).
Qed.

Lemma lstrip_by_id (p : ascii -> bool) (s : string) :
  starts_with p s = false -> lstrip_by p s = s.
Proof. destruct s as [|c s]; [reflexivity|]. cbn. now intros ->. Qed.

Lemma rstrip_by_id (p : ascii -> bool) (s : string) :
  ends_with p s = false -> rstrip_by p s = s.
Proof.
  induction s as [|c s IH]; [reflexivity|]. cbn [ends_with rstrip_by].
  destruct s as [|c2 s].
  - cbn [rstrip_by]. now intros ->.
  - intros H. now rewrite (IH H).
Qed.

Lemma rstrip_by_closing (name : string) :
  rstrip_by is_brace (name +:+ "}}") = rstrip_by is_brace name.
Proof.
  induction name as [|c name IH]; [reflexivity|].
  rewrite app_cons. cbn [rstrip_by]. now rewrite IH.
Qed.

Lemma ends_with_app (p : ascii -> bool) (a : string) (c : ascii) (b : string) :
  ends_with p (a +:+ String c b) = ends_with p (String c b).
Proof.
  induction a as [|x a IH]; [reflexivity|].
  rewrite app_cons. cbn [ends_with]. rewrite IH.
  destruct a; reflexivity.
Qed.

Lemma has_open_app (a b : string) :
  Text.mem open_brace a = false -> has_open b = false ->
  has_open (a +:+ b) = false.
Proof.
  induction a as [|c a IH]; intros Ha Hb; [exact Hb|].
  cbn [Text.mem] in Ha. rewrite app_cons. cbn [has_open].
  destruct (Ascii.eqb c open_brace); [discriminate|]. now apply IH.
Qed.

Lemma no_brace_ends (s : string) :
  Text.mem open_brace s = false -> Text.mem close_brace s = false ->
  starts_with is_brace s = false /\ ends_with is_brace s = false.
Proof.
  assert (Hc : forall c, Ascii.eqb c open_brace = false ->
                 Ascii.eqb c close_brace = false -> is_brace c = false).
  { intros c H1 H2. unfold is_brace. cbn [Text.mem].
    rewrite Ascii.eqb_sym in H1. rewrite Ascii.eqb_sym in H2.
    change (Ascii.eqb "{" c) with (Ascii.eqb open_brace c).
    change (Ascii.eqb "}" c) with (Ascii.eqb close_brace c).
    now rewrite H1, H2. }
  induction s as [|c s IH]; [now split|]. cbn [Text.mem]. intros H1 H2.
  destruct (Ascii.eqb c open_brace) eqn:E1; [discriminate|].
  destruct (Ascii.eqb c close_brace) eqn:E2; [discriminate|].
  destruct (IH H1 H2) as [_ IH2]. cbn [starts_with ends_with].
  split; [now apply Hc|]. destruct s; [now apply Hc | exact IH2].
Qed.

(** X16.  [__init__] keeps in [variables] what [_extract_variables]
    finds, and for a prompt with one placeholder that is the name
    only when the placeholder ends the text: otherwise the entry is
    the name together with [}}] and all the text after it, whereas
    [get_variables] gives the stripped name. *)
Theorem variables_keep_the_text_after (pre name post : string) :
  before_open pre = true ->
  name <> EmptyString ->
  Text.mem open_brace name = false ->
  Text.mem close_brace name = false ->
  Text.mem Text.newline name = false ->
  Text.mem double_quote name = false ->
  has_open post = false ->
  ends_with is_brace post = false ->
  let prompt := __init__ (pre +:+ "{{" +:+ name +:+ "}}" +:+ post) in
  variables prompt =
    [ match post with
      | EmptyString => name
      | _ => name +:+ "}}" +:+ post
      end ] /\
  get_variables (text prompt) = [strip name].
Proof.
  intros Hpre Hne Ho Hc Hn Hq Hpost Hend. cbn [__init__ variables text].
  split.
  - unfold _extract_variables. rewrite (split_before_open _ _ Hpre).
    cbn [List.tl].
    assert (Htail : has_open (name +:+ "}}" +:+ post) = false).
    { apply has_open_app; [exact Ho|].
      change ("}}" +:+ post) with (String "}" (String "}" post)).
      cbn [has_open Text.startswith]. exact Hpost. }
    rewrite (split_closed _ Htail). cbn [map]. f_equal.
    destruct (no_brace_ends name Ho Hc) as [Hs He].
    unfold strip_chars. fold is_brace.
    change (fun c : ascii => Text.mem c "{}") with is_brace.
    rewrite lstrip_by_id
      by (destruct name; [congruence | rewrite app_cons; exact Hs]).
    destruct post as [|c post].
    + change (name +:+ "}}" +:+ "") with (name +:+ "}}").
      rewrite rstrip_by_closing. now apply rstrip_by_id.
    + apply rstrip_by_id. rewrite <- app_assoc.
      rewrite ends_with_app. exact Hend.
  - rewrite (get_variables_at_placeholder _ _ _ Hpre Hc Hn), Hq.
    unfold get_variables. now rewrite (findall_closed _ Hpost).
Qed.

(** X17.  No entry of [variables] begins or ends with a brace. *)
Theorem variables_have_no_brace_at_the_ends (text : string) :
  Forall
    (fun name =>
       starts_with is_brace name = false /\ ends_with is_brace name = false)
    (variables (__init__ text)).
Proof.
  cbn [__init__ variables]. unfold _extract_variables. apply Forall_map.
  apply Forall_forall. intros piece _. unfold strip_chars, is_brace. split.
  - apply rstrip_by_starts, lstrip_by_starts.
  - apply rstrip_by_ends.
Qed.

(** *** [str.replace] around one placeholder *)

Lemma prefix_placeholder (key : string) (c : ascii) (r : string) :
  Ascii.eqb c open_brace && Text.startswith open_brace r = false ->
  String.prefix (placeholder key) (String c r) = false.
Proof.
  change (placeholder key) with (String "{" (String "{" (key +:+ "}}"))).
  intros H. cbn [String.prefix].
  destruct (ascii_dec "{" c) as [<-|N]; [|reflexivity].
  destruct r as [|c2 r]; [reflexivity|]. cbn [String.prefix].
  destruct (ascii_dec "{" c2) as [<-|N2]; [discriminate H | reflexivity].
Qed.

Lemma replace_before_open (key new pre t : string) :
  before_open pre = true ->
  replace (placeholder key) new (pre +:+ t) =
    pre +:+ replace (placeholder key) new t.
Proof.
  induction pre as [|c r IH]; intros H; [reflexivity|].
  destruct (before_open_cons c r t H) as [H1 H2].
  rewrite !app_cons. pose proof (prefix_placeholder key _ _ H1) as Hp.
  change (placeholder key) with (String "{" (String "{" (key +:+ "}}"))) in *.
  rewrite (replace_next _ _ _ _ _ Hp). now rewrite (IH H2).
Qed.

Section Compile.

Variable V : Type.
Variable str : V -> string.

Abbreviation compile := (compile V str).

Lemma compile_loop_absent (text : string) (kwargs : list (string * V)) :
  Forall (fun kv => occurs (placeholder (fst kv)) text = false) kwargs ->
  fold_left
    (fun compiled_prompt '(key, value) =>
       replace (placeholder key) (str value) compiled_prompt)
    kwargs text = text.
Proof.
  induction 1 as [|[key value] kwargs H _ IH]; [reflexivity|].
  cbn [fold_left]. cbn [fst] in H.
  change (placeholder key) with (String "{" (String "{" (key +:+ "}}"))) in *.
  rewrite (replace_absent _ _ _ _ H). exact IH.
Qed.

Lemma compile_same_names (text : string) (kwargs : list (string * V)) :
  provided_variables kwargs = required_variables text ->
  compile text kwargs =
    Ok (fold_left
          (fun compiled_prompt '(key, value) =>
             replace (placeholder key) (str value) compiled_prompt)
          kwargs text).
Proof.
  unfold provided_variables, required_variables, PromptObject.compile.
  intros ->. rewrite !difference_diag_L.
  rewrite bool_decide_eq_true_2 by reflexivity. reflexivity.
Qed.

(** X18.  A prompt text without [{{] has no variables, by
    [get_variables] and by [_extract_variables]; [compile] without
    arguments returns it as it is, and [compile] with any argument
    raises a [ValueError]. *)
Theorem text_without_placeholder (text : string) :
  has_open text = false ->
  get_variables text = [] /\
  _extract_variables text = [] /\
  compile text [] = Ok text /\
  (forall kv kwargs, exists msg,
     compile text (kv :: kwargs) = Raise (ValueError msg)).
Proof.
  intros H.
  assert (Hv : get_variables text = [])
    by (unfold get_variables; now rewrite (findall_closed _ H)).
  split; [exact Hv|]. split; [|split].
  - unfold _extract_variables. now rewrite (split_closed _ H).
  - rewrite compile_same_names; [reflexivity|].
    unfold provided_variables, required_variables. now rewrite Hv.
  - intros [key value] kwargs. unfold PromptObject.compile. rewrite Hv.
    cbn [map fst list_to_set].
    rewrite difference_empty_L.
    assert (E : (∅ : gset string) ∖ ({[key]} ∪ list_to_set (map fst kwargs)) = ∅).
    { apply set_eq. intros x. rewrite elem_of_difference.
      split; [intros [Hx _]; exact Hx | intros Hx; now apply not_elem_of_empty in Hx]. }
    rewrite E. rewrite bool_decide_eq_true_2 by reflexivity. cbn [negb].
    rewrite bool_decide_eq_false_2; [cbn [negb]; eauto|].
    intros E2. assert (Hk : key ∈ ({[key]} ∪ list_to_set (map fst kwargs) : gset string))
      by (apply elem_of_union; left; now apply elem_of_singleton).
    rewrite E2 in Hk. now apply not_elem_of_empty in Hk.
Qed.

(** X19.  When the names of the arguments are the variables of the
    prompt and the placeholder [{{name}}] of no argument occurs in
    the text (the variables are written with blanks inside the
    braces, say), [compile] returns the text unchanged. *)
Theorem compile_without_literal_placeholders
    (text : string) (kwargs : list (string * V)) :
  provided_variables kwargs = required_variables text ->
  Forall (fun kv => occurs (placeholder (fst kv)) text = false) kwargs ->
  compile text kwargs = Ok text.
Proof.
  intros Hnames Habsent. rewrite (compile_same_names _ _ Hnames).
  now rewrite (compile_loop_absent _ _ Habsent).
Qed.

(** X20.  For a prompt with one placeholder, written without blanks,
    [compile] with that one argument returns the text with
    [str(value)] in the place of the placeholder. *)
Theorem compile_fills_the_placeholder
    (pre name post : string) (value : V) :
  before_open pre = true ->
  Text.mem close_brace name = false ->
  Text.mem Text.newline name = false ->
  Text.mem double_quote name = false ->
  strip name = name ->
  has_open post = false ->
  compile (pre +:+ "{{" +:+ name +:+ "}}" +:+ post) [(name, value)] =
    Ok (pre +:+ str value +:+ post).
Proof.
  intros Hpre Hc Hn Hq Hstrip Hpost.
  rewrite compile_same_names.
  - cbn [fold_left]. rewrite (replace_before_open _ _ _ _ Hpre).
    replace ("{{" +:+ name +:+ "}}" +:+ post) with (placeholder name +:+ post)
      by (unfold placeholder; now rewrite !app_assoc).
    pose proof (placeholder_absent name post Hpost) as Habs.
    change (placeholder name)
      with (String "{" (String "{" (name +:+ "}}"))) in *.
    rewrite replace_here, (replace_absent _ _ _ _ Habs). reflexivity.
  - unfold provided_variables, required_variables.
    rewrite (get_variables_at_placeholder _ _ _ Hpre Hc Hn), Hq, Hstrip.
    unfold get_variables. now rewrite (findall_closed _ Hpost).
Qed.

End Compile.

(** *** The statements above at work *)

Lemma text_without_placeholder_witness :
  get_variables "Say { hi }" = [] /\
  _extract_variables "Say { hi }" = [] /\
  compile string id "Say { hi }" [] = Ok "Say { hi }" /\
  (forall kv kwargs, exists msg,
     compile string id "Say { hi }" (kv :: kwargs) = Raise (ValueError msg)).
Proof.
  apply (text_without_placeholder string id "Say { hi }"). reflexivity.
Defined.

Lemma compile_without_literal_placeholders_witness :
  compile string id "Hi {{ name }}" [ ("name", "Bob") ] = Ok "Hi {{ name }}".
Proof.
  apply (compile_without_literal_placeholders string id).
  - vm_compute. reflexivity.
  - constructor; [reflexivity | constructor].
Defined.

Lemma get_variables_at_placeholder_witness :
  get_variables "Dear {{ name }}, see {{x}}" =
    "name" :: get_variables ", see {{x}}".
Proof.
  exact (get_variables_at_placeholder "Dear " " name " ", see {{x}}"
           eq_refl eq_refl eq_refl).
Defined.

Lemma variables_keep_the_text_after_witness :
  variables (__init__ "Hello {{name}}!") = ["name}}!"] /\
  get_variables (text (__init__ "Hello {{name}}!")) = ["name"].
Proof.
  apply (variables_keep_the_text_after "Hello " "name" "!");
    try reflexivity.
  discriminate.
Defined.

Lemma compile_fills_the_placeholder_witness :
  compile string id "Hello {{name}}!" [ ("name", "Bob") ] = Ok "Hello Bob!".
Proof.
  apply (compile_fills_the_placeholder string id "Hello " "name" "!" "Bob");
    reflexivity.
Defined.

End PromptInitFacts.

(** ** The prompt service *)

Module HttpFacts.
Import Http.
Local Open Scope http_scope.

(** *** Computations *)

Lemma bind_inv {A B : Type} (c : H A) (k : A -> H B) (w w' : World)
    (r : outcome B) :
  bind c k w = (r, w') ->
  (exists a w1, c w = (Returned a, w1) /\ k a w1 = (r, w')) \/
  (exists e, c w = (Raised e, w') /\ r = Raised e).
Proof.
  unfold bind. destruct (c w) as [[a|e] w1]; intros E.
  - left. eauto.
  - right. injection E as <- <-. eauto.
Qed.

Lemma bind_snd_lift {A B : Type} (r : outcome A) (k : A -> H B) (w : World) :
  (forall a, snd (k a w) = w) -> snd (bind (lift r) k w) = w.
Proof. intros Hk. unfold bind, lift. destruct r; [apply Hk | reflexivity]. Qed.

Lemma try_except_snd {A : Type} (c : H A) (handler : error -> option error)
    (w : World) :
  snd (try_except c handler w) = snd (c w).
Proof. unfold try_except. now destruct (c w) as [[a|e] w']. Qed.

Lemma try_except_returned {A : Type} (c : H A)
    (handler : error -> option error) (w w' : World) (a : A) :
  try_except c handler w = (Returned a, w') <-> c w = (Returned a, w').
Proof.
  unfold try_except. destruct (c w) as [[a'|e] w1]; [reflexivity|].
  split; discriminate.
Qed.

Lemma try_except_raised {A : Type} (c : H A)
    (handler : error -> option error) (w w' : World) (e' : error) :
  try_except c handler w = (Raised e', w') ->
  exists e, c w = (Raised e, w') /\ e' = default e (handler e).
Proof.
  unfold try_except. destruct (c w) as [[a'|e] w1]; [discriminate|].
  intros [= <- <-]. eauto.
Qed.

Lemma logged_logged (w : World) (a b : list Request) :
  logged (logged w a) b = logged w (a ++ b).
Proof. unfold logged. cbn. now rewrite <- List.app_assoc. Qed.

Section Network.

Variable network : Network.

Lemma requests_get_snd (request : Request) (w : World) :
  snd (requests_get network request w) = logged w [request].
Proof. unfold requests_get. now destruct (network _ _). Qed.

Lemma raise_for_status_snd (response : Response) (w : World) :
  snd (raise_for_status response w) = w.
Proof. unfold raise_for_status. now destruct (http_error response). Qed.

(** A request, the check of its status, and a computation on the
    response that sends nothing: one request is logged, however it
    ends. *)
Lemma one_request_snd {A : Type} (request : Request) (k : Response -> H A)
    (w : World) :
  (forall response w1, snd (k response w1) = w1) ->
  snd ((response <- requests_get network request ;;
        raise_for_status response ;;;
        k response) w) = logged w [request].
Proof.
  intros Hk. unfold bind at 1. unfold requests_get.
  destruct (network _ _) as [e|response]; [reflexivity|].
  unfold bind, raise_for_status.
  destruct (http_error response); [reflexivity|]. cbn. apply Hk.
Qed.

End Network.

End HttpFacts.

Module PromptServiceFacts.
Import Http HttpFacts.
Local Open Scope http_scope.

Lemma lift_inv {A : Type} (r : outcome A) (w w' : World) (a : A) :
  lift r w = (Returned a, w') -> r = Returned a /\ w' = w.
Proof. unfold lift. now intros [= -> ->]. Qed.

Lemma logged_nil (w : World) : logged w [] = w.
Proof. destruct w. unfold logged. cbn. now rewrite List.app_nil_r. Qed.

(** One step of a computation that has returned. *)
Ltac returned H :=
  let a := fresh "a" in
  let w := fresh "w" in
  let E := fresh "E" in
  apply bind_inv in H as [(a & w & E & H) | (? & _ & ?)]; [|discriminate].

Ltac lifted E :=
  apply lift_inv in E as [E ->].

Section Service.

Variable network : Network.
Variable repr : json -> string.

Abbreviation headers_t := (list (string * string)).

(** *** The requests of [Prompt] *)

Lemma text_fields_snd (response : Response) (w : World) :
  snd (Prompt.text_fields response w) = w.
Proof.
  unfold Prompt.text_fields, response_json.
  repeat (apply bind_snd_lift; intros ?). reflexivity.
Qed.

Lemma list_prompts_snd (url : string) (headers : headers_t) (timeout : Z)
    (w : World) :
  snd (Prompt.list_prompts network url headers timeout w) =
    logged w [Prompt.prompts_request url headers timeout].
Proof.
  unfold Prompt.list_prompts. rewrite try_except_snd.
  apply one_request_snd. intros response w1. unfold response_json.
  repeat (apply bind_snd_lift; intros ?). reflexivity.
Qed.

Lemma get_prompt_by_version_snd (base_url : string) (headers : headers_t)
    (timeout : Z) (prompt_name : string) (version : json) (w : World) :
  snd (Prompt.get_prompt_by_version network repr base_url headers timeout
         prompt_name version w) =
    logged w [Prompt.version_request repr base_url headers timeout
                prompt_name version].
Proof.
  unfold Prompt.get_prompt_by_version. rewrite try_except_snd.
  apply one_request_snd. intros response w1. apply text_fields_snd.
Qed.

Lemma get_prompt_snd (base_url : string) (headers : headers_t)
    (timeout : Z) (prompt_name : string) (version : option string)
    (w : World) :
  snd (Prompt.get_prompt network repr base_url headers timeout prompt_name
         version w) =
    logged w [Prompt.prompt_request repr base_url headers timeout
                prompt_name version].
Proof.
  unfold Prompt.get_prompt, Prompt.prompt_request. rewrite try_except_snd.
  unfold bind at 1. destruct (Prompt.truthy version).
  - pose proof (get_prompt_by_version_snd base_url headers timeout
                  prompt_name (JStr (default EmptyString version)) w) as E.
    destruct (Prompt.get_prompt_by_version _ _ _ _ _ _ _ w) as [[a|e] w1];
      exact E.
  - pose proof (one_request_snd network
                  (Prompt.latest_request base_url headers timeout prompt_name)
                  Prompt.text_fields w text_fields_snd) as E.
    destruct ((response <- requests_get network _ ;; _) w) as [[a|e] w1];
      exact E.
Qed.

Lemma fetch_versions_returned (base_url : string) (headers : headers_t)
    (timeout : Z) (prompt_name : string) (version_names : list json) :
  forall (d d' : Prompt.Versions) (w w' : World),
  Prompt.fetch_versions network repr base_url headers timeout prompt_name
    version_names d w = (Returned d', w') ->
  map fst d' = map fst d ++ version_names /\
  w' = logged w (map (Prompt.version_request repr base_url headers timeout
                        prompt_name) version_names).
Proof.
  induction version_names as [|version rest IH]; intros d d' w w' E.
  - cbn in E. injection E as <- <-.
    now rewrite List.app_nil_r, logged_nil.
  - cbn [Prompt.fetch_versions] in E. returned E.
    pose proof (get_prompt_by_version_snd base_url headers timeout
                  prompt_name version w) as Hw.
    rewrite E0 in Hw. cbn [snd] in Hw. subst w0.
    returned E. lifted E1.
    apply IH in E as [Hk ->]. rewrite logged_logged. split; [|reflexivity].
    rewrite Hk. unfold Prompt.setitem in E1.
    destruct version; try discriminate E1; injection E1 as <-;
      now rewrite map_app, <- List.app_assoc.
Qed.

(** X21.  When [Prompt.list_prompt_versions] returns, it has sent
    the request for the list of versions and then one request per
    name in that list, in order, and nothing else; the names are the
    keys under which it has stored the texts in the [dict] it
    returns. *)
Theorem list_prompt_versions_requests
    (base_url : string) (headers : headers_t) (timeout : Z)
    (prompt_name : string) (w w' : World) (versions : Prompt.Versions) :
  Prompt.list_prompt_versions network repr base_url headers timeout
    prompt_name w = (Returned versions, w') ->
  w' = logged w
         (Prompt.versions_request base_url headers timeout prompt_name ::
          map (Prompt.version_request repr base_url headers timeout
                 prompt_name) (map fst versions)).
Proof.
  unfold Prompt.list_prompt_versions. intros E.
  apply try_except_returned in E.
  returned E.
  pose proof (requests_get_snd network
                (Prompt.versions_request base_url headers timeout prompt_name)
                w) as Hw.
  rewrite E0 in Hw. cbn [snd] in Hw. subst w0.
  returned E.
  pose proof (raise_for_status_snd a (logged w
                [Prompt.versions_request base_url headers timeout
                   prompt_name])) as Hw.
  rewrite E1 in Hw. cbn [snd] in Hw. subst w0.
  returned E. unfold response_json in E2. lifted E2.
  returned E. lifted E3. returned E. lifted E4. returned E. lifted E5.
  apply fetch_versions_returned in E as [Hk ->].
  rewrite logged_logged. cbn [map app] in Hk. now rewrite Hk.
Qed.

(** *** The requests of [PromptManager] *)

Abbreviation listing self :=
  (Prompt.prompts_request (PromptManager.base_url self)
     (PromptManager.headers self) (PromptManager.timeout self)).

Lemma manager_list_prompts_snd (self : PromptManager.Manager) (w : World) :
  snd (PromptManager.list_prompts network self w) = logged w [listing self].
Proof.
  unfold PromptManager.list_prompts. rewrite try_except_snd.
  apply list_prompts_snd.
Qed.

Lemma manager_list_prompt_versions_returned
    (self : PromptManager.Manager) (prompt_name : string) (w w' : World)
    (versions : Prompt.Versions) :
  PromptManager.list_prompt_versions network repr self prompt_name w =
    (Returned versions, w') ->
  w' = logged w
         (listing self ::
          Prompt.versions_request (PromptManager.base_url self)
            (PromptManager.headers self) (PromptManager.timeout self)
            prompt_name ::
          map (Prompt.version_request repr (PromptManager.base_url self)
                 (PromptManager.headers self) (PromptManager.timeout self)
                 prompt_name) (map fst versions)).
Proof.
  unfold PromptManager.list_prompt_versions. intros E. returned E.
  pose proof (manager_list_prompts_snd self w) as Hw.
  rewrite <- (try_except_snd _
                (PromptManager.on_request_exception
                   "Error fetching prompt list: ")) in Hw.
  rewrite E0 in Hw. cbn [snd] in Hw. subst w0.
  destruct (negb (contains prompt_name a)); [discriminate|].
  apply try_except_returned, list_prompt_versions_requests in E as ->.
  now rewrite logged_logged.
Qed.

(** X22.  When [PromptManager.get_prompt] returns, it has sent the
    request for the list of prompts twice, the request for the list
    of versions, one request for the text of every version listed,
    and one more for the text it returns, in this order and nothing
    else; a version asked for by name is among those listed. *)
Theorem get_prompt_requests
    (self : PromptManager.Manager) (prompt_name : string)
    (version : option string) (w w' : World) (prompt : PromptInit.Object) :
  PromptManager.get_prompt network repr self prompt_name version w =
    (Returned prompt, w') ->
  exists versions : list json,
    (Prompt.truthy version = true ->
     contains (default EmptyString version) versions = true) /\
    w' = logged w
           ([ listing self; listing self;
              Prompt.versions_request (PromptManager.base_url self)
                (PromptManager.headers self) (PromptManager.timeout self)
                prompt_name ] ++
            map (Prompt.version_request repr (PromptManager.base_url self)
                   (PromptManager.headers self) (PromptManager.timeout self)
                   prompt_name) versions ++
            [ Prompt.prompt_request repr (PromptManager.base_url self)
                (PromptManager.headers self) (PromptManager.timeout self)
                prompt_name version ]).
Proof.
  unfold PromptManager.get_prompt. intros E. returned E.
  pose proof (manager_list_prompts_snd self w) as Hw.
  rewrite <- (try_except_snd _
                (PromptManager.on_request_exception
                   "Error fetching prompt list: ")) in Hw.
  rewrite E0 in Hw. cbn [snd] in Hw. subst w0.
  destruct (negb (contains prompt_name a)); [discriminate|].
  returned E.
  apply try_except_returned, manager_list_prompt_versions_returned in E1.
  subst w0. rewrite logged_logged in E.
  exists (map fst a0).
  destruct (Prompt.truthy version &&
            negb (contains (default EmptyString version) (map fst a0)))
    eqn:Hcheck; [discriminate|].
  split.
  - intros Ht. rewrite Ht in Hcheck. cbn [andb] in Hcheck.
    now apply negb_false_iff in Hcheck.
  - apply try_except_returned in E.
    match type of E with
    | _ ?w2 = _ =>
        pose proof (get_prompt_snd (PromptManager.base_url self)
                      (PromptManager.headers self)
                      (PromptManager.timeout self) prompt_name version w2)
          as Hw
    end.
    rewrite E in Hw. cbn [snd] in Hw. subst w'.
    now rewrite !logged_logged.
Qed.

(** *** The exceptions that leave [PromptManager.get_prompt] *)

(** Exceptions that the clauses of this file let through. *)
Definition outside (e : error) : Prop :=
  match e with
  | ValueError _ | TypeError | IndexError _ | Other false false _ => True
  | _ => False
  end.

Lemma handlers_raise (request_msg parse_msg : string) (index_error : bool)
    (e : error) :
  (exists m, default e (Prompt.handlers request_msg parse_msg index_error e) =
               RequestException (request_msg +:+ m)) \/
  outside (default e (Prompt.handlers request_msg parse_msg index_error e)).
Proof.
  destruct e as [m| |m|m|m|m|r j m]; cbn; eauto.
  - destruct index_error; cbn; eauto.
  - destruct r, j; cbn; eauto.
Qed.

Lemma on_request_exception_raise (msg : string) (e : error) :
  (exists m, e = RequestException m) \/ outside e ->
  (exists m, default e (PromptManager.on_request_exception msg e) =
               RequestException (msg +:+ m)) \/
  outside (default e (PromptManager.on_request_exception msg e)).
Proof.
  intros [[m ->] | Ho]; [cbn; eauto|].
  right. destruct e as [m| |m|m|m|m|r j m]; try exact Ho.
  destruct r, j; exact Ho.
Qed.

Lemma prompt_method_raises {A : Type} (c : H A)
    (request_msg parse_msg : string) (index_error : bool) (w w' : World)
    (e : error) :
  try_except c (Prompt.handlers request_msg parse_msg index_error) w =
    (Raised e, w') ->
  (exists m, e = RequestException m) \/ outside e.
Proof.
  intros E. apply try_except_raised in E as (e0 & _ & ->).
  destruct (handlers_raise request_msg parse_msg index_error e0)
    as [[m ->] | Ho]; eauto.
Qed.

Lemma manager_method_raises {A : Type} (c : H A) (msg : string)
    (w w' : World) (e : error) :
  (forall e0 w0, c w = (Raised e0, w0) ->
     (exists m, e0 = RequestException m) \/ outside e0) ->
  try_except c (PromptManager.on_request_exception msg) w = (Raised e, w') ->
  (exists m, e = RequestException (msg +:+ m)) \/ outside e.
Proof.
  intros Hc E. apply try_except_raised in E as (e0 & E & ->).
  apply on_request_exception_raise. eauto.
Qed.

Lemma weaken (msg : string) (e : error) :
  (exists m, e = RequestException (msg +:+ m)) \/ outside e ->
  (exists m, e = RequestException m) \/ outside e.
Proof. intros [[m ->] | Ho]; eauto. Qed.

Lemma manager_list_prompts_raises (self : PromptManager.Manager)
    (w w' : World) (e : error) :
  PromptManager.list_prompts network self w = (Raised e, w') ->
  (exists m, e = RequestException m) \/ outside e.
Proof.
  intros E. apply (weaken "Error listing prompts: ").
  revert E. apply manager_method_raises. intros e0 w0.
  apply prompt_method_raises.
Qed.

Lemma manager_list_prompt_versions_raises (self : PromptManager.Manager)
    (prompt_name : string) (w w' : World) (e : error) :
  PromptManager.list_prompt_versions network repr self prompt_name w =
    (Raised e, w') ->
  (exists m, e = RequestException m) \/ outside e.
Proof.
  unfold PromptManager.list_prompt_versions. intros E.
  apply bind_inv in E as [(a & w1 & E1 & E) | (e0 & E & [= ->])].
  - destruct (negb (contains prompt_name a)).
    + injection E as <- _. right. exact I.
    + apply (weaken "Error fetching prompt versions: ").
      revert E. apply manager_method_raises. intros e0 w0.
      apply prompt_method_raises.
  - apply (weaken "Error fetching prompt list: ").
    revert E. apply manager_method_raises. intros e1 w0.
    apply manager_list_prompts_raises.
Qed.

(** X23.  An exception that leaves [PromptManager.get_prompt] is a
    [requests.RequestException] of that very class whose message
    starts with [Error fetching prompt], or a [ValueError], or a
    [TypeError], or an [IndexError] or an exception of another class
    that derives neither from [requests.RequestException] nor from
    [json.JSONDecodeError]: never a [KeyError], a
    [json.JSONDecodeError], or a subclass of
    [requests.RequestException] such as [HTTPError] or [Timeout]. *)
Theorem get_prompt_exceptions
    (self : PromptManager.Manager) (prompt_name : string)
    (version : option string) (w w' : World) (e : error) :
  PromptManager.get_prompt network repr self prompt_name version w =
    (Raised e, w') ->
  (exists m, e = RequestException ("Error fetching prompt" +:+ m)) \/
  (exists m, e = ValueError m) \/
  e = TypeError \/
  (exists m, e = IndexError m) \/
  (exists m, e = Other false false m).
Proof.
  intros E.
  assert (Hcases :
    (exists m, e = RequestException ("Error fetching prompt list: " +:+ m)) \/
    (exists m, e = RequestException
                     ("Error fetching prompt versions: " +:+ m)) \/
    (exists m, e = RequestException ("Error fetching prompt: " +:+ m)) \/
    outside e).
  { unfold PromptManager.get_prompt in E.
    apply bind_inv in E as [(a & w1 & E1 & E) | (e0 & E & [= ->])].
    - destruct (negb (contains prompt_name a)).
      + injection E as <- _. do 3 right. exact I.
      + apply bind_inv in E as [(a0 & w2 & E2 & E) | (e0 & E & [= ->])].
        * destruct (Prompt.truthy version && _).
          -- injection E as <- _. do 3 right. exact I.
          -- apply manager_method_raises in E as [H1 | H1]; [tauto | tauto |].
             intros e0 w0. apply prompt_method_raises.
        * apply manager_method_raises in E as [H1 | H1]; [tauto | tauto |].
          intros e1 w0. apply manager_list_prompt_versions_raises.
    - apply manager_method_raises in E as [H1 | H1]; [tauto | tauto |].
      intros e1 w0. apply manager_list_prompts_raises. }
  destruct Hcases as [[m ->] | [[m ->] | [[m ->] | Ho]]].
  - left. now exists (" list: " +:+ m).
  - left. now exists (" versions: " +:+ m).
  - left. now exists (": " +:+ m).
  - right. destruct e as [m| |m|m|m|m|r j m]; try contradiction; eauto.
    destruct r, j; try contradiction. eauto 6.
Qed.

(** X24.  With no connection, [PromptManager.get_prompt] raises a
    [requests.RequestException] after one request; its message is
    that of the library behind three prefixes, one per method the
    exception has come through. *)
Theorem get_prompt_without_connection
    (self : PromptManager.Manager) (prompt_name : string)
    (version : option string) (w : World) (e : error) (str_e : string) :
  network (length (sent w)) (listing self) = Fails e ->
  request_exception_str e = Some str_e ->
  PromptManager.get_prompt network repr self prompt_name version w =
    (Raised
       (RequestException
          ("Error fetching prompt list: " +:+ "Error listing prompts: " +:+
           "Error listing prompts: " +:+ str_e)),
     logged w [listing self]).
Proof.
  intros Hfail Hstr.
  unfold PromptManager.get_prompt, PromptManager.list_prompts,
    Prompt.list_prompts, bind, try_except, requests_get.
  rewrite Hfail. unfold Prompt.handlers. rewrite Hstr. reflexivity.
Qed.

(** X25.  When the answer to the request for the list of prompts
    decodes to something other than a [dict],
    [PromptManager.get_prompt] raises the [TypeError] of the
    subscript as it is, after that one request. *)
Theorem get_prompt_raises_type_error
    (self : PromptManager.Manager) (prompt_name : string)
    (version : option string) (w : World) (response : Response)
    (document : json) :
  network (length (sent w)) (listing self) = Replies response ->
  http_error response = None ->
  json_body response = Returned document ->
  getitem document "data" = Raised TypeError ->
  PromptManager.get_prompt network repr self prompt_name version w =
    (Raised TypeError, logged w [listing self]).
Proof.
  intros Hreply Hstatus Hbody Hdata.
  unfold PromptManager.get_prompt, PromptManager.list_prompts,
    Prompt.list_prompts, bind, try_except, requests_get, raise_for_status,
    response_json, lift, ret.
  now rewrite Hreply, Hstatus, Hbody, Hdata.
Qed.

(** X26.  A prompt name that is not among the names listed (as a
    [str]: a name listed as a number equals no [str]) is refused
    with a [ValueError] by [PromptManager.get_prompt] and by
    [PromptManager.list_prompt_versions] after the one request for
    the list; no version is asked for. *)
Theorem unknown_prompt_is_refused
    (self : PromptManager.Manager) (prompt_name : string)
    (version : option string) (w w1 : World) (prompts : list json) :
  Prompt.list_prompts network (PromptManager.base_url self)
    (PromptManager.headers self) (PromptManager.timeout self) w =
    (Returned prompts, w1) ->
  contains prompt_name prompts = false ->
  PromptManager.get_prompt network repr self prompt_name version w =
    (Raised (ValueError "Prompt not found. Please enter a valid prompt name"),
     logged w [listing self]) /\
  PromptManager.list_prompt_versions network repr self prompt_name w =
    (Raised (ValueError "Prompt not found. Please enter a valid prompt name"),
     logged w [listing self]).
Proof.
  intros Hlist Hin.
  pose proof (list_prompts_snd (PromptManager.base_url self)
                (PromptManager.headers self) (PromptManager.timeout self) w)
    as Hw.
  rewrite Hlist in Hw. cbn [snd] in Hw. subst w1.
  unfold PromptManager.get_prompt, PromptManager.list_prompt_versions,
    PromptManager.list_prompts, bind, try_except.
  rewrite Hlist, Hin. split; reflexivity.
Qed.

(** *** The text of a prompt *)

Lemma add_contents_joins (fields : list json) (contents : list string) :
  Forall2 (fun field content =>
             getitem field "content" = Returned (JStr content))
    fields contents ->
  forall prompt,
    add_contents prompt fields =
      Returned (prompt +:+ fold_right String.append EmptyString contents).
Proof.
  induction 1 as [|field content fields contents Hf _ IH]; intros prompt.
  - cbn. now rewrite TextFacts.app_nil_r.
  - cbn [add_contents fold_right]. rewrite Hf, IH.
    now rewrite TextFacts.app_assoc.
Qed.

(** X27.  The prompt that [Prompt.get_prompt] returns has for text
    the [content] of the [textFields] of the first of the [docs]
    in the response, joined in their order; other [docs] are not
    read. *)
Theorem get_prompt_joins_the_text_fields
    (base_url : string) (headers : headers_t) (timeout : Z)
    (prompt_name : string) (version : option string) (w : World)
    (response : Response) (document data doc : json)
    (more_docs fields : list json) (contents : list string) :
  network (length (sent w))
    (Prompt.prompt_request repr base_url headers timeout prompt_name
       version) = Replies response ->
  http_error response = None ->
  json_body response = Returned document ->
  getitem document "data" = Returned data ->
  getitem data "docs" = Returned (JArr (doc :: more_docs)) ->
  getitem doc "textFields" = Returned (JArr fields) ->
  Forall2 (fun field content =>
             getitem field "content" = Returned (JStr content))
    fields contents ->
  Prompt.get_prompt network repr base_url headers timeout prompt_name
    version w =
    (Returned
       (PromptInit.__init__ (fold_right String.append EmptyString contents)),
     logged w [Prompt.prompt_request repr base_url headers timeout
                 prompt_name version]).
Proof.
  intros Hreply Hstatus Hbody Hdata Hdocs Hfields Hcontents.
  assert (Htext : forall w1, Prompt.text_fields response w1 =
            (Returned (fold_right String.append EmptyString contents), w1)).
  { intros w1. unfold Prompt.text_fields, response_json, bind, lift.
    rewrite Hbody, Hdata, Hdocs. cbn [getitem_0]. rewrite Hfields.
    cbn [iter]. now rewrite (add_contents_joins _ _ Hcontents). }
  unfold Prompt.get_prompt, Prompt.prompt_request in *.
  destruct (Prompt.truthy version).
  - unfold Prompt.get_prompt_by_version, try_except, bind, requests_get,
      raise_for_status.
    rewrite Hreply, Hstatus. unfold ret at 1. rewrite Htext. reflexivity.
  - unfold try_except, bind, requests_get, raise_for_status.
    rewrite Hreply, Hstatus. unfold ret at 1. rewrite Htext. reflexivity.
Qed.

End Service.

(** *** Creating a manager *)

Section Creation.

Variable network : Network.
Variable BASE_URL : string.

(** X28.  [PromptManager.__init__] returns only after one request
    for the projects, answered without an HTTP error by a document
    whose [data.content] lists the project by name; the instance
    then has the service address, a timeout of 10 and the headers
    built from the credential in the environment, [Bearer None] if
    there is none. *)
Theorem manager_only_for_a_listed_project
    (project_name : string) (w w' : World) (self : PromptManager.Manager) :
  PromptManager.__init__ network BASE_URL project_name w =
    (Returned self, w') ->
  let token := environ w !! "RAGAAI_CATALYST_TOKEN" in
  self =
    {| PromptManager.project_name := project_name;
       PromptManager.headers :=
         [ ("Content-Type", "application/json");
           ("Authorization", "Bearer " +:+ format_optional token);
           ("X-Project-Name", project_name) ];
       PromptManager.base_url := BASE_URL +:+ "/playground/prompt";
       PromptManager.timeout := 10 |} /\
  w' = logged w [PromptManager.projects_request BASE_URL token] /\
  exists response document data content projects names,
    network (length (sent w)) (PromptManager.projects_request BASE_URL token)
      = Replies response /\
    http_error response = None /\
    json_body response = Returned document /\
    getitem document "data" = Returned data /\
    getitem data "content" = Returned content /\
    iter content = Returned projects /\
    getitem_each "name" projects = Returned names /\
    contains project_name names = true.
Proof.
  intros E token. unfold PromptManager.__init__ in E.
  unfold bind at 1 in E. unfold getenv at 1 in E. fold token in E.
  returned E. apply try_except_returned in E0.
  unfold bind at 1 in E0. unfold getenv at 1 in E0. fold token in E0.
  returned E0. returned E0. injection E0 as -> ->.
  unfold requests_get in E1.
  destruct (network _ _) as [e|response] eqn:Hreply; [discriminate|].
  injection E1 as -> <-.
  unfold raise_for_status in E2.
  destruct (http_error a) eqn:Hstatus; [discriminate|].
  injection E2 as <-.
  returned E. apply try_except_returned in E0.
  unfold response_json in E0.
  returned E0. lifted E1. returned E0. lifted E2. returned E0. lifted E3.
  returned E0. lifted E4. lifted E0.
  destruct (contains project_name a0) eqn:Hin; cbn [negb] in E;
    [|discriminate].
  injection E as <- <-. subst w0.
  split; [reflexivity|]. split; [reflexivity|].
  exists a, a1, a2, a3, a4, a0. tauto.
Qed.

End Creation.


End PromptServiceFacts.

Module PromptScenarioFacts.
Import Http PromptScenario.

Lemma list_prompt_versions_requests_witness :
  snd (Prompt.list_prompt_versions service repr base_url manager_headers 10
         "greeting" process) =
    logged process
      (Prompt.versions_request base_url manager_headers 10 "greeting" ::
       map (Prompt.version_request repr base_url manager_headers 10
              "greeting") [JStr "v1"; JStr "v2"]).
Proof.
  apply (PromptServiceFacts.list_prompt_versions_requests service repr
           base_url manager_headers 10 "greeting" process _
           [ (JStr "v1", "Hello {{name}}"); (JStr "v2", "Hi {{name}}!") ]).
  vm_compute. reflexivity.
Defined.

Lemma get_prompt_requests_witness :
  exists versions : list json,
    (Prompt.truthy (Some "v1") = true -> contains "v1" versions = true) /\
    snd (PromptManager.get_prompt service repr manager "greeting" (Some "v1")
           process) =
      logged process
        ([ Prompt.prompts_request base_url manager_headers 10;
           Prompt.prompts_request base_url manager_headers 10;
           Prompt.versions_request base_url manager_headers 10 "greeting" ] ++
         map (Prompt.version_request repr base_url manager_headers 10
                "greeting") versions ++
         [ Prompt.prompt_request repr base_url manager_headers 10 "greeting"
             (Some "v1") ]).
Proof.
  apply (PromptServiceFacts.get_prompt_requests service repr manager
           "greeting" (Some "v1") process _
           {| PromptInit.text := "Hello {{name}}";
              PromptInit.variables := ["name"] |}).
  vm_compute. reflexivity.
Defined.

Lemma get_prompt_exceptions_witness :
  let e :=
    RequestException
      "Error fetching prompt list: Error listing prompts: Error listing prompts: Connection refused" in
  (exists m, e = RequestException ("Error fetching prompt" +:+ m)) \/
  (exists m, e = ValueError m) \/
  e = TypeError \/
  (exists m, e = IndexError m) \/
  (exists m, e = Other false false m).
Proof.
  apply (PromptServiceFacts.get_prompt_exceptions offline repr manager
           "greeting" None process
           (logged process [Prompt.prompts_request base_url manager_headers 10])).
  vm_compute. reflexivity.
Defined.

Lemma get_prompt_without_connection_witness :
  PromptManager.get_prompt offline repr manager "greeting" None process =
    (Raised
       (RequestException
          "Error fetching prompt list: Error listing prompts: Error listing prompts: Connection refused"),
     logged process [Prompt.prompts_request base_url manager_headers 10]).
Proof.
  apply (PromptServiceFacts.get_prompt_without_connection offline repr
           manager "greeting" None process
           (Other true false "Connection refused") "Connection refused");
    reflexivity.
Defined.

Lemma get_prompt_raises_type_error_witness :
  PromptManager.get_prompt confused repr manager "greeting" None process =
    (Raised TypeError,
     logged process [Prompt.prompts_request base_url manager_headers 10]).
Proof.
  apply (PromptServiceFacts.get_prompt_raises_type_error confused repr
           manager "greeting" None process
           {| http_error := None; json_body := Returned (JArr []) |}
           (JArr []));
    reflexivity.
Defined.

Lemma unknown_prompt_is_refused_witness :
  PromptManager.get_prompt service repr manager "farewell" None process =
    (Raised (ValueError "Prompt not found. Please enter a valid prompt name"),
     logged process [Prompt.prompts_request base_url manager_headers 10]) /\
  PromptManager.list_prompt_versions service repr manager "farewell" process =
    (Raised (ValueError "Prompt not found. Please enter a valid prompt name"),
     logged process [Prompt.prompts_request base_url manager_headers 10]).
Proof.
  apply (PromptServiceFacts.unknown_prompt_is_refused service repr manager
           "farewell" None process
           (logged process [Prompt.prompts_request base_url manager_headers 10])
           [JStr "greeting"]);
    reflexivity.
Defined.

Lemma get_prompt_joins_the_text_fields_witness :
  Prompt.get_prompt service repr base_url manager_headers 10 "greeting"
    (Some "v1") process =
    (Returned (PromptInit.__init__ "Hello {{name}}"),
     logged process
       [Prompt.prompt_request repr base_url manager_headers 10 "greeting"
          (Some "v1")]).
Proof.
  apply (PromptServiceFacts.get_prompt_joins_the_text_fields service repr
           base_url manager_headers 10 "greeting" (Some "v1") process
           (data (prompt_document ["Hello "; "{{name}}"]))
           (JObj [ ("data", prompt_document ["Hello "; "{{name}}"]) ])
           (prompt_document ["Hello "; "{{name}}"])
           (JObj [ ("textFields",
                    JArr [ JObj [ ("content", JStr "Hello ") ];
                           JObj [ ("content", JStr "{{name}}") ] ]) ])
           []
           [ JObj [ ("content", JStr "Hello ") ];
             JObj [ ("content", JStr "{{name}}") ] ]
           ["Hello "; "{{name}}"]);
    try reflexivity.
  repeat constructor.
Defined.

Lemma manager_only_for_a_listed_project_witness :
  let token := environ process !! "RAGAAI_CATALYST_TOKEN" in
  manager =
    {| PromptManager.project_name := "demo";
       PromptManager.headers :=
         [ ("Content-Type", "application/json");
           ("Authorization", "Bearer " +:+ format_optional token);
           ("X-Project-Name", "demo") ];
       PromptManager.base_url := BASE_URL +:+ "/playground/prompt";
       PromptManager.timeout := 10 |} /\
  logged process [PromptManager.projects_request BASE_URL (Some "secret")] =
    logged process [PromptManager.projects_request BASE_URL token] /\
  exists response document data content projects names,
    service (length (sent process))
      (PromptManager.projects_request BASE_URL token) = Replies response /\
    http_error response = None /\
    json_body response = Returned document /\
    getitem document "data" = Returned data /\
    getitem data "content" = Returned content /\
    iter content = Returned projects /\
    getitem_each "name" projects = Returned names /\
    contains "demo" names = true.
Proof.
  apply (PromptServiceFacts.manager_only_for_a_listed_project service
           BASE_URL "demo" process).
  vm_compute. reflexivity.
Defined.

End PromptScenarioFacts.
